(** * Verification of the matching and lifecycle core of intradaySim

    Shallow embedding of
    - [intraday_abm/core/product_aware_order_book.py] (ProductAwareOrderBook),
    - [intraday_abm/core/multi_product_market_operator.py]
      (MultiProductMarketOperator),
    - [intraday_abm/core/product.py] (Product, ProductStatus),
    - [intraday_abm/sim/settlement.py] (imbalance prices and cost),
    - the lifecycle/settlement part of
      [intraday_abm/sim/multi_product_simulation.py].

    Modelling choices.
    - Prices and volumes (Python floats) are modelled as [Z]; the matching
      code only compares, subtracts and takes minima of them.
    - A Python dict is an association list [list (Z * V)] kept in insertion
      order: assigning an existing key updates it in place, a new key is
      appended, [del] removes the key (see [dget], [dset], [ddel]).
    - An [Order] carries the fields the book and the operator read and write
      ([id], [agent_id], [side], [product_id], [volume], [price],
      [timestamp], [time_in_force]).
    - Python exceptions are the [Err] case of [result]; every stateful
      function returns the state as it is when it returns or raises. *)

From Stdlib Require Import String ZArith List Bool Lia Sorted Permutation.
Import ListNotations.
Open Scope Z_scope.

(** ** Enums ([core/types.py], [core/product.py]) *)

Inductive Side := BUY | SELL.
Inductive TimeInForce := GTC | IOC.
Inductive ProductStatus := PENDING | OPEN | CLOSED | SETTLED.

Inductive Error :=
| ValueError (msg : string)
| KeyError (key : Z).

Inductive result (A : Type) :=
| Ok (a : A)
| Err (e : Error).
Arguments Ok {A} a.
Arguments Err {A} e.

(** ** Records *)

Module Order.
Record t := mk {
  id : Z;
  agent_id : Z;
  side : Side;
  product_id : Z;
  volume : Z;
  price : Z;
  timestamp : Z;
  time_in_force : option TimeInForce
}.

(** [order.volume = v] *)
Definition set_volume (o : t) (v : Z) : t :=
  mk (id o) (agent_id o) (side o) (product_id o) v (price o)
     (timestamp o) (time_in_force o).

(** [order.id = i; order.timestamp = ts] in [process_order] *)
Definition assign_id (o : t) (i ts : Z) : t :=
  mk i (agent_id o) (side o) (product_id o) (volume o) (price o)
     ts (time_in_force o).
End Order.

Module Trade.
Record t := mk {
  product_id : Z;
  price : Z;
  volume : Z;
  buy_order_id : Z;
  sell_order_id : Z;
  buy_agent_id : Z;
  sell_agent_id : Z;
  time : Z
}.
End Trade.

Module Product.
Record t := mk {
  product_id : Z;
  delivery_start : Z;
  delivery_end : Z;
  gate_open : Z;
  gate_close : Z;
  duration : Z;
  da_price : Z;
  status : ProductStatus
}.

(** [Product.is_open]: [gate_open <= t < gate_close] *)
Definition is_open (p : t) (tm : Z) : bool :=
  (gate_open p <=? tm) && (tm <? gate_close p).

(** [Product.update_status]: [replace(self, status=new_status)] *)
Definition update_status (p : t) (s : ProductStatus) : t :=
  mk (product_id p) (delivery_start p) (delivery_end p) (gate_open p)
     (gate_close p) (duration p) (da_price p) s.
End Product.

Definition status_eqb (a b : ProductStatus) : bool :=
  match a, b with
  | PENDING, PENDING | OPEN, OPEN | CLOSED, CLOSED | SETTLED, SETTLED => true
  | _, _ => false
  end.

(** ** Python dicts keyed by [Z] *)

Definition dict (V : Type) := list (Z * V).

Fixpoint dget {V} (k : Z) (d : dict V) : option V :=
  match d with
  | [] => None
  | (k', v) :: d' => if Z.eqb k k' then Some v else dget k d'
  end.

(** [d[k] = v]: in place when [k] is present, appended otherwise. *)
Fixpoint dset {V} (k : Z) (v : V) (d : dict V) : dict V :=
  match d with
  | [] => [(k, v)]
  | (k', v') :: d' => if Z.eqb k k' then (k', v) :: d' else (k', v') :: dset k v d'
  end.

(** [del d[k]] *)
Fixpoint ddel {V} (k : Z) (d : dict V) : dict V :=
  match d with
  | [] => []
  | (k', v') :: d' => if Z.eqb k k' then d' else (k', v') :: ddel k d'
  end.

(** ** The order book ([ProductAwareOrderBook]) *)

Definition order_eq_dec (a b : Order.t) : {a = b} + {a <> b}.
Proof.
  decide equality;
    try apply Z.eq_dec;
    try (decide equality; decide equality);
    decide equality.
Defined.

(** [list.remove(x)] guarded by [x in list]: drop the first element equal
    to [x] (dataclass equality), do nothing when there is none. *)
Fixpoint list_remove (o : Order.t) (l : list Order.t) : list Order.t :=
  match l with
  | [] => []
  | x :: l' => if order_eq_dec x o then l' else x :: list_remove o l'
  end.

(** One side of the book: price level -> FIFO list of orders. *)
Definition BookSide := dict (list Order.t).

Record Book := mkBook {
  product : Product.t;
  bids : BookSide;
  asks : BookSide
}.

Definition set_bids (b : Book) (s : BookSide) : Book := mkBook (product b) s (asks b).
Definition set_asks (b : Book) (s : BookSide) : Book := mkBook (product b) (bids b) s.
Definition set_product (b : Book) (p : Product.t) : Book := mkBook p (bids b) (asks b).

(** [ProductAwareOrderBook.is_open] *)
Definition is_open (b : Book) (tm : Z) : bool :=
  status_eqb (Product.status (product b)) OPEN && Product.is_open (product b) tm.

(** [ProductAwareOrderBook.validate_order_time] *)
Definition validate_order_time (b : Book) (tm : Z) : result unit :=
  if is_open b tm then Ok tt
  else Err (ValueError "Cannot place order for product: product not open").

(** [side[price].append(order)] on a defaultdict *)
Definition append_level (o : Order.t) (s : BookSide) : BookSide :=
  match dget (Order.price o) s with
  | Some lvl => dset (Order.price o) (lvl ++ [o]) s
  | None => dset (Order.price o) [o] s
  end.

(** [ProductAwareOrderBook.add_order] *)
Definition add_order (o : Order.t) (validate_time : bool) (tm : option Z) (b : Book)
  : result unit * Book :=
  if negb (Z.eqb (Order.product_id o) (Product.product_id (product b))) then
    (Err (ValueError "Order product_id doesn't match book product_id"), b)
  else
    let checked :=
      if validate_time then
        match tm with
        | None => Err (ValueError "Time t must be provided when validate_time=True")
        | Some t0 => validate_order_time b t0
        end
      else Ok tt in
    match checked with
    | Err e => (Err e, b)
    | Ok _ =>
        match Order.side o with
        | BUY => (Ok tt, set_bids b (append_level o (bids b)))
        | SELL => (Ok tt, set_asks b (append_level o (asks b)))
        end
    end.

(** Removing [order] from one side ([remove_order], per branch):
    [level = side.get(order.price, [])], drop the order from the level,
    delete the price key once the level is empty. *)
Definition remove_from_side (o : Order.t) (s : BookSide) : BookSide :=
  match dget (Order.price o) s with
  | None => s
  | Some lvl =>
      match list_remove o lvl with
      | [] => ddel (Order.price o) s
      | lvl' => dset (Order.price o) lvl' s
      end
  end.

(** [ProductAwareOrderBook.remove_order]: dispatch on the order's side *)
Definition remove_order (o : Order.t) (b : Book) : Book :=
  match Order.side o with
  | BUY => set_bids b (remove_from_side o (bids b))
  | SELL => set_asks b (remove_from_side o (asks b))
  end.

(** [ProductAwareOrderBook.clear_all_orders] and [__len__] *)
Definition side_count (s : BookSide) : nat :=
  fold_right (fun kv acc => (length (snd kv) + acc)%nat) 0%nat s.

Definition book_len (b : Book) : nat := (side_count (bids b) + side_count (asks b))%nat.

Definition clear_all_orders (b : Book) : nat * Book :=
  (book_len b, mkBook (product b) [] []).

(** [max(side.keys())] / [min(side.keys())] and the head of that level:
    the entry [(best_price, level[0])]. [sel] is [Z.max] for bids and
    [Z.min] for asks. *)
Definition best_entry (sel : Z -> Z -> Z) (s : BookSide) : option (Z * Order.t) :=
  match s with
  | [] => None
  | (k0, _) :: rest =>
      let best_price := fold_left sel (map fst rest) k0 in
      match dget best_price s with
      | Some (o :: _) => Some (best_price, o)
      | _ => None
      end
  end.

(** [best_bid] / [best_ask] *)
Definition best_bid (b : Book) : option Order.t := option_map snd (best_entry Z.max (bids b)).
Definition best_ask (b : Book) : option Order.t := option_map snd (best_entry Z.min (asks b)).

Definition best_bid_price (b : Book) : option Z := option_map Order.price (best_bid b).
Definition best_ask_price (b : Book) : option Z := option_map Order.price (best_ask b).

(** [best.volume -= traded_volume]: the head of the level at [k] is the
    object that is mutated. *)
Definition set_level_head (k : Z) (r : Order.t) (s : BookSide) : BookSide :=
  match dget k s with
  | Some (_ :: rest) => dset k (r :: rest) s
  | _ => s
  end.

(** ** Matching ([match_order], [_match_buy], [_match_sell])

    The two loops differ only in the side they read, how they pick the best
    price, when they break, and how they fill in the trade; the section
    below is the common loop body, instantiated by [match_buy] and
    [match_sell]. The Python [while] loop is run with a fuel of one
    iteration more than the number of resting orders; [match_loop_refines]
    shows that on a well-formed book this fuel always reaches the loop's
    own exit condition. *)

Section MatchLoop.
Variable sel : Z -> Z -> Z.
(** [blocks incoming.price best.price = true]: the [break] on no crossing *)
Variable blocks : Z -> Z -> bool.
(** the [Trade(...)] built from the product id, the incoming order, the
    resting order, the price, the volume and the time *)
Variable mk_trade : Z -> Order.t -> Order.t -> Z -> Z -> Z -> Trade.t.
Variable get_side : Book -> BookSide.
Variable put_side : Book -> BookSide -> Book.

Fixpoint match_loop (fuel : nat) (tm : Z) (inc : Order.t) (b : Book)
  : list Trade.t * Order.t * Book :=
  match fuel with
  | O => ([], inc, b)
  | S f =>
      if 0 <? Order.volume inc then
        match best_entry sel (get_side b) with
        | None => ([], inc, b)
        | Some (k, r) =>
            if blocks (Order.price inc) (Order.price r) then ([], inc, b)
            else
              let traded_volume := Z.min (Order.volume inc) (Order.volume r) in
              let trade_price := Order.price r in
              let tr := mk_trade (Product.product_id (product b)) inc r
                                 trade_price traded_volume tm in
              let inc1 := Order.set_volume inc (Order.volume inc - traded_volume) in
              let r1 := Order.set_volume r (Order.volume r - traded_volume) in
              let b1 := put_side b (set_level_head k r1 (get_side b)) in
              let b2 := if Order.volume r1 <=? 0 then remove_order r1 b1 else b1 in
              let '(ts, inc2, b3) := match_loop f tm inc1 b2 in
              (tr :: ts, inc2, b3)
        end
      else ([], inc, b)
  end.
End MatchLoop.

Definition buy_trade (pid : Z) (inc r : Order.t) (pr v tm : Z) : Trade.t :=
  {| Trade.product_id := pid; Trade.price := pr; Trade.volume := v;
     Trade.buy_order_id := Order.id inc; Trade.sell_order_id := Order.id r;
     Trade.buy_agent_id := Order.agent_id inc; Trade.sell_agent_id := Order.agent_id r;
     Trade.time := tm |}.

Definition sell_trade (pid : Z) (inc r : Order.t) (pr v tm : Z) : Trade.t :=
  {| Trade.product_id := pid; Trade.price := pr; Trade.volume := v;
     Trade.buy_order_id := Order.id r; Trade.sell_order_id := Order.id inc;
     Trade.buy_agent_id := Order.agent_id r; Trade.sell_agent_id := Order.agent_id inc;
     Trade.time := tm |}.

(** [_match_buy]: against the asks, break when [incoming.price < best_ask.price] *)
Definition match_buy (b : Book) (inc : Order.t) (tm : Z) : list Trade.t * Order.t * Book :=
  match_loop Z.min (fun pi pr => pi <? pr) buy_trade asks set_asks
             (S (book_len b)) tm inc b.

(** [_match_sell]: against the bids, break when [incoming.price > best_bid.price] *)
Definition match_sell (b : Book) (inc : Order.t) (tm : Z) : list Trade.t * Order.t * Book :=
  match_loop Z.max (fun pi pr => pr <? pi) sell_trade bids set_bids
             (S (book_len b)) tm inc b.

(** [match_order] *)
Definition match_order (b : Book) (inc : Order.t) (tm : Z) : list Trade.t * Order.t * Book :=
  match Order.side inc with
  | BUY => match_buy b inc tm
  | SELL => match_sell b inc tm
  end.

(** ** The market operator ([MultiProductMarketOperator]) *)

Record MO := mkMO {
  products : dict Product.t;
  order_books : dict Book;
  next_order_id : Z
}.

(** [from_products]; the product ids are taken to be distinct (the
    theorems that need it say so). *)
Definition from_products (ps : list Product.t) : MO :=
  mkMO (map (fun p => (Product.product_id p, p)) ps)
       (map (fun p => (Product.product_id p, mkBook p [] [])) ps)
       1.

Definition is_gtc (x : option TimeInForce) : bool :=
  match x with Some GTC => true | _ => false end.

(** [process_order]: the state returned with an [Err] is the state at the
    point where the exception is raised. *)
Definition process_order (o : Order.t) (tm : Z) (validate_time : bool) (mo : MO)
  : result (list Trade.t) * MO :=
  let pid := Order.product_id o in
  match dget pid (order_books mo) with
  | None => (Err (ValueError "Product not found in market operator"), mo)
  | Some ob =>
      match (if validate_time then validate_order_time ob tm else Ok tt) with
      | Err e => (Err e, mo)
      | Ok _ =>
          let o1 := Order.assign_id o (next_order_id mo) tm in
          let nid := next_order_id mo + 1 in
          let '(trades, o2, ob1) := match_order ob o1 tm in
          if (0 <? Order.volume o2) && is_gtc (Order.time_in_force o2) then
            let '(r, ob2) := add_order o2 false None ob1 in
            let mo2 := mkMO (products mo) (dset pid ob2 (order_books mo)) nid in
            match r with
            | Err e => (Err e, mo2)
            | Ok _ => (Ok trades, mo2)
            end
          else (Ok trades, mkMO (products mo) (dset pid ob1 (order_books mo)) nid)
      end
  end.

(** [self.order_books[pid]] mutated by [f]; [KeyError] when absent. *)
Definition update_book (pid : Z) (f : Book -> Book) (mo : MO) : result unit * MO :=
  match dget pid (order_books mo) with
  | None => (Err (KeyError pid), mo)
  | Some ob => (Ok tt, mkMO (products mo) (dset pid (f ob) (order_books mo)) (next_order_id mo))
  end.

(** [if new_status is not None: ...]: store the updated product and update
    the book's product reference. *)
Definition apply_status (pid : Z) (p : Product.t) (s : ProductStatus) (mo : MO)
  : result unit * MO :=
  let up := Product.update_status p s in
  let mo1 := mkMO (dset pid up (products mo)) (order_books mo) (next_order_id mo) in
  update_book pid (fun ob => set_product ob up) mo1.

(** One iteration of the loop of [update_product_status]. *)
Definition status_step (tm : Z) (pid : Z) (p : Product.t) (closed : list Z) (mo : MO)
  : result (list Z) * MO :=
  match Product.status p with
  | PENDING =>
      if Product.gate_open p <=? tm then
        match apply_status pid p OPEN mo with
        | (Err e, mo1) => (Err e, mo1)
        | (Ok _, mo1) => (Ok closed, mo1)
        end
      else (Ok closed, mo)
  | OPEN =>
      if Product.gate_close p <=? tm then
        let closed1 := closed ++ [pid] in
        match update_book pid (fun ob => snd (clear_all_orders ob)) mo with
        | (Err e, mo1) => (Err e, mo1)
        | (Ok _, mo1) =>
            match apply_status pid p CLOSED mo1 with
            | (Err e, mo2) => (Err e, mo2)
            | (Ok _, mo2) => (Ok closed1, mo2)
            end
        end
      else (Ok closed, mo)
  | CLOSED =>
      if Product.delivery_end p <=? tm then
        match apply_status pid p SETTLED mo with
        | (Err e, mo1) => (Err e, mo1)
        | (Ok _, mo1) => (Ok closed, mo1)
        end
      else (Ok closed, mo)
  | SETTLED => (Ok closed, mo)
  end.

Fixpoint ups_loop (tm : Z) (items : dict Product.t) (closed : list Z) (mo : MO)
  : result (list Z) * MO :=
  match items with
  | [] => (Ok closed, mo)
  | (pid, p) :: rest =>
      match status_step tm pid p closed mo with
      | (Err e, mo1) => (Err e, mo1)
      | (Ok closed1, mo1) => ups_loop tm rest closed1 mo1
      end
  end.

(** [update_product_status]: iterates over [self.products.items()]; each
    iteration only writes its own key, so the items are those of the
    dict at the start of the call. *)
Definition update_product_status (tm : Z) (mo : MO) : result (list Z) * MO :=
  ups_loop tm (products mo) [] mo.

(** ** The simulation loop ([run_multi_product_simulation])

    Only what decides when settlement runs is kept: the lifecycle update at
    each tick, the settlement of the products it reports closed, and the
    agents' orders sent through [process_order]. The orders of a tick are
    given by [decide], a function of the tick and of the operator state when
    the agents act (their private state is outside this model); an order
    for a product that is not open is skipped, and the errors
    [process_order] raises are caught. The settlement log records one
    [(t, pid)] entry for each product passed to [settle_products]. The
    other calls of the loop (the public information given to the agents,
    their decisions, the settlement of the agents and its logging, the
    per-tick market log) and the errors they may raise are left out, so
    this model says when settlement happens, not that a run never
    raises. *)

(** [range(n_steps)] *)
Fixpoint ticks_from (t : Z) (m : nat) : list Z :=
  match m with
  | O => []
  | S m' => t :: ticks_from (t + 1) m'
  end.

(** [get_open_products] *)
Definition get_open_products (tm : Z) (mo : MO) : list Z :=
  map fst (filter (fun kv => is_open (snd kv) tm) (order_books mo)).

Definition agent_phase (decide : Z -> MO -> list Order.t) (tm : Z) (mo : MO) : MO :=
  let open_ids := get_open_products tm mo in
  fold_left (fun m o =>
               if existsb (Z.eqb (Order.product_id o)) open_ids
               then snd (process_order o tm true m) else m)
            (decide tm mo) mo.

Fixpoint run_loop (decide : Z -> MO -> list Order.t) (enable_settlement : bool)
         (ticks : list Z) (mo : MO) (settled : list (Z * Z))
  : result (list (Z * Z)) * MO :=
  match ticks with
  | [] => (Ok settled, mo)
  | tm :: rest =>
      match update_product_status tm mo with
      | (Err e, mo1) => (Err e, mo1)
      | (Ok closed, mo1) =>
          let settled1 :=
            match closed with
            | [] => settled
            | _ :: _ => if enable_settlement then settled ++ map (fun pid => (tm, pid)) closed
                        else settled
            end in
          run_loop decide enable_settlement rest (agent_phase decide tm mo1) settled1
      end
  end.

Definition run_multi_product_simulation (decide : Z -> MO -> list Order.t)
           (enable_settlement : bool) (ps : list Product.t) (n_steps : nat)
  : result (list (Z * Z)) * MO :=
  let mo := from_products ps in
  match update_product_status 0 mo with
  | (Err e, mo1) => (Err e, mo1)
  | (Ok _, mo1) => run_loop decide enable_settlement (ticks_from 0 n_steps) mo1 []
  end.

(** ** Settlement ([settlement.py])

    [get_imbalance_prices]: [draws] is [Some (u_up, u_down)] when
    [use_stochastic] is set and an [rng] is given, the two values of
    [rng.uniform(-volatility, volatility)]; [None] otherwise. *)
Definition get_imbalance_prices (p : Product.t) (base_offset volatility : Z)
           (draws : option (Z * Z)) : Z * Z :=
  let da_price := Product.da_price p in
  let '(offset_up, offset_down) :=
    match draws with
    | Some (u_up, u_down) => (base_offset + u_up, base_offset + u_down)
    | None => (base_offset, base_offset)
    end in
  let lambda_up := da_price + offset_up in
  let lambda_down := Z.max 0 (da_price - offset_down) in
  (lambda_up, lambda_down).

(** [calculate_imbalance_cost] *)
Definition calculate_imbalance_cost (imbalance lambda_up lambda_down : Z) : Z :=
  if 0 <? imbalance then imbalance * lambda_up
  else if imbalance <? 0 then Z.abs imbalance * lambda_down
  else 0.

(** ** Specification-side definitions *)

(** All resting orders of one side, level by level. *)
Definition flat (s : BookSide) : list Order.t := concat (map snd s).

(** [sel true = Z.max] (bids), [sel false = Z.min] (asks), and the order on
    prices that goes with it: [better mx a c] says that a resting price [a]
    has at least the priority of [c]. *)
Definition sel (mx : bool) : Z -> Z -> Z := if mx then Z.max else Z.min.
Definition better (mx : bool) (a c : Z) : Prop := if mx then c <= a else a <= c.

(** A well-formed side of a book: one level per price, no empty level, every
    order of a level stands at the level's price, on the side [sd], with a
    positive volume. *)
Definition wf_side (sd : Side) (s : BookSide) : Prop :=
  NoDup (map fst s) /\
  forall k lvl, dget k s = Some lvl ->
    lvl <> [] /\
    Forall (fun o => Order.price o = k /\ Order.side o = sd /\ 0 < Order.volume o) lvl.

Definition wf_book (b : Book) : Prop := wf_side BUY (bids b) /\ wf_side SELL (asks b).

(** The price-time priority list of a side: the level at the best price
    (FIFO), then the priority list of the rest. *)
Fixpoint prio_fuel (mx : bool) (n : nat) (s : BookSide) : list Order.t :=
  match n with
  | O => []
  | S n' =>
      match best_entry (sel mx) s with
      | None => []
      | Some (k, _) =>
          match dget k s with
          | Some lvl => lvl ++ prio_fuel mx n' (ddel k s)
          | None => []
          end
      end
  end.

Definition prio (mx : bool) (s : BookSide) : list Order.t := prio_fuel mx (List.length s) s.

(** Matching an incoming order against a list of resting orders in
    priority order, as the spec words it (section 4.1, [match]): while the
    incoming order has volume and crosses the first resting order, trade
    [min] of the two volumes at the resting price; a filled resting order is
    removed and matching goes on, otherwise the incoming order is used up
    and matching stops. *)
Section SpecMatch.
Variable blocks : Z -> Z -> bool.
Variable mk_trade : Z -> Order.t -> Order.t -> Z -> Z -> Z -> Trade.t.

Fixpoint spec_match_list (pid tm : Z) (inc : Order.t) (L : list Order.t)
  : list Trade.t * Order.t * list Order.t :=
  match L with
  | [] => ([], inc, [])
  | r :: L' =>
      if 0 <? Order.volume inc then
        if blocks (Order.price inc) (Order.price r) then ([], inc, L)
        else
          let v := Z.min (Order.volume inc) (Order.volume r) in
          let tr := mk_trade pid inc r (Order.price r) v tm in
          let inc1 := Order.set_volume inc (Order.volume inc - v) in
          let r1 := Order.set_volume r (Order.volume r - v) in
          if Order.volume r1 <=? 0 then
            let '(ts, inc2, L2) := spec_match_list pid tm inc1 L' in (tr :: ts, inc2, L2)
          else ([tr], inc1, r1 :: L')
      else ([], inc, L)
  end.
End SpecMatch.


(** Total volume of a list of orders, and the total resting volume of a side. *)
Definition sum_orders (l : list Order.t) : Z :=
  fold_right (fun o acc => Order.volume o + acc) 0 l.

Definition side_volume (s : BookSide) : Z := sum_orders (flat s).

Definition sum_volumes (ts : list Trade.t) : Z :=
  fold_right (fun tr acc => Trade.volume tr + acc) 0 ts.

Definition dummy_trade : Trade.t := Trade.mk 0 0 0 0 0 0 0 0.

(** Identity, agent and price: what a trade records of a resting order. *)
Definition same_order (o o0 : Order.t) : Prop :=
  Order.id o = Order.id o0 /\ Order.agent_id o = Order.agent_id o0 /\ Order.price o = Order.price o0.

(** The side an incoming order of side [sd] is matched against, its
    priority direction ([true]: highest price first), and the fields of a
    trade that name the resting order. *)
Definition opposite_side (b : Book) (sd : Side) : BookSide :=
  match sd with BUY => asks b | SELL => bids b end.

Definition opp_mx (sd : Side) : bool := match sd with BUY => false | SELL => true end.

Definition resting_order_id (sd : Side) (tr : Trade.t) : Z :=
  match sd with BUY => Trade.sell_order_id tr | SELL => Trade.buy_order_id tr end.

Definition resting_agent_id (sd : Side) (tr : Trade.t) : Z :=
  match sd with BUY => Trade.sell_agent_id tr | SELL => Trade.buy_agent_id tr end.

Definition own_side (b : Book) (sd : Side) : BookSide :=
  match sd with BUY => bids b | SELL => asks b end.

(** The [break] test and the trade constructor of the loop for an incoming
    order of side [sd]. *)
Definition break_of (sd : Side) : Z -> Z -> bool :=
  match sd with BUY => fun pi pr => pi <? pr | SELL => fun pi pr => pr <? pi end.

Definition trade_of (sd : Side) : Z -> Order.t -> Order.t -> Z -> Z -> Z -> Trade.t :=
  match sd with BUY => buy_trade | SELL => sell_trade end.


(** The transition the [if]/[elif] chain of [update_product_status] picks
    for one product at tick [tm], the position of a status along
    Pending -> Open -> Closed -> Settled, and the product after the call. *)
Definition status_next (tm : Z) (p : Product.t) : option ProductStatus :=
  match Product.status p with
  | PENDING => if Product.gate_open p <=? tm then Some OPEN else None
  | OPEN => if Product.gate_close p <=? tm then Some CLOSED else None
  | CLOSED => if Product.delivery_end p <=? tm then Some SETTLED else None
  | SETTLED => None
  end.

Definition status_rank (s : ProductStatus) : Z :=
  match s with PENDING => 0 | OPEN => 1 | CLOSED => 2 | SETTLED => 3 end.

Definition product_after (tm : Z) (p : Product.t) : Product.t :=
  match status_next tm p with
  | Some s => Product.update_status p s
  | None => p
  end.

Definition closes_at (tm : Z) (p : Product.t) : bool :=
  status_eqb (Product.status p) OPEN && (Product.gate_close p <=? tm).

(** The ticks of a run at which a product in state [q] is reported
    closed, following the lifecycle alone, and the tick at which a product
    created Pending closes in a run: the initial
    [update_product_status(t=0)] opens it when [gate_open <= 0], otherwise
    it opens at tick [gate_open] and closes at a later tick. *)
Fixpoint close_ticks (ticks : list Z) (q : Product.t) : list Z :=
  match ticks with
  | [] => []
  | tm :: rest => (if closes_at tm q then [tm] else []) ++ close_ticks rest (product_after tm q)
  end.

Definition close_tick (p : Product.t) : Z :=
  if Product.gate_open p <=? 0 then Z.max 0 (Product.gate_close p)
  else Z.max (Product.gate_open p + 1) (Product.gate_close p).

(** A decision procedure for [wf_side], used on concrete books. *)
Definition side_eqb (a b : Side) : bool :=
  match a, b with BUY, BUY | SELL, SELL => true | _, _ => false end.

Fixpoint nodup_b (l : list Z) : bool :=
  match l with
  | [] => true
  | x :: l' => negb (existsb (Z.eqb x) l') && nodup_b l'
  end.

Definition wf_side_b (sd : Side) (s : BookSide) : bool :=
  nodup_b (map fst s) &&
  forallb (fun kv =>
             match snd kv with [] => false | _ :: _ => true end &&
             forallb (fun o => Z.eqb (Order.price o) (fst kv) && side_eqb (Order.side o) sd &&
                               (0 <? Order.volume o)) (snd kv)) s.

Definition wf_book_b (b : Book) : bool := wf_side_b BUY (bids b) && wf_side_b SELL (asks b).

(** Successive [update_product_status] calls at the given ticks. *)
Fixpoint run_status_updates (ticks : list Z) (mo : MO) : result unit * MO :=
  match ticks with
  | [] => (Ok tt, mo)
  | tm :: rest =>
      match update_product_status tm mo with
      | (Err e, mo1) => (Err e, mo1)
      | (Ok _, mo1) => run_status_updates rest mo1
      end
  end.

(** ** Further operations of the book and the operator *)

(** One iteration of the loops of [remove_orders_by_agent] over the price
    keys of a side: [original_len = len(side[price])], keep the orders of
    the other agents, add the difference of the lengths to the count, and
    delete the level once it is empty. The side is a [defaultdict(list)]:
    reading a missing price gives an empty level. *)
Definition rba_step (agent_id : Z) (acc : nat * BookSide) (price : Z) : nat * BookSide :=
  let '(removed_count, s) := acc in
  let level := match dget price s with Some l => l | None => [] end in
  let original_len := length level in
  let kept := filter (fun o => negb (Z.eqb (Order.agent_id o) agent_id)) level in
  let s1 := dset price kept s in
  let removed_count1 := (removed_count + (original_len - length kept))%nat in
  match kept with
  | [] => (removed_count1, ddel price s1)
  | _ :: _ => (removed_count1, s1)
  end.

(** [ProductAwareOrderBook.remove_orders_by_agent]: the bids, then the
    asks, each over [list(side.keys())] taken before the loop. *)
Definition remove_orders_by_agent (agent_id : Z) (b : Book) : nat * Book :=
  let '(c1, bids1) := fold_left (rba_step agent_id) (map fst (bids b)) (0%nat, bids b) in
  let '(c2, asks1) := fold_left (rba_step agent_id) (map fst (asks b)) (c1, asks b) in
  (c2, mkBook (product b) bids1 asks1).

(** The [for ob in self.order_books.values()] branch of
    [cancel_agent_orders]: every book is changed in place. *)
Fixpoint cancel_all (agent_id : Z) (obs : dict Book) : nat * dict Book :=
  match obs with
  | [] => (0%nat, [])
  | (pid, ob) :: rest =>
      let '(c, ob1) := remove_orders_by_agent agent_id ob in
      let '(c', rest1) := cancel_all agent_id rest in
      ((c + c')%nat, (pid, ob1) :: rest1)
  end.

(** [MultiProductMarketOperator.cancel_agent_orders] *)
Definition cancel_agent_orders (agent_id : Z) (product_id : option Z) (mo : MO) : nat * MO :=
  match product_id with
  | Some pid =>
      match dget pid (order_books mo) with
      | Some ob =>
          let '(c, ob1) := remove_orders_by_agent agent_id ob in
          (c, mkMO (products mo) (dset pid ob1 (order_books mo)) (next_order_id mo))
      | None => (0%nat, mo)
      end
  | None =>
      let '(c, obs) := cancel_all agent_id (order_books mo) in
      (c, mkMO (products mo) obs (next_order_id mo))
  end.

(** The loop of [open_products]: a Pending product whose gate has opened is
    stored Open and its book's product is updated (the same two writes as
    in [update_product_status], hence [apply_status]). *)
Fixpoint open_loop (tm : Z) (items : dict Product.t) (opened : list Z) (mo : MO)
  : result (list Z) * MO :=
  match items with
  | [] => (Ok opened, mo)
  | (pid, p) :: rest =>
      match Product.status p with
      | PENDING =>
          if Product.gate_open p <=? tm then
            match apply_status pid p OPEN mo with
            | (Err e, mo1) => (Err e, mo1)
            | (Ok _, mo1) => open_loop tm rest (opened ++ [pid]) mo1
            end
          else open_loop tm rest opened mo
      | _ => open_loop tm rest opened mo
      end
  end.

(** [open_products]; as in [update_product_status] each iteration only
    writes its own key, so the items are those at the start of the call. *)
Definition open_products (tm : Z) (mo : MO) : result (list Z) * MO :=
  open_loop tm (products mo) [] mo.

(** [TopOfBook] and [PublicInfo] ([core/types.py]) *)
Module TopOfBook.
Record t := mk {
  best_bid_price : option Z;
  best_bid_volume : option Z;
  best_ask_price : option Z;
  best_ask_volume : option Z
}.
End TopOfBook.

Module PublicInfo.
Record t := mk {
  tob : TopOfBook.t;
  da_price : Z;
  product : Product.t
}.
End PublicInfo.

(** [get_tob] *)
Definition get_tob (product_id : Z) (mo : MO) : result TopOfBook.t :=
  match dget product_id (order_books mo) with
  | None => Err (ValueError "Product not found")
  | Some ob =>
      let bb := best_bid ob in
      let ba := best_ask ob in
      Ok (TopOfBook.mk (option_map Order.price bb) (option_map Order.volume bb)
                       (option_map Order.price ba) (option_map Order.volume ba))
  end.

(** The loop of [get_public_info]: ids that are not products are skipped,
    [get_tob] may raise. *)
Fixpoint public_info_loop (ids : list Z) (mo : MO) (acc : dict PublicInfo.t)
  : result (dict PublicInfo.t) :=
  match ids with
  | [] => Ok acc
  | pid :: rest =>
      match dget pid (products mo) with
      | None => public_info_loop rest mo acc
      | Some p =>
          match get_tob pid mo with
          | Err e => Err e
          | Ok tob => public_info_loop rest mo (dset pid (PublicInfo.mk tob (Product.da_price p) p) acc)
          end
      end
  end.

(** [get_public_info]: by default the open products. *)
Definition get_public_info (tm : Z) (product_ids : option (list Z)) (mo : MO)
  : result (dict PublicInfo.t) :=
  let ids := match product_ids with None => get_open_products tm mo | Some l => l end in
  public_info_loop ids mo [].

(** [get_book_sizes] and [total_orders] *)
Definition get_book_sizes (mo : MO) : dict nat :=
  map (fun kv => (fst kv, book_len (snd kv))) (order_books mo).

Definition total_orders (mo : MO) : nat :=
  fold_right (fun kv acc => (book_len (snd kv) + acc)%nat) 0%nat (order_books mo).

(** All resting orders of a book, bids then asks. *)
Definition all_orders (b : Book) : list Order.t := flat (bids b) ++ flat (asks b).

(** ** Product construction ([core/product.py]) *)

Module ProductConfig.
Record t := mk {
  product_id : Z;
  delivery_start : Z;
  delivery_duration : Z;
  gate_open_offset_hours : Z;
  gate_close_offset_minutes : Z;
  da_price : Z
}.

(** [ProductConfig.to_product] *)
Definition to_product (c : t) : Product.t :=
  let gate_open := delivery_start c - gate_open_offset_hours c * 60 in
  let gate_close := delivery_start c - gate_close_offset_minutes c in
  let delivery_end := delivery_start c + delivery_duration c in
  Product.mk (product_id c) (delivery_start c) delivery_end gate_open gate_close
             (delivery_duration c) (da_price c) PENDING.
End ProductConfig.

(** [create_hourly_products]; [n_hours] is a count, [da_prices] is
    [None] or the list given. *)
Definition create_hourly_products (n_hours : nat) (start_time gate_open_offset_hours
           gate_close_offset_minutes : Z) (da_prices : option (list Z))
  : result (list Product.t) :=
  let checked :=
    match da_prices with
    | None => Ok (repeat 50 n_hours)
    | Some l => if Nat.eqb (length l) n_hours then Ok l
                else Err (ValueError "da_prices length must match n_hours")
    end in
  match checked with
  | Err e => Err e
  | Ok das =>
      Ok (map (fun i =>
                 ProductConfig.to_product
                   (ProductConfig.mk (Z.of_nat i) (start_time + Z.of_nat i * 60) 60
                      gate_open_offset_hours gate_close_offset_minutes (nth i das 0)))
              (seq 0 n_hours))
  end.

(** [generate_realistic_da_price]; [draw] is the value of
    [rng.normal(0, volatility)], used only when [volatility > 0]. *)
Definition generate_realistic_da_price (hour quarter : Z) (season : string)
           (base_price volatility draw : Z) : Z :=
  let time_adjustment :=
    if (0 <=? hour) && (hour <? 6) then -8
    else if (6 <=? hour) && (hour <? 8) then -3
    else if (8 <=? hour) && (hour <? 20) then 8
    else 0 in
  let time_adjustment :=
    if (18 <=? hour) && (hour <? 20) then time_adjustment + 5 else time_adjustment in
  let seasonal_adjustment :=
    if String.eqb season "winter" then
      (if (8 <=? hour) && (hour <? 20) then 3 else -1)
    else
      (if (8 <=? hour) && (hour <? 20) then -3 else 1) in
  let quarter_adjustment :=
    if (8 <=? hour) && (hour <? 14) then 3 - quarter * 2
    else if (14 <=? hour) && (hour <? 20) then -3 + quarter * 2
    else if (quarter =? 0) || (quarter =? 3) then 1
    else -1 in
  let stochastic := if 0 <? volatility then draw else 0 in
  let da_price := base_price + time_adjustment + seasonal_adjustment + quarter_adjustment
                  + stochastic in
  Z.max 10 (Z.min 150 da_price).

(** [create_quarterly_products]: the two nested loops with the running
    [product_id]; [draws k] is the normal sample drawn for the [k]-th
    product. *)
Definition quarterly_step (start_time gate_open_offset_hours gate_close_offset_minutes : Z)
           (season : string) (base_da_price volatility : Z) (draws : nat -> Z) (hour : nat)
           (acc : list Product.t * nat) (quarter : nat) : list Product.t * nat :=
  let '(products, product_id) := acc in
  let delivery_start := start_time + Z.of_nat hour * 60 + Z.of_nat quarter * 15 in
  let da_price := generate_realistic_da_price (Z.of_nat hour) (Z.of_nat quarter) season
                    base_da_price volatility (draws product_id) in
  let config := ProductConfig.mk (Z.of_nat product_id) delivery_start 15
                  gate_open_offset_hours gate_close_offset_minutes da_price in
  (products ++ [ProductConfig.to_product config], S product_id).

Definition create_quarterly_products (n_hours : nat) (start_time gate_open_offset_hours
           gate_close_offset_minutes : Z) (season : string) (base_da_price price_volatility : Z)
           (add_stochastic_volatility : bool) (draws : nat -> Z) : list Product.t :=
  let volatility := if add_stochastic_volatility then price_volatility else 0 in
  fst (fold_left
         (fun acc hour =>
            fold_left (quarterly_step start_time gate_open_offset_hours gate_close_offset_minutes
                         season base_da_price volatility draws hour)
                      (seq 0 4) acc)
         (seq 0 n_hours) ([], 0%nat)).

(** ** Settlement of agents ([settlement.py], [MultiProductPrivateInfo]) *)

Module PrivateInfo.
Record t := mk {
  da_positions : dict Z;
  positions : dict Z;
  revenues : dict Z;
  (* single-product fields *)
  da_position : Z;
  market_position : Z;
  revenue : Z
}.
End PrivateInfo.

Module Agent.
Record t := mk {
  id : Z;
  is_multi_product : bool;
  private_info : PrivateInfo.t
}.
End Agent.

Module SettlementResult.
Record t := mk {
  agent_id : Z;
  product_id : Z;
  da_position : Z;
  market_position : Z;
  imbalance : Z;
  imbalance_cost : Z;
  lambda_up : Z;
  lambda_down : Z;
  revenue_before : Z;
  revenue_after : Z
}.
End SettlementResult.

(** [d.get(k, 0.0)] *)
Definition dget_or0 (k : Z) (d : dict Z) : Z :=
  match dget k d with Some v => v | None => 0 end.

(** [MultiProductPrivateInfo.update_revenue] *)
Definition update_revenue (product_id delta : Z) (pi : PrivateInfo.t) : PrivateInfo.t :=
  let revs := match dget product_id (PrivateInfo.revenues pi) with
              | Some _ => PrivateInfo.revenues pi
              | None => dset product_id 0 (PrivateInfo.revenues pi)
              end in
  PrivateInfo.mk (PrivateInfo.da_positions pi) (PrivateInfo.positions pi)
    (dset product_id (dget_or0 product_id revs + delta) revs)
    (PrivateInfo.da_position pi) (PrivateInfo.market_position pi) (PrivateInfo.revenue pi).

(** [pi.revenue -= imbalance_cost] *)
Definition sub_revenue (cost : Z) (pi : PrivateInfo.t) : PrivateInfo.t :=
  PrivateInfo.mk (PrivateInfo.da_positions pi) (PrivateInfo.positions pi) (PrivateInfo.revenues pi)
    (PrivateInfo.da_position pi) (PrivateInfo.market_position pi) (PrivateInfo.revenue pi - cost).

Definition set_private_info (a : Agent.t) (pi : PrivateInfo.t) : Agent.t :=
  Agent.mk (Agent.id a) (Agent.is_multi_product a) pi.

(** [settle_agent_product]: the result and the agent after the call. *)
Definition settle_agent_product (a : Agent.t) (p : Product.t) (lambda_up lambda_down : Z)
           (apply_to_revenue : bool) : SettlementResult.t * Agent.t :=
  let product_id := Product.product_id p in
  let pi := Agent.private_info a in
  let '(da_position, market_position, revenue_before) :=
    if Agent.is_multi_product a then
      (dget_or0 product_id (PrivateInfo.da_positions pi),
       dget_or0 product_id (PrivateInfo.positions pi),
       dget_or0 product_id (PrivateInfo.revenues pi))
    else (PrivateInfo.da_position pi, PrivateInfo.market_position pi, PrivateInfo.revenue pi) in
  let imbalance := da_position - market_position in
  let imbalance_cost := calculate_imbalance_cost imbalance lambda_up lambda_down in
  let '(revenue_after, pi1) :=
    if apply_to_revenue && (0 <? imbalance_cost) then
      if Agent.is_multi_product a then
        let pi1 := update_revenue product_id (- imbalance_cost) pi in
        (dget_or0 product_id (PrivateInfo.revenues pi1), pi1)
      else
        let pi1 := sub_revenue imbalance_cost pi in
        (PrivateInfo.revenue pi1, pi1)
    else (revenue_before, pi) in
  (SettlementResult.mk (Agent.id a) product_id da_position market_position imbalance
     imbalance_cost lambda_up lambda_down revenue_before revenue_after,
   set_private_info a pi1).

(** The [for agent in agents] loop of [settle_products]: single-product
    agents are skipped, the others are settled (and changed) in turn. *)
Fixpoint settle_agents (p : Product.t) (lambda_up lambda_down : Z) (apply_to_revenue : bool)
         (agents : list Agent.t) : list SettlementResult.t * list Agent.t :=
  match agents with
  | [] => ([], [])
  | a :: rest =>
      if negb (Agent.is_multi_product a) then
        let '(rs, rest1) := settle_agents p lambda_up lambda_down apply_to_revenue rest in
        (rs, a :: rest1)
      else
        let '(r, a1) := settle_agent_product a p lambda_up lambda_down apply_to_revenue in
        let '(rs, rest1) := settle_agents p lambda_up lambda_down apply_to_revenue rest in
        (r :: rs, a1 :: rest1)
  end.

(** [settle_products]: [draws k] are the draws of [get_imbalance_prices]
    for the [k]-th product (see [get_imbalance_prices]); the agents are
    shared by all products. *)
Fixpoint settle_products_from (k : nat) (products_to_settle : list Product.t)
         (agents : list Agent.t) (base_offset volatility : Z) (draws : nat -> option (Z * Z))
         (apply_to_revenue : bool) (all_results : dict (list SettlementResult.t))
  : dict (list SettlementResult.t) * list Agent.t :=
  match products_to_settle with
  | [] => (all_results, agents)
  | p :: rest =>
      let '(lambda_up, lambda_down) := get_imbalance_prices p base_offset volatility (draws k) in
      let '(product_results, agents1) :=
        settle_agents p lambda_up lambda_down apply_to_revenue agents in
      settle_products_from (S k) rest agents1 base_offset volatility draws apply_to_revenue
        (dset (Product.product_id p) product_results all_results)
  end.

Definition settle_products (products_to_settle : list Product.t) (agents : list Agent.t)
           (base_offset volatility : Z) (draws : nat -> option (Z * Z)) (apply_to_revenue : bool)
  : dict (list SettlementResult.t) * list Agent.t :=
  settle_products_from 0 products_to_settle agents base_offset volatility draws
    apply_to_revenue [].

(** The logs of one agent: a dict from string keys to lists of numbers. *)
Definition AgentLog := list (string * list Z).

Fixpoint sget (k : string) (d : AgentLog) : option (list Z) :=
  match d with
  | [] => None
  | (k', v) :: d' => if String.eqb k k' then Some v else sget k d'
  end.

Fixpoint sset (k : string) (v : list Z) (d : AgentLog) : AgentLog :=
  match d with
  | [] => [(k, v)]
  | (k', v') :: d' => if String.eqb k k' then (k', v) :: d' else (k', v') :: sset k v d'
  end.

(** [log[k].append(x)]; [None] when [k] is missing (a [KeyError]). *)
Definition sappend (k : string) (x : Z) (d : AgentLog) : option AgentLog :=
  match sget k d with
  | Some l => Some (sset k (l ++ [x]) d)
  | None => None
  end.

(** The body of [log_settlement_results] for one result; [None] when a
    [KeyError] is raised. *)
Definition log_result (product_id : Z) (r : SettlementResult.t) (agent_logs : dict AgentLog)
  : option (dict AgentLog) :=
  let agent_id := SettlementResult.agent_id r in
  match dget agent_id agent_logs with
  | None => Some agent_logs
  | Some lg =>
      let lg0 :=
        match sget "settlement_products" lg with
        | Some _ => lg
        | None =>
            sset "settlement_lambda_down" []
              (sset "settlement_lambda_up" []
                 (sset "settlement_costs" []
                    (sset "settlement_imbalances" []
                       (sset "settlement_products" [] lg))))
        end in
      match sappend "settlement_products" product_id lg0 with
      | None => None
      | Some lg1 =>
      match sappend "settlement_imbalances" (SettlementResult.imbalance r) lg1 with
      | None => None
      | Some lg2 =>
      match sappend "settlement_costs" (SettlementResult.imbalance_cost r) lg2 with
      | None => None
      | Some lg3 =>
      match sappend "settlement_lambda_up" (SettlementResult.lambda_up r) lg3 with
      | None => None
      | Some lg4 =>
      match sappend "settlement_lambda_down" (SettlementResult.lambda_down r) lg4 with
      | None => None
      | Some lg5 => Some (dset agent_id lg5 agent_logs)
      end end end end end
  end.

Fixpoint log_results (product_id : Z) (results : list SettlementResult.t)
         (agent_logs : dict AgentLog) : option (dict AgentLog) :=
  match results with
  | [] => Some agent_logs
  | r :: rest =>
      match log_result product_id r agent_logs with
      | None => None
      | Some l1 => log_results product_id rest l1
      end
  end.

(** [log_settlement_results] *)
Fixpoint log_settlement_results (settlement_results : dict (list SettlementResult.t))
         (agent_logs : dict AgentLog) : option (dict AgentLog) :=
  match settlement_results with
  | [] => Some agent_logs
  | (pid, results) :: rest =>
      match log_results pid results agent_logs with
      | None => None
      | Some l1 => log_settlement_results rest l1
      end
  end.

(** [get_total_settlement_cost] *)
Definition get_total_settlement_cost (agent_logs : dict AgentLog) (agent_id : Z) : Z :=
  match dget agent_id agent_logs with
  | None => 0
  | Some lg =>
      match sget "settlement_costs" lg with
      | None => 0
      | Some costs => fold_right Z.add 0 costs
      end
  end.

(** The side with the orders of [agent_id] dropped level by level, a level
    left empty being dropped as well. *)
Fixpoint drop_agent (agent_id : Z) (s : BookSide) : BookSide :=
  match s with
  | [] => []
  | (k, l) :: s' =>
      match filter (fun o => negb (Z.eqb (Order.agent_id o) agent_id)) l with
      | [] => drop_agent agent_id s'
      | l' => (k, l') :: drop_agent agent_id s'
      end
  end.

(** ** Specification-side definitions of the further operations *)

Definition settlement_keys : list string :=
  ["settlement_products"%string; "settlement_imbalances"%string; "settlement_costs"%string;
   "settlement_lambda_up"%string; "settlement_lambda_down"%string].

(** The log of an agent is either fresh (no products, no costs) or has all
    the settlement keys. *)
Definition log_ready (lg : AgentLog) : Prop :=
  (sget "settlement_products" lg = None /\ sget "settlement_costs" lg = None) \/
  (forall k, In k settlement_keys -> sget k lg <> None).

Definition cost_total (lg : AgentLog) : Z :=
  match sget "settlement_costs" lg with None => 0 | Some c => fold_right Z.add 0 c end.

Definition agent_costs (aid : Z) (rs : list SettlementResult.t) : Z :=
  fold_right Z.add 0 (map SettlementResult.imbalance_cost
                        (filter (fun r => SettlementResult.agent_id r =? aid) rs)).

(** The books and the product table agree: same keys (distinct), and the
    book of each product holds that product. *)
Definition mo_consistent (mo : MO) : Prop :=
  map fst (order_books mo) = map fst (products mo) /\
  NoDup (map fst (products mo)) /\
  forall pid p, dget pid (products mo) = Some p ->
    exists ob, dget pid (order_books mo) = Some ob /\ product ob = p.

(** ** Concrete inputs *)

(** An open product (gate window [0, 40)) with an empty book. *)
Definition scen_product : Product.t := Product.mk 0 100 160 0 40 60 50 OPEN.

Definition scen_mo : MO := from_products [scen_product].

Definition scen_order (agent : Z) (sd : Side) (volume price : Z) : Order.t :=
  Order.mk 0 agent sd 0 volume price 0 (Some GTC).

(** Resting bids 5@50 of agent 1 (t = 0) and 7@50 of agent 2 (t = 1). *)
Definition scen_B_book : MO :=
  snd (process_order (scen_order 2 BUY 7 50) 1 true
         (snd (process_order (scen_order 1 BUY 5 50) 0 true scen_mo))).

Definition scen_B_ob : Book :=
  match dget 0 (order_books scen_B_book) with
  | Some ob => ob
  | None => mkBook scen_product [] []
  end.

(** The incoming sell 10@49 of agent 3 at t = 2. *)
Definition scen_B_sell : Order.t := scen_order 3 SELL 10 49.

Definition scen_B : result (list Trade.t) * MO := process_order scen_B_sell 2 true scen_B_book.

(** A product created Pending, gate window [0, 2), delivery [5, 10). *)
Definition scen_run_product : Product.t := Product.mk 0 5 10 0 2 5 50 PENDING.

(** Closed products with day-ahead prices 10 and -20. *)
Definition scen_settle_product (da : Z) : Product.t := Product.mk 0 100 160 0 40 60 da CLOSED.

Definition scen_ask : Order.t := scen_order 3 SELL 4 60.

Definition scen_ask_book : Book := snd (add_order scen_ask false None scen_B_ob).

Definition scen_pending_mo : MO := from_products [scen_run_product].

Definition scen_agent : Agent.t := Agent.mk 1 true (PrivateInfo.mk [(0, 5)] [(0, 3)] [] 0 0 0).

Definition scen_logs : dict AgentLog := [(1, [])].

Definition scen_results : dict (list SettlementResult.t) :=
  fst (settle_products [scen_settle_product 10] [scen_agent] 5 0 (fun _ => None) true).

(** ** Dict lemmas *)

Section DictLemmas.
Context {V : Type}.

Lemma dget_In (k : Z) (d : dict V) (v : V) : dget k d = Some v -> In (k, v) d.
Proof.
  induction d as [|[k' v'] d IH]; simpl; [discriminate|].
  destruct (Z.eqb_spec k k') as [->|]; [intros [= ->]; now left|].
  intros H; right; auto.
Qed.

Lemma dget_notin (k : Z) (d : dict V) : ~ In k (map fst d) -> dget k d = None.
Proof.
  induction d as [|[k' v'] d IH]; simpl; auto.
  intros Hn. destruct (Z.eqb_spec k k'); [subst; tauto|]. apply IH; tauto.
Qed.

Lemma dget_some_in (k : Z) (d : dict V) (v : V) : dget k d = Some v -> In k (map fst d).
Proof. intros H. apply dget_In in H. apply (in_map fst) in H. exact H. Qed.

Lemma In_dget (k : Z) (d : dict V) (v : V) :
  NoDup (map fst d) -> In (k, v) d -> dget k d = Some v.
Proof.
  induction d as [|[k' v'] d IH]; simpl; [tauto|].
  intros Hnd [E|Hin]; inversion Hnd; subst.
  - inversion E; subst. now rewrite Z.eqb_refl.
  - destruct (Z.eqb_spec k k'); [subst|auto].
    exfalso. apply H1. apply (in_map fst) in Hin. exact Hin.
Qed.

Lemma in_keys_dget (k : Z) (d : dict V) : In k (map fst d) -> exists v, dget k d = Some v.
Proof.
  induction d as [|[k' v'] d IH]; simpl; [tauto|].
  destruct (Z.eqb_spec k k'); [eauto|]. intros [E|H]; [congruence|auto].
Qed.

Lemma dget_dset (k k' : Z) (v : V) (d : dict V) :
  dget k' (dset k v d) = if Z.eqb k' k then Some v else dget k' d.
Proof.
  induction d as [|[k0 v0] d IH]; simpl.
  - destruct (Z.eqb k' k); reflexivity.
  - destruct (Z.eqb_spec k k0) as [->|Hk]; simpl.
    + destruct (Z.eqb k' k0); reflexivity.
    + destruct (Z.eqb_spec k' k0) as [->|]; rewrite ?IH.
      * apply Z.eqb_neq in Hk. rewrite Z.eqb_sym, Hk. reflexivity.
      * reflexivity.
Qed.

Lemma keys_dset_in (k : Z) (v : V) (d : dict V) :
  In k (map fst d) -> map fst (dset k v d) = map fst d.
Proof.
  induction d as [|[k0 v0] d IH]; simpl; [tauto|].
  destruct (Z.eqb_spec k k0) as [->|Hk]; simpl; [reflexivity|].
  intros [E|H]; [congruence|]. now rewrite IH.
Qed.

Lemma keys_dset_notin (k : Z) (v : V) (d : dict V) :
  ~ In k (map fst d) -> map fst (dset k v d) = map fst d ++ [k].
Proof.
  induction d as [|[k0 v0] d IH]; simpl; [reflexivity|].
  intros Hn. destruct (Z.eqb_spec k k0) as [->|Hk]; [tauto|].
  simpl. rewrite IH; tauto.
Qed.

Lemma NoDup_dset (k : Z) (v : V) (d : dict V) :
  NoDup (map fst d) -> NoDup (map fst (dset k v d)).
Proof.
  intros Hnd. destruct (in_dec Z.eq_dec k (map fst d)) as [Hi|Hn].
  - now rewrite keys_dset_in.
  - rewrite keys_dset_notin by exact Hn.
    apply NoDup_app; auto using NoDup_cons, NoDup_nil.
    intros x Hx [<-|[]]. tauto.
Qed.

Lemma keys_ddel (k : Z) (d : dict V) (x : Z) :
  In x (map fst (ddel k d)) -> In x (map fst d).
Proof.
  induction d as [|[k0 v0] d IH]; simpl; [tauto|].
  destruct (Z.eqb k k0); simpl; [tauto|]. intuition.
Qed.

Lemma NoDup_ddel (k : Z) (d : dict V) :
  NoDup (map fst d) -> NoDup (map fst (ddel k d)).
Proof.
  induction d as [|[k0 v0] d IH]; simpl; [auto|].
  intros Hnd; inversion Hnd; subst.
  destruct (Z.eqb k k0); simpl; [assumption|].
  constructor; auto. intros Hin. apply H1. eapply keys_ddel; eauto.
Qed.

Lemma dget_ddel (k k' : Z) (d : dict V) :
  NoDup (map fst d) -> dget k' (ddel k d) = if Z.eqb k' k then None else dget k' d.
Proof.
  induction d as [|[k0 v0] d IH]; simpl; intros Hnd.
  - destruct (Z.eqb k' k); reflexivity.
  - inversion Hnd; subst.
    destruct (Z.eqb_spec k k0) as [->|Hk].
    + destruct (Z.eqb_spec k' k0) as [->|]; [|reflexivity].
      now apply dget_notin.
    + simpl. destruct (Z.eqb_spec k' k0) as [->|]; rewrite ?IH by assumption.
      * apply Z.eqb_neq in Hk. rewrite Z.eqb_sym, Hk. reflexivity.
      * reflexivity.
Qed.

Lemma length_ddel_in (k : Z) (d : dict V) :
  In k (map fst d) -> S (List.length (ddel k d)) = List.length d.
Proof.
  induction d as [|[k0 v0] d IH]; simpl; [tauto|].
  destruct (Z.eqb_spec k k0); simpl; [reflexivity|].
  intros [E|H]; [congruence|]. now rewrite IH.
Qed.

Lemma length_dset_in (k : Z) (v : V) (d : dict V) :
  In k (map fst d) -> List.length (dset k v d) = List.length d.
Proof.
  intros H. rewrite <- (length_map fst (dset k v d)), <- (length_map fst d).
  now rewrite keys_dset_in.
Qed.

Lemma ddel_dset (k : Z) (v : V) (d : dict V) : ddel k (dset k v d) = ddel k d.
Proof.
  induction d as [|[k0 v0] d IH]; simpl.
  - now rewrite Z.eqb_refl.
  - destruct (Z.eqb_spec k k0) as [->|Hk]; simpl.
    + now rewrite Z.eqb_refl.
    + apply Z.eqb_neq in Hk. rewrite Hk. now rewrite IH.
Qed.

Lemma dset_dset (k : Z) (v w : V) (d : dict V) : dset k w (dset k v d) = dset k w d.
Proof.
  induction d as [|[k0 v0] d IH]; simpl.
  - now rewrite Z.eqb_refl.
  - destruct (Z.eqb_spec k k0) as [->|Hk]; simpl.
    + now rewrite Z.eqb_refl.
    + apply Z.eqb_neq in Hk. rewrite Hk. now rewrite IH.
Qed.

End DictLemmas.

(** ** Best price and priority list *)

Definition best_key (mx : bool) (s : BookSide) : option Z :=
  match map fst s with
  | [] => None
  | k0 :: ks => Some (fold_left (sel mx) ks k0)
  end.

Lemma best_entry_key (mx : bool) (s : BookSide) :
  best_entry (sel mx) s =
  match best_key mx s with
  | None => None
  | Some k => match dget k s with Some (o :: _) => Some (k, o) | _ => None end
  end.
Proof. destruct s as [|[k0 l0] s]; reflexivity. Qed.

Lemma sel_choice (mx : bool) (a b : Z) : sel mx a b = a \/ sel mx a b = b.
Proof. destruct mx; simpl; lia. Qed.

Lemma sel_better (mx : bool) (a b : Z) : better mx (sel mx a b) a /\ better mx (sel mx a b) b.
Proof. destruct mx; simpl; lia. Qed.

Lemma better_trans (mx : bool) (a b c : Z) : better mx a b -> better mx b c -> better mx a c.
Proof. destruct mx; simpl; lia. Qed.

Lemma better_refl (mx : bool) (a : Z) : better mx a a.
Proof. destruct mx; simpl; lia. Qed.

Lemma fold_sel_spec (mx : bool) (l : list Z) (a : Z) :
  (fold_left (sel mx) l a = a \/ In (fold_left (sel mx) l a) l) /\
  (forall x, In x (a :: l) -> better mx (fold_left (sel mx) l a) x).
Proof.
  revert a; induction l as [|y l IH]; intros a; simpl.
  - split; [now left|]. intros x [<-|[]]. apply better_refl.
  - destruct (IH (sel mx a y)) as [Hm Hb].
    assert (HR : better mx (fold_left (sel mx) l (sel mx a y)) (sel mx a y))
      by (apply Hb; now left).
    destruct (sel_better mx a y) as [Ha Hy].
    split.
    + destruct Hm as [E|Hin]; [|right; now right].
      rewrite E. destruct (sel_choice mx a y) as [->| ->]; [now left|right; now left].
    + intros x [<-|[<-|Hx]].
      * eapply better_trans; eauto.
      * eapply better_trans; eauto.
      * apply Hb; now right.
Qed.

Lemma best_key_spec (mx : bool) (s : BookSide) (k : Z) :
  best_key mx s = Some k ->
  In k (map fst s) /\ forall k', In k' (map fst s) -> better mx k k'.
Proof.
  unfold best_key. destruct (map fst s) as [|k0 ks] eqn:E; [discriminate|].
  intros [= <-]. destruct (fold_sel_spec mx ks k0) as [[H|H] Hb]; split; auto.
  - rewrite H. now left.
  - now right.
Qed.

Lemma best_key_some (mx : bool) (s : BookSide) : s <> [] -> exists k, best_key mx s = Some k.
Proof. destruct s as [|[k0 l0] s]; [tauto|]. intros _. eexists; reflexivity. Qed.

Lemma best_key_keys (mx : bool) (s1 s2 : BookSide) :
  map fst s1 = map fst s2 -> best_key mx s1 = best_key mx s2.
Proof. unfold best_key. now intros ->. Qed.

Section WfSide.
Variable mx : bool.
Variable sd : Side.

Lemma wf_level (s : BookSide) (k : Z) (lvl : list Order.t) (o : Order.t) :
  wf_side sd s -> dget k s = Some lvl -> In o lvl ->
  Order.price o = k /\ Order.side o = sd /\ 0 < Order.volume o.
Proof.
  intros [_ Hw] Hk Hin. destruct (Hw _ _ Hk) as [_ HF].
  rewrite Forall_forall in HF. now apply HF.
Qed.

Lemma best_entry_wf (s : BookSide) :
  wf_side sd s -> s <> [] ->
  exists k r rest,
    best_entry (sel mx) s = Some (k, r) /\ dget k s = Some (r :: rest) /\
    best_key mx s = Some k /\
    In k (map fst s) /\ (forall k', In k' (map fst s) -> better mx k k').
Proof.
  intros Hwf Hne. destruct (best_key_some mx s Hne) as [k Hk].
  destruct (best_key_spec mx s k Hk) as [Hin Hb].
  destruct (in_keys_dget k s Hin) as [lvl Hl].
  destruct Hwf as [Hnd Hw]. destruct (Hw _ _ Hl) as [Hne' _].
  destruct lvl as [|r rest]; [congruence|].
  exists k, r, rest. rewrite best_entry_key, Hk, Hl. auto.
Qed.

Lemma best_entry_nil : best_entry (sel mx) [] = None.
Proof. reflexivity. Qed.

Lemma wf_ddel (s : BookSide) (k : Z) : wf_side sd s -> wf_side sd (ddel k s).
Proof.
  intros [Hnd Hw]. split; [now apply NoDup_ddel|].
  intros k' lvl. rewrite dget_ddel by exact Hnd.
  destruct (Z.eqb k' k); [discriminate|]. apply Hw.
Qed.

Lemma wf_dset (s : BookSide) (k : Z) (lvl : list Order.t) :
  wf_side sd s -> lvl <> [] ->
  Forall (fun o => Order.price o = k /\ Order.side o = sd /\ 0 < Order.volume o) lvl ->
  wf_side sd (dset k lvl s).
Proof.
  intros [Hnd Hw] Hne HF. split; [now apply NoDup_dset|].
  intros k' l'. rewrite dget_dset.
  destruct (Z.eqb_spec k' k) as [->|]; [intros [= <-]; auto|]. apply Hw.
Qed.

Lemma prio_unfold (s : BookSide) (k : Z) (r : Order.t) (lvl : list Order.t) :
  best_entry (sel mx) s = Some (k, r) -> dget k s = Some lvl ->
  prio mx s = lvl ++ prio mx (ddel k s).
Proof.
  intros Hb Hl. unfold prio.
  rewrite <- (length_ddel_in k s) by (eapply dget_some_in; eauto).
  simpl. rewrite Hb, Hl. reflexivity.
Qed.

Lemma prio_empty (s : BookSide) : s = [] -> prio mx s = [].
Proof. intros ->. reflexivity. Qed.

Lemma best_entry_dset (s : BookSide) (k : Z) (r r' : Order.t) (rest' : list Order.t) :
  best_entry (sel mx) s = Some (k, r) ->
  best_entry (sel mx) (dset k (r' :: rest') s) = Some (k, r').
Proof.
  rewrite !best_entry_key.
  destruct (best_key mx s) as [k0|] eqn:Hk; [|discriminate].
  destruct (dget k0 s) as [[|o l]|] eqn:Hl; try discriminate.
  intros [= <- _].
  assert (Hin : In k0 (map fst s)) by (eapply dget_some_in; eauto).
  rewrite (best_key_keys mx _ s) by (now apply keys_dset_in).
  rewrite Hk, dget_dset, Z.eqb_refl. reflexivity.
Qed.

Lemma prio_dset_best (s : BookSide) (k : Z) (r r' : Order.t) (rest' : list Order.t) :
  best_entry (sel mx) s = Some (k, r) ->
  prio mx (dset k (r' :: rest') s) = (r' :: rest') ++ prio mx (ddel k s).
Proof.
  intros Hb.
  assert (Hin : In k (map fst s)).
  { rewrite best_entry_key in Hb.
    destruct (best_key mx s) as [k0|]; [|discriminate].
    destruct (dget k0 s) as [[|o l]|] eqn:Hl; try discriminate.
    inversion Hb; subst. eapply dget_some_in; eauto. }
  rewrite (prio_unfold _ k r' (r' :: rest')).
  - now rewrite ddel_dset.
  - eapply best_entry_dset; eauto.
  - now rewrite dget_dset, Z.eqb_refl.
Qed.

End WfSide.

Lemma flat_cons (k : Z) (l : list Order.t) (s : BookSide) : flat ((k, l) :: s) = l ++ flat s.
Proof. reflexivity. Qed.

Lemma in_flat (o : Order.t) (s : BookSide) :
  In o (flat s) <-> exists k l, In (k, l) s /\ In o l.
Proof.
  unfold flat. rewrite in_concat. split.
  - intros [l [Hl Ho]]. apply in_map_iff in Hl as [[k l'] [E Hin]]. simpl in E; subst.
    eauto.
  - intros [k [l [Hin Ho]]]. exists l. split; auto.
    apply in_map_iff. exists (k, l). auto.
Qed.

Lemma flat_dget_perm (s : BookSide) (k : Z) (lvl : list Order.t) :
  NoDup (map fst s) -> dget k s = Some lvl ->
  Permutation (flat s) (lvl ++ flat (ddel k s)).
Proof.
  induction s as [|[k0 l0] s IH]; simpl; [discriminate|].
  intros Hnd. inversion Hnd; subst.
  destruct (Z.eqb_spec k k0) as [->|Hk].
  - intros [= ->]. apply Permutation_refl.
  - intros Hl. rewrite !flat_cons.
    rewrite (IH H2 Hl). apply Permutation_app_swap_app.
Qed.

Lemma side_count_flat (s : BookSide) : side_count s = List.length (flat s).
Proof.
  induction s as [|[k l] s IH]; simpl; [reflexivity|].
  rewrite flat_cons, length_app, IH. reflexivity.
Qed.

Lemma StronglySorted_app {A} (R : A -> A -> Prop) (l1 l2 : list A) :
  StronglySorted R l1 -> StronglySorted R l2 ->
  (forall x y, In x l1 -> In y l2 -> R x y) ->
  StronglySorted R (l1 ++ l2).
Proof.
  induction l1 as [|a l1 IH]; simpl; auto.
  intros H1 H2 Hx. inversion H1; subst. constructor.
  - apply IH; auto.
  - apply Forall_app. split; auto.
    apply Forall_forall. intros y Hy. apply Hx; auto.
Qed.

Section PrioLemmas.
Variable mx : bool.
Variable sd : Side.

Lemma prio_fuel_S (n : nat) (s : BookSide) :
  prio_fuel mx (S n) s =
  match best_entry (sel mx) s with
  | None => []
  | Some (k, _) =>
      match dget k s with
      | Some lvl => lvl ++ prio_fuel mx n (ddel k s)
      | None => []
      end
  end.
Proof. reflexivity. Qed.

Lemma wf_flat (s : BookSide) (o : Order.t) :
  wf_side sd s -> In o (flat s) ->
  exists k, In k (map fst s) /\ Order.price o = k /\ Order.side o = sd /\ 0 < Order.volume o.
Proof.
  intros Hwf Ho. apply in_flat in Ho as [k [l [Hin Ho]]].
  pose proof (In_dget k s l (proj1 Hwf) Hin) as Hl.
  exists k. split; [apply (in_map fst) in Hin; exact Hin|].
  eapply wf_level; eauto.
Qed.

(** Induction over the priority list: the levels are taken in order of
    the best key. *)
Lemma prio_ind (P : BookSide -> list Order.t -> Prop) :
  P [] [] ->
  (forall s k r rest,
      wf_side sd s -> s <> [] ->
      best_entry (sel mx) s = Some (k, r) -> dget k s = Some (r :: rest) ->
      In k (map fst s) -> (forall k', In k' (map fst s) -> better mx k k') ->
      P (ddel k s) (prio mx (ddel k s)) ->
      P s ((r :: rest) ++ prio mx (ddel k s))) ->
  forall s, wf_side sd s -> P s (prio mx s).
Proof.
  intros H0 HS s. unfold prio. remember (List.length s) as n eqn:En.
  revert s En. induction n as [|n IH]; intros s En Hwf.
  - destruct s; [exact H0|discriminate].
  - assert (Hne : s <> []) by (intros ->; discriminate).
    destruct (best_entry_wf mx sd s Hwf Hne) as (k & r & rest & Hb & Hl & _ & Hin & Hbest).
    rewrite prio_fuel_S, Hb, Hl.
    assert (Hn : List.length (ddel k s) = n).
    { apply length_ddel_in in Hin. lia. }
    specialize (IH (ddel k s) (eq_sym Hn) (wf_ddel sd s k Hwf)).
    rewrite <- Hn in IH |- *. fold (prio mx (ddel k s)) in *.
    apply HS; auto.
Qed.

Lemma prio_perm (s : BookSide) : wf_side sd s -> Permutation (prio mx s) (flat s).
Proof.
  revert s. apply (prio_ind (fun s L => Permutation L (flat s))).
  - apply Permutation_refl.
  - intros s k r rest Hwf _ _ Hl _ _ IH.
    rewrite (flat_dget_perm s k (r :: rest) (proj1 Hwf) Hl).
    now apply Permutation_app_head.
Qed.

Lemma prio_length (s : BookSide) : wf_side sd s -> List.length (prio mx s) = side_count s.
Proof.
  intros Hwf. rewrite side_count_flat. apply Permutation_length. now apply prio_perm.
Qed.

Lemma prio_nil_iff (s : BookSide) : wf_side sd s -> (prio mx s = [] <-> s = []).
Proof.
  revert s. apply (prio_ind (fun s L => L = [] <-> s = [])).
  - tauto.
  - intros s k r rest _ Hne _ _ _ _ _. split; [discriminate|tauto].
Qed.


Lemma prio_sorted (s : BookSide) :
  wf_side sd s ->
  StronglySorted (fun a c => better mx (Order.price a) (Order.price c)) (prio mx s).
Proof.
  intros Hwf0. pattern s, (prio mx s). revert s Hwf0. apply prio_ind.
  - constructor.
  - intros s k r rest Hwf _ _ Hl Hin Hbest IH.
    assert (Hlv : forall o, In o (r :: rest) -> Order.price o = k)
      by (intros o Ho; eapply wf_level; eauto).
    apply StronglySorted_app; auto.
    + clear IH. revert Hlv. generalize (r :: rest) as l.
      induction l as [|a l IHl]; intros Hlv; constructor.
      * apply IHl. intros o Ho. apply Hlv. now right.
      * apply Forall_forall. intros y Hy.
        rewrite (Hlv a (or_introl eq_refl)), (Hlv y (or_intror Hy)). apply better_refl.
    + intros x y Hx Hy. rewrite (Hlv x Hx).
      apply (Permutation_in _ (prio_perm _ (wf_ddel sd s k Hwf))) in Hy.
      destruct (wf_flat _ y (wf_ddel sd s k Hwf) Hy) as [k' [Hk' [-> _]]].
      apply Hbest. eapply keys_ddel; eauto.
Qed.

Lemma prio_levels (s : BookSide) (k : Z) (lvl : list Order.t) :
  wf_side sd s -> dget k s = Some lvl -> exists l1 l2, prio mx s = l1 ++ lvl ++ l2.
Proof.
  intros Hwf0. revert k lvl. pattern s, (prio mx s). revert s Hwf0. apply prio_ind.
  - discriminate.
  - intros s kb r rest Hwf _ _ Hl _ _ IH k lvl Hk.
    destruct (Z.eqb_spec k kb) as [->|Hne].
    + rewrite Hl in Hk. inversion Hk; subst. exists [], (prio mx (ddel kb s)). reflexivity.
    + assert (Hk' : dget k (ddel kb s) = Some lvl).
      { rewrite dget_ddel by exact (proj1 Hwf). apply Z.eqb_neq in Hne. now rewrite Hne. }
      destruct (IH k lvl Hk') as [l1 [l2 E]]. rewrite E.
      exists ((r :: rest) ++ l1), l2. now rewrite <- app_assoc.
Qed.

End PrioLemmas.

(** ** One matching step on a side *)

Lemma set_level_head_eq (k : Z) (r r1 : Order.t) (rest : list Order.t) (s : BookSide) :
  dget k s = Some (r :: rest) -> set_level_head k r1 s = dset k (r1 :: rest) s.
Proof. intros H. unfold set_level_head. now rewrite H. Qed.

Lemma remove_head_side (k : Z) (r1 : Order.t) (rest : list Order.t) (s : BookSide) :
  Order.price r1 = k ->
  remove_from_side r1 (dset k (r1 :: rest) s) =
  match rest with [] => ddel k s | _ :: _ => dset k rest s end.
Proof.
  intros Hp. unfold remove_from_side. rewrite Hp, dget_dset, Z.eqb_refl. simpl.
  destruct (order_eq_dec r1 r1) as [_|]; [|congruence].
  destruct rest; [apply ddel_dset|apply dset_dset].
Qed.

Lemma match_loop_S sl bl mk gs ps f tm inc b :
  match_loop sl bl mk gs ps (S f) tm inc b =
  if 0 <? Order.volume inc then
    match best_entry sl (gs b) with
    | None => ([], inc, b)
    | Some (k, r) =>
        if bl (Order.price inc) (Order.price r) then ([], inc, b)
        else
          let traded_volume := Z.min (Order.volume inc) (Order.volume r) in
          let tr := mk (Product.product_id (product b)) inc r (Order.price r) traded_volume tm in
          let inc1 := Order.set_volume inc (Order.volume inc - traded_volume) in
          let r1 := Order.set_volume r (Order.volume r - traded_volume) in
          let b1 := ps b (set_level_head k r1 (gs b)) in
          let b2 := if Order.volume r1 <=? 0 then remove_order r1 b1 else b1 in
          let '(ts, inc2, b3) := match_loop sl bl mk gs ps f tm inc1 b2 in
          (tr :: ts, inc2, b3)
    end
  else ([], inc, b).
Proof. reflexivity. Qed.

Lemma match_loop_stop sl bl mk gs ps f tm inc b :
  Order.volume inc <= 0 -> match_loop sl bl mk gs ps f tm inc b = ([], inc, b).
Proof.
  intros Hv. destruct f; [reflexivity|]. rewrite match_loop_S.
  destruct (Z.ltb_spec 0 (Order.volume inc)); [lia|reflexivity].
Qed.

(** ** Refinement: the book loop matches along the priority list *)

Section Refine.
Variable mx : bool.
Variable sd : Side.
Variable blocks : Z -> Z -> bool.
Variable mk_trade : Z -> Order.t -> Order.t -> Z -> Z -> Z -> Trade.t.
Variable get_side : Book -> BookSide.
Variable put_side : Book -> BookSide -> Book.
Variable other : Book -> BookSide.
Hypothesis get_put : forall b s, get_side (put_side b s) = s.
Hypothesis other_put : forall b s, other (put_side b s) = other b.
Hypothesis product_put : forall b s, product (put_side b s) = product b.
Hypothesis get_remove :
  forall o b, Order.side o = sd -> get_side (remove_order o b) = remove_from_side o (get_side b).
Hypothesis other_remove : forall o b, Order.side o = sd -> other (remove_order o b) = other b.
Hypothesis product_remove : forall o b, product (remove_order o b) = product b.

Lemma match_loop_refines (f : nat) (tm : Z) (inc : Order.t) (b : Book) :
  wf_side sd (get_side b) ->
  (List.length (prio mx (get_side b)) < f)%nat ->
  let '(ts, inc', L') :=
    spec_match_list blocks mk_trade (Product.product_id (product b)) tm inc
                    (prio mx (get_side b)) in
  exists b',
    match_loop (sel mx) blocks mk_trade get_side put_side f tm inc b = (ts, inc', b') /\
    prio mx (get_side b') = L' /\ wf_side sd (get_side b') /\
    other b' = other b /\ product b' = product b /\
    (forall x, In x (map fst (get_side b')) -> In x (map fst (get_side b))).
Proof.
  revert tm inc b. induction f as [|f IH]; intros tm inc b Hwf Hlen; [lia|].
  destruct (prio mx (get_side b)) as [|r0 L0] eqn:HL.
  - apply (prio_nil_iff mx sd _ Hwf) in HL.
    cbn [spec_match_list]. exists b. rewrite match_loop_S, HL. cbn [best_entry].
    split; [now destruct (0 <? Order.volume inc)|].
    split; [reflexivity|]. rewrite <- HL. auto.
  - assert (Hne : get_side b <> []) by (intros E; rewrite E in HL; discriminate).
    destruct (best_entry_wf mx sd _ Hwf Hne) as (k & r & rest & Hb & Hl & _ & Hin & Hbest).
    rewrite (prio_unfold mx _ k r (r :: rest) Hb Hl) in HL.
    inversion HL; subst r0 L0. clear HL.
    assert (Hr : Order.price r = k /\ Order.side r = sd /\ 0 < Order.volume r)
      by (apply (wf_level sd (get_side b) k (r :: rest)); [exact Hwf|exact Hl|now left]).
    assert (Hrest : forall o, In o rest -> Order.price o = k /\ Order.side o = sd /\ 0 < Order.volume o)
      by (intros o Ho; apply (wf_level sd (get_side b) k (r :: rest)); [exact Hwf|exact Hl|now right]).
    rewrite match_loop_S, Hb. cbn [spec_match_list app].
    destruct (0 <? Order.volume inc) eqn:Hv.
    2:{ exists b. split; [reflexivity|].
        split; [now rewrite (prio_unfold mx _ k r (r :: rest) Hb Hl)|].
      split; [exact Hwf|]. split; [reflexivity|]. split; [reflexivity|]. auto. }
    destruct (blocks (Order.price inc) (Order.price r)) eqn:Hbl.
    { exists b. split; [reflexivity|].
      split; [now rewrite (prio_unfold mx _ k r (r :: rest) Hb Hl)|].
      split; [exact Hwf|]. split; [reflexivity|]. split; [reflexivity|]. auto. }
    cbv zeta. cbn [Order.volume Order.set_volume Order.price].
    set (v := Z.min (Order.volume inc) (Order.volume r)).
    set (inc1 := Order.set_volume inc (Order.volume inc - v)).
    set (r1 := Order.set_volume r (Order.volume r - v)).
    assert (Hr1p : Order.price r1 = k) by (unfold r1; simpl; tauto).
    assert (Hr1s : Order.side r1 = sd) by (unfold r1; simpl; tauto).
    rewrite (set_level_head_eq k r r1 rest _ Hl).
    destruct (Order.volume r - v <=? 0) eqn:Hrv.
    + (* the resting order is filled and removed *)
      set (b2 := remove_order r1 (put_side b (dset k (r1 :: rest) (get_side b)))).
      assert (Hs2 : get_side b2 =
                    match rest with [] => ddel k (get_side b) | _ :: _ => dset k rest (get_side b) end).
      { unfold b2. rewrite get_remove by exact Hr1s. rewrite get_put.
        now apply remove_head_side. }
      assert (Hp2 : prio mx (get_side b2) = rest ++ prio mx (ddel k (get_side b))).
      { rewrite Hs2. destruct rest as [|o rest']; [reflexivity|].
        eapply prio_dset_best; eauto. }
      assert (Hw2 : wf_side sd (get_side b2)).
      { rewrite Hs2. destruct rest as [|o rest'].
        - now apply wf_ddel.
        - apply wf_dset; auto; [discriminate|]. apply Forall_forall. exact Hrest. }
      assert (Hk2 : forall x, In x (map fst (get_side b2)) -> In x (map fst (get_side b))).
      { rewrite Hs2. destruct rest as [|o rest'].
        - apply keys_ddel.
        - now rewrite keys_dset_in. }
      assert (Hpr2 : product b2 = product b).
      { unfold b2. now rewrite product_remove, product_put. }
      assert (Ho2 : other b2 = other b).
      { unfold b2. rewrite other_remove by exact Hr1s. now rewrite other_put. }
      specialize (IH tm inc1 b2 Hw2).
      rewrite Hp2, Hpr2 in IH. simpl in Hlen.
      destruct (spec_match_list blocks mk_trade (Product.product_id (product b)) tm inc1
                  (rest ++ prio mx (ddel k (get_side b)))) as [[ts i2] L2].
      destruct IH as (b' & E & HP & HW & HO & HPr & HK).
      { rewrite length_app in *. lia. }
      exists b'. rewrite E. split; [reflexivity|]. split; [exact HP|]. split; [exact HW|].
      split; [congruence|]. split; [congruence|]. intros x Hx. apply Hk2, HK, Hx.
    + (* the incoming order is used up *)
      set (b1 := put_side b (dset k (r1 :: rest) (get_side b))).
      rewrite match_loop_stop by (unfold inc1; simpl; lia).
      exists b1. unfold b1. rewrite get_put. split; [reflexivity|].
      split; [eapply prio_dset_best; eauto|].
      split.
      { apply wf_dset; auto; [discriminate|]. constructor.
        - unfold r1; simpl. apply Z.leb_gt in Hrv.
          split; [tauto|]. split; [tauto|lia].
        - apply Forall_forall. exact Hrest. }
      split; [auto|]. split; [auto|]. now rewrite keys_dset_in.
Qed.

End Refine.

(** ** Properties of matching along a priority list *)

Lemma sum_orders_perm (l1 l2 : list Order.t) : Permutation l1 l2 -> sum_orders l1 = sum_orders l2.
Proof. induction 1; simpl; lia. Qed.

Lemma sum_orders_app (l1 l2 : list Order.t) : sum_orders (l1 ++ l2) = sum_orders l1 + sum_orders l2.
Proof. induction l1; simpl; lia. Qed.

Lemma set_volume_volume (o : Order.t) (v : Z) : Order.volume (Order.set_volume o v) = v.
Proof. reflexivity. Qed.

Lemma set_volume_twice (o : Order.t) (v w : Z) :
  Order.set_volume (Order.set_volume o v) w = Order.set_volume o w.
Proof. reflexivity. Qed.

Section SpecMatchProps.
Variable blocks : Z -> Z -> bool.
Variable mk_trade : Z -> Order.t -> Order.t -> Z -> Z -> Z -> Trade.t.
Hypothesis mk_volume : forall pid i r p v tm, Trade.volume (mk_trade pid i r p v tm) = v.
Variable pid tm : Z.

Local Abbreviation run := (spec_match_list blocks mk_trade pid tm).

Lemma spec_match_incoming (inc : Order.t) (L : list Order.t) :
  let '(ts, inc', _) := run inc L in
  inc' = Order.set_volume inc (Order.volume inc') /\
  sum_volumes ts + Order.volume inc' = Order.volume inc /\
  (0 <= Order.volume inc -> 0 <= Order.volume inc').
Proof.
  revert inc. induction L as [|r L IH]; intros inc; simpl.
  - destruct inc; simpl. repeat split; auto; lia.
  - destruct (0 <? Order.volume inc) eqn:Hv.
    2:{ destruct inc; simpl. repeat split; auto; lia. }
    destruct (blocks (Order.price inc) (Order.price r)).
    { destruct inc; simpl. repeat split; auto; lia. }
    destruct (Order.volume r - Z.min (Order.volume inc) (Order.volume r) <=? 0).
    + specialize (IH (Order.set_volume inc (Order.volume inc - Z.min (Order.volume inc) (Order.volume r)))).
      destruct (run _ L) as [[ts inc'] L']. destruct IH as (E & S & P).
      rewrite E. simpl. rewrite mk_volume. split; [reflexivity|].
      rewrite E in S, P. simpl in S, P. split; [lia|].
      intros _. apply P. lia.
    + simpl. rewrite mk_volume. split; [reflexivity|]. split; [lia|]. intros _. lia.
Qed.

Lemma spec_match_resting (inc : Order.t) (L : list Order.t) :
  let '(ts, _, L') := run inc L in
  sum_orders L = sum_orders L' + sum_volumes ts /\
  exists head, L' = head ++ skipn (List.length ts) L /\
    (head = [] \/
     exists r, ts <> [] /\ nth_error L (pred (List.length ts)) = Some r /\
       0 < Order.volume r - Trade.volume (last ts dummy_trade) /\
       head = [Order.set_volume r (Order.volume r - Trade.volume (last ts dummy_trade))]).
Proof.
  revert inc. induction L as [|r L IH]; intros inc; simpl.
  - split; [reflexivity|]. exists []. auto.
  - destruct (0 <? Order.volume inc) eqn:Hv.
    2:{ split; [simpl; lia|]. exists []. auto. }
    destruct (blocks (Order.price inc) (Order.price r)).
    { split; [simpl; lia|]. exists []. auto. }
    destruct (Order.volume r - Z.min (Order.volume inc) (Order.volume r) <=? 0) eqn:Hr.
    + specialize (IH (Order.set_volume inc (Order.volume inc - Z.min (Order.volume inc) (Order.volume r)))).
      destruct (run _ L) as [[ts inc'] L']. destruct IH as (S & head & E & Hh).
      simpl. rewrite mk_volume. split; [apply Z.leb_le in Hr; lia|].
      exists head. split; [exact E|].
      destruct Hh as [Hh|(r' & Hne & Hn & Hpos & Hh)]; [now left|right].
      exists r'. destruct ts as [|t0 ts]; [congruence|].
      split; [congruence|]. split; [exact Hn|]. split; assumption.
    + simpl. rewrite mk_volume. split; [simpl; lia|].
      exists [Order.set_volume r (Order.volume r - Z.min (Order.volume inc) (Order.volume r))].
      split; [reflexivity|]. right. exists r. apply Z.leb_gt in Hr.
      split; [congruence|]. split; [reflexivity|]. simpl. split; [lia|reflexivity].
Qed.


Lemma spec_match_trades (inc : Order.t) (L : list Order.t) :
  let '(ts, _, _) := run inc L in
  (List.length ts <= List.length L)%nat /\
  forall i tr, nth_error ts i = Some tr ->
    exists r inc_i, nth_error L i = Some r /\
      Order.id inc_i = Order.id inc /\ Order.agent_id inc_i = Order.agent_id inc /\
      Order.price inc_i = Order.price inc /\
      blocks (Order.price inc) (Order.price r) = false /\
      tr = mk_trade pid inc_i r (Order.price r) (Trade.volume tr) tm /\
      Trade.volume tr = Z.min (Order.volume inc - sum_volumes (firstn i ts)) (Order.volume r) /\
      (S i < List.length ts -> Trade.volume tr = Order.volume r)%nat.
Proof.
  revert inc. induction L as [|r L IH]; intros inc; simpl.
  - split; [lia|]. intros [|i] tr H; discriminate.
  - destruct (0 <? Order.volume inc) eqn:Hv.
    2:{ split; [simpl; lia|]. intros [|i] tr H; discriminate. }
    destruct (blocks (Order.price inc) (Order.price r)) eqn:Hb.
    { split; [simpl; lia|]. intros [|i] tr H; discriminate. }
    destruct (Order.volume r - Z.min (Order.volume inc) (Order.volume r) <=? 0) eqn:Hr.
    + specialize (IH (Order.set_volume inc (Order.volume inc - Z.min (Order.volume inc) (Order.volume r)))).
      destruct (run _ L) as [[ts inc'] L'] eqn:Erun. destruct IH as (Hlen & IH).
      split; [simpl; lia|].
      intros [|i] tr H; simpl in H.
      * injection H as <-. exists r, inc. rewrite mk_volume. simpl.
        split; [reflexivity|]. do 4 (split; [reflexivity || exact Hb|]).
        split; [reflexivity|]. split; [lia|]. intros _. apply Z.leb_le in Hr. lia.
      * destruct (IH i tr H) as (r' & inc_i & Hn & Hid & Hag & Hpr & Hbl & Htr & Hvol & Hfull).
        exists r', inc_i. simpl in Hid, Hag, Hpr, Hbl. simpl.
        split; [exact Hn|]. split; [exact Hid|]. split; [exact Hag|]. split; [exact Hpr|].
        split; [exact Hbl|]. split; [exact Htr|].
        split; [rewrite Hvol, mk_volume; f_equal; simpl; lia|].
        intros Hi. apply Hfull. lia.
    + split; [simpl; lia|]. intros [|i] tr H; simpl in H.
      * injection H as <-. exists r, inc. rewrite mk_volume. simpl.
        split; [reflexivity|]. do 4 (split; [reflexivity || exact Hb|]).
        split; [reflexivity|]. split; [lia|]. lia.
      * destruct i; discriminate.
Qed.

End SpecMatchProps.
(** ** The two matching loops against the priority list of the opposite side *)

Lemma trade_volume_buy pid i r p v tm : Trade.volume (buy_trade pid i r p v tm) = v.
Proof. reflexivity. Qed.

Lemma trade_volume_sell pid i r p v tm : Trade.volume (sell_trade pid i r p v tm) = v.
Proof. reflexivity. Qed.

Lemma match_buy_refines (b : Book) (inc : Order.t) (tm : Z) :
  wf_side SELL (asks b) ->
  let '(ts, inc', L') := spec_match_list (fun pi pr => pi <? pr) buy_trade
                           (Product.product_id (product b)) tm inc (prio false (asks b)) in
  exists b', match_buy b inc tm = (ts, inc', b') /\
    prio false (asks b') = L' /\ wf_side SELL (asks b') /\ bids b' = bids b /\
    product b' = product b /\ (forall x, In x (map fst (asks b')) -> In x (map fst (asks b))).
Proof.
  intros Hwf.
  refine (match_loop_refines false SELL _ buy_trade asks set_asks bids
            (fun _ _ => eq_refl) (fun _ _ => eq_refl) (fun _ _ => eq_refl) _ _
            (fun o b0 => _) (S (book_len b)) tm inc b Hwf _).
  - intros o b0 Ho. unfold remove_order. now rewrite Ho.
  - intros o b0 Ho. unfold remove_order. now rewrite Ho.
  - unfold remove_order. now destruct (Order.side o).
  - rewrite (prio_length false SELL) by exact Hwf. unfold book_len. lia.
Qed.

Lemma match_sell_refines (b : Book) (inc : Order.t) (tm : Z) :
  wf_side BUY (bids b) ->
  let '(ts, inc', L') := spec_match_list (fun pi pr => pr <? pi) sell_trade
                           (Product.product_id (product b)) tm inc (prio true (bids b)) in
  exists b', match_sell b inc tm = (ts, inc', b') /\
    prio true (bids b') = L' /\ wf_side BUY (bids b') /\ asks b' = asks b /\
    product b' = product b /\ (forall x, In x (map fst (bids b')) -> In x (map fst (bids b))).
Proof.
  intros Hwf.
  refine (match_loop_refines true BUY _ sell_trade bids set_bids asks
            (fun _ _ => eq_refl) (fun _ _ => eq_refl) (fun _ _ => eq_refl) _ _
            (fun o b0 => _) (S (book_len b)) tm inc b Hwf _).
  - intros o b0 Ho. unfold remove_order. now rewrite Ho.
  - intros o b0 Ho. unfold remove_order. now rewrite Ho.
  - unfold remove_order. now destruct (Order.side o).
  - rewrite (prio_length true BUY) by exact Hwf. unfold book_len. lia.
Qed.

(** ** Where the orders of a side come from *)

Lemma flat_dset_sub (o : Order.t) (k : Z) (v : list Order.t) (s : BookSide) :
  In o (flat (dset k v s)) -> In o v \/ In o (flat s).
Proof.
  induction s as [|[k' v'] s IH]; simpl.
  - unfold flat; simpl. rewrite app_nil_r. auto.
  - destruct (Z.eqb k k'); rewrite !flat_cons, !in_app_iff.
    + intros [H|H]; auto.
    + intros [H|H]; auto. destruct (IH H); auto.
Qed.

Lemma flat_ddel_sub (o : Order.t) (k : Z) (s : BookSide) :
  In o (flat (ddel k s)) -> In o (flat s).
Proof.
  induction s as [|[k' v'] s IH]; simpl; auto.
  destruct (Z.eqb k k'); rewrite ?flat_cons, !in_app_iff; auto.
  intros [H|H]; auto.
Qed.

Lemma list_remove_sub (o x : Order.t) (l : list Order.t) : In o (list_remove x l) -> In o l.
Proof.
  induction l as [|y l IH]; simpl; auto.
  destruct (order_eq_dec y x); simpl; intuition.
Qed.

Lemma dget_flat (o : Order.t) (k : Z) (lvl : list Order.t) (s : BookSide) :
  dget k s = Some lvl -> In o lvl -> In o (flat s).
Proof.
  intros H Ho. apply in_flat. exists k, lvl. split; auto. now apply dget_In.
Qed.

Lemma flat_set_level_head (o r1 : Order.t) (k : Z) (s : BookSide) :
  In o (flat (set_level_head k r1 s)) -> o = r1 \/ In o (flat s).
Proof.
  unfold set_level_head. destruct (dget k s) as [[|x rest]|] eqn:E; auto.
  intros H. destruct (flat_dset_sub _ _ _ _ H) as [[<-|Hr]|Hs]; auto.
  right. apply (dget_flat o k (x :: rest)); simpl; auto.
Qed.

Lemma flat_remove_from_side (o x : Order.t) (s : BookSide) :
  In o (flat (remove_from_side x s)) -> In o (flat s).
Proof.
  unfold remove_from_side. destruct (dget (Order.price x) s) as [lvl|] eqn:E; auto.
  destruct (list_remove x lvl) as [|y l'] eqn:Er.
  - apply flat_ddel_sub.
  - intros H. destruct (flat_dset_sub _ _ _ _ H) as [Hl|Hs]; auto.
    rewrite <- Er in Hl. apply list_remove_sub in Hl. eapply dget_flat; eauto.
Qed.

Lemma best_entry_flat (sl : Z -> Z -> Z) (s : BookSide) (k : Z) (r : Order.t) :
  best_entry sl s = Some (k, r) -> In r (flat s).
Proof.
  unfold best_entry. destruct s as [|[k0 v0] rest]; [discriminate|].
  destruct (dget _ _) as [[|x l]|] eqn:E; try discriminate.
  intros H. injection H as _ <-. eapply dget_flat; [exact E|now left].
Qed.

Section PayAsBid.
Variable sl : Z -> Z -> Z.
Variable blocks : Z -> Z -> bool.
Variable mk_trade : Z -> Order.t -> Order.t -> Z -> Z -> Z -> Trade.t.
Variable get_side : Book -> BookSide.
Variable put_side : Book -> BookSide -> Book.
Variable res_id res_agent : Trade.t -> Z.
Hypothesis get_put : forall b s, get_side (put_side b s) = s.
Hypothesis get_remove : forall o b,
  get_side (remove_order o b) = get_side b \/
  get_side (remove_order o b) = remove_from_side o (get_side b).
Hypothesis mk_price : forall pid i r p v tm, Trade.price (mk_trade pid i r p v tm) = p.
Hypothesis mk_res_id : forall pid i r p v tm, res_id (mk_trade pid i r p v tm) = Order.id r.
Hypothesis mk_res_agent : forall pid i r p v tm, res_agent (mk_trade pid i r p v tm) = Order.agent_id r.

Lemma match_loop_pay_as_bid (f : nat) (tm : Z) (inc : Order.t) (b b0 : Book) :
  (forall o, In o (flat (get_side b)) -> exists o0, In o0 (flat (get_side b0)) /\ same_order o o0) ->
  forall tr, In tr (fst (fst (match_loop sl blocks mk_trade get_side put_side f tm inc b))) ->
  exists r, In r (flat (get_side b0)) /\
    Trade.price tr = Order.price r /\ res_id tr = Order.id r /\ res_agent tr = Order.agent_id r.
Proof.
  revert inc b. induction f as [|f IH]; intros inc b Hsub tr; simpl; [tauto|].
  destruct (0 <? Order.volume inc); [|simpl; tauto].
  destruct (best_entry sl (get_side b)) as [[k r]|] eqn:Hbest; [|simpl; tauto].
  destruct (blocks (Order.price inc) (Order.price r)); [simpl; tauto|].
  set (r1 := Order.set_volume r (Order.volume r - Z.min (Order.volume inc) (Order.volume r))).
  set (b1 := put_side b (set_level_head k r1 (get_side b))).
  assert (H1 : forall o, In o (flat (get_side b1)) ->
                 exists o0, In o0 (flat (get_side b0)) /\ same_order o o0).
  { intros o Ho. unfold b1 in Ho. rewrite get_put in Ho.
    destruct (flat_set_level_head _ _ _ _ Ho) as [->|Hs]; auto.
    destruct (Hsub r (best_entry_flat _ _ _ _ Hbest)) as (o0 & Hin & Hs).
    exists o0. split; [exact Hin|exact Hs]. }
  assert (H2 : forall o, In o (flat (get_side (remove_order r1 b1))) ->
                 exists o0, In o0 (flat (get_side b0)) /\ same_order o o0).
  { intros o Ho. destruct (get_remove r1 b1) as [E|E]; rewrite E in Ho; auto.
    apply flat_remove_from_side in Ho. auto. }
  assert (Htr : exists r0, In r0 (flat (get_side b0)) /\
      Trade.price (mk_trade (Product.product_id (product b)) inc r (Order.price r)
                     (Z.min (Order.volume inc) (Order.volume r)) tm) = Order.price r0 /\
      res_id (mk_trade (Product.product_id (product b)) inc r (Order.price r)
                (Z.min (Order.volume inc) (Order.volume r)) tm) = Order.id r0 /\
      res_agent (mk_trade (Product.product_id (product b)) inc r (Order.price r)
                   (Z.min (Order.volume inc) (Order.volume r)) tm) = Order.agent_id r0).
  { destruct (Hsub r (best_entry_flat _ _ _ _ Hbest)) as (o0 & Hin & Hid & Hag & Hpr).
    exists o0. rewrite mk_price, mk_res_id, mk_res_agent. auto. }
  destruct (Order.volume r - Z.min (Order.volume inc) (Order.volume r) <=? 0);
    match goal with |- context [match_loop _ _ _ _ _ f tm ?i ?bb] =>
      specialize (IH i bb);
      destruct (match_loop _ _ _ _ _ f tm i bb) as [[ts inc2] b3]
    end;
    simpl; intros [<-|Hin]; auto.
Qed.
End PayAsBid.

(** [match_order] on a well-formed book is [spec_match_list] along the
    priority list of the opposite side. *)
Lemma match_order_refines (b : Book) (inc : Order.t) (tm : Z) :
  wf_book b ->
  let sd := Order.side inc in
  let '(ts, inc', L') := spec_match_list (break_of sd) (trade_of sd)
                           (Product.product_id (product b)) tm inc
                           (prio (opp_mx sd) (opposite_side b sd)) in
  exists b', match_order b inc tm = (ts, inc', b') /\
    prio (opp_mx sd) (opposite_side b' sd) = L' /\ wf_book b' /\
    own_side b' sd = own_side b sd /\ product b' = product b /\
    (forall x, In x (map fst (opposite_side b' sd)) -> In x (map fst (opposite_side b sd))).
Proof.
  intros [Hb Ha]. unfold match_order. simpl.
  destruct (Order.side inc).
  - pose proof (match_buy_refines b inc tm Ha) as R. simpl.
    destruct (spec_match_list _ _ _ _ _ _) as [[ts inc'] L'].
    destruct R as (b' & E & Hp & Hw & Ho & Hpr & Hk). exists b'.
    split; [exact E|]. split; [exact Hp|]. split; [split; [rewrite Ho; exact Hb|exact Hw]|].
    auto.
  - pose proof (match_sell_refines b inc tm Hb) as R. simpl.
    destruct (spec_match_list _ _ _ _ _ _) as [[ts inc'] L'].
    destruct R as (b' & E & Hp & Hw & Ho & Hpr & Hk). exists b'.
    split; [exact E|]. split; [exact Hp|]. split; [split; [exact Hw|rewrite Ho; exact Ha]|].
    auto.
Qed.




Lemma wf_append_level (sd : Side) (o : Order.t) (s : BookSide) :
  wf_side sd s -> Order.side o = sd -> 0 < Order.volume o -> wf_side sd (append_level o s).
Proof.
  intros Hwf Hs Hv. unfold append_level.
  destruct (dget (Order.price o) s) as [lvl|] eqn:E.
  - apply wf_dset; [exact Hwf| |].
    + destruct lvl; simpl; congruence.
    + apply Forall_app. split.
      * destruct Hwf as [_ Hw]. destruct (Hw _ _ E) as [_ HF]. exact HF.
      * constructor; auto.
  - apply wf_dset; [exact Hwf|congruence|]. constructor; auto.
Qed.

Lemma dget_append_level (o : Order.t) (s : BookSide) :
  dget (Order.price o) (append_level o s) =
  Some (match dget (Order.price o) s with Some lvl => lvl | None => [] end ++ [o]).
Proof.
  unfold append_level. destruct (dget (Order.price o) s); rewrite dget_dset, Z.eqb_refl; reflexivity.
Qed.


Lemma side_volume_prio (mx : bool) (sd : Side) (s : BookSide) :
  wf_side sd s -> side_volume s = sum_orders (prio mx s).
Proof.
  intros Hwf. unfold side_volume. apply sum_orders_perm. symmetry. now apply (prio_perm mx sd).
Qed.

Lemma spec_match_nonpos bl mk pid tm (inc : Order.t) (L : list Order.t) :
  Order.volume inc <= 0 -> fst (fst (spec_match_list bl mk pid tm inc L)) = [].
Proof.
  intros Hv. destruct L as [|r L]; simpl; [reflexivity|].
  destruct (0 <? Order.volume inc) eqn:E; [apply Z.ltb_lt in E; lia|reflexivity].
Qed.

Lemma add_order_ok (o : Order.t) (b b2 : Book) (u : unit) :
  add_order o false None b = (Ok u, b2) ->
  b2 = match Order.side o with
       | BUY => set_bids b (append_level o (bids b))
       | SELL => set_asks b (append_level o (asks b))
       end.
Proof.
  unfold add_order. destruct (negb _); [discriminate|]. simpl.
  destruct (Order.side o); intros [= _ <-]; reflexivity.
Qed.

Lemma trade_of_volume (sd : Side) pid i r p v tm : Trade.volume (trade_of sd pid i r p v tm) = v.
Proof. destruct sd; reflexivity. Qed.

Lemma trade_of_price (sd : Side) pid i r p v tm : Trade.price (trade_of sd pid i r p v tm) = p.
Proof. destruct sd; reflexivity. Qed.

(** [process_order] on an existing, well-formed book: the trades it returns
    are those of [spec_match_list] along the opposite side's priority list,
    and the book it stores has the opposite side the matching left. *)
Lemma process_order_ok (o : Order.t) (tm : Z) (vt : bool) (mo mo' : MO) (ob : Book)
      (ts : list Trade.t) :
  dget (Order.product_id o) (order_books mo) = Some ob -> wf_book ob ->
  process_order o tm vt mo = (Ok ts, mo') ->
  let sd := Order.side o in
  let o1 := Order.assign_id o (next_order_id mo) tm in
  let '(ts0, inc', L') := spec_match_list (break_of sd) (trade_of sd)
                            (Product.product_id (product ob)) tm o1
                            (prio (opp_mx sd) (opposite_side ob sd)) in
  ts = ts0 /\
  exists ob', dget (Order.product_id o) (order_books mo') = Some ob' /\
    wf_book ob' /\ prio (opp_mx sd) (opposite_side ob' sd) = L'.
Proof.
  intros G Hwf Hp. unfold process_order in Hp. rewrite G in Hp.
  destruct (if vt then validate_order_time ob tm else Ok tt); [|discriminate].
  pose proof (match_order_refines ob (Order.assign_id o (next_order_id mo) tm) tm Hwf) as R.
  simpl. simpl in R.
  destruct (spec_match_list _ _ _ _ _ _) as [[ts0 inc'] L'] eqn:S.
  destruct R as (b' & E & Hp' & Hw' & Ho & Hpr & Hk). rewrite E in Hp.
  pose proof (spec_match_incoming (break_of (Order.side o)) (trade_of (Order.side o))
                (trade_of_volume (Order.side o)) (Product.product_id (product ob)) tm
                (Order.assign_id o (next_order_id mo) tm)
                (prio (opp_mx (Order.side o)) (opposite_side ob (Order.side o)))) as I.
  simpl in I. rewrite S in I. destruct I as (Einc & _ & _).
  assert (Hs : Order.side inc' = Order.side o) by (rewrite Einc; reflexivity).
  destruct ((0 <? Order.volume inc') && is_gtc (Order.time_in_force inc')) eqn:Hc.
  - destruct (add_order inc' false None b') as [[u|e] ob2] eqn:Ha; [|discriminate].
    injection Hp as <- <-. split; [reflexivity|]. exists ob2. simpl.
    rewrite dget_dset, Z.eqb_refl. split; [reflexivity|].
    apply add_order_ok in Ha. rewrite Hs in Ha. subst ob2.
    apply andb_true_iff in Hc as [Hv _]. apply Z.ltb_lt in Hv.
    destruct Hw' as [Hwb Hwa].
    destruct (Order.side o) eqn:Hso; simpl in *.
    + split; [split; [apply wf_append_level; auto|exact Hwa]|exact Hp'].
    + split; [split; [exact Hwb|apply wf_append_level; auto]|exact Hp'].
  - injection Hp as <- <-. split; [reflexivity|]. exists b'. simpl.
    rewrite dget_dset, Z.eqb_refl. auto.
Qed.

Lemma wf_opposite (b : Book) (sd : Side) :
  wf_book b -> exists sd', wf_side sd' (opposite_side b sd).
Proof. intros [Hb Ha]. destruct sd; eexists; eassumption. Qed.

Lemma trade_of_resting (sd : Side) pid i r p v tm :
  resting_order_id sd (trade_of sd pid i r p v tm) = Order.id r /\
  resting_agent_id sd (trade_of sd pid i r p v tm) = Order.agent_id r.
Proof. destruct sd; split; reflexivity. Qed.

Lemma wf_opposite_mx (b : Book) (sd : Side) :
  wf_book b -> wf_side (match sd with BUY => SELL | SELL => BUY end) (opposite_side b sd).
Proof. intros [Hb Ha]. destruct sd; assumption. Qed.

Lemma match_order_priority (b : Book) (inc : Order.t) (tm : Z) :
  wf_book b ->
  let sd := Order.side inc in
  let mx := opp_mx sd in
  let L := prio mx (opposite_side b sd) in
  let '(ts, _, b') := match_order b inc tm in
  StronglySorted (fun a c => better mx (Order.price a) (Order.price c)) L /\
  (forall k lvl, dget k (opposite_side b sd) = Some lvl -> exists l1 l2, L = l1 ++ lvl ++ l2) /\
  (forall i tr, nth_error ts i = Some tr ->
     exists r, nth_error L i = Some r /\ Trade.price tr = Order.price r /\
       resting_order_id sd tr = Order.id r /\ resting_agent_id sd tr = Order.agent_id r /\
       ((S i < List.length ts)%nat -> Trade.volume tr = Order.volume r)) /\
  exists head, prio mx (opposite_side b' sd) = head ++ skipn (List.length ts) L /\
    (head = [] \/
     exists r, ts <> [] /\ nth_error L (pred (List.length ts)) = Some r /\
       0 < Order.volume r - Trade.volume (last ts dummy_trade) /\
       head = [Order.set_volume r (Order.volume r - Trade.volume (last ts dummy_trade))]).
Proof.
  intros Hwf. pose proof (match_order_refines b inc tm Hwf) as R. simpl in R |- *.
  set (L := prio (opp_mx (Order.side inc)) (opposite_side b (Order.side inc))) in R |- *.
  pose proof (spec_match_resting (break_of (Order.side inc)) (trade_of (Order.side inc))
                (trade_of_volume (Order.side inc)) (Product.product_id (product b)) tm inc L) as Rs.
  pose proof (spec_match_trades (break_of (Order.side inc)) (trade_of (Order.side inc))
                (trade_of_volume (Order.side inc)) (Product.product_id (product b)) tm inc L) as T.
  destruct (spec_match_list _ _ _ _ inc L) as [[ts inc'] L'].
  destruct R as (b' & E & Hp & _). rewrite E.
  pose proof (wf_opposite_mx b (Order.side inc) Hwf) as Hw.
  split; [apply (prio_sorted _ _ _ Hw)|].
  split; [intros k lvl Hk; apply (prio_levels _ _ _ k lvl Hw Hk)|].
  split.
  - intros i tr Hn. destruct T as (_ & T).
    destruct (T i tr Hn) as (r & inc_i & Hr & _ & _ & _ & _ & Htr & _ & Hfull).
    exists r. split; [exact Hr|].
    destruct (trade_of_resting (Order.side inc) (Product.product_id (product b)) inc_i r
                (Order.price r) (Trade.volume tr) tm) as [Hid Hag].
    split; [rewrite Htr; apply trade_of_price|].
    split; [rewrite Htr; exact Hid|]. split; [rewrite Htr; exact Hag|exact Hfull].
  - destruct Rs as (_ & head & HL & Hh). exists head. rewrite Hp. auto.
Qed.

(** ** [update_product_status] *)

Lemma update_book_frame (pid : Z) (f : Book -> Book) (mo mo1 : MO) (r : result unit) :
  update_book pid f mo = (r, mo1) ->
  products mo1 = products mo /\ next_order_id mo1 = next_order_id mo /\
  forall pid', pid' <> pid -> dget pid' (order_books mo1) = dget pid' (order_books mo).
Proof.
  unfold update_book. destruct (dget pid (order_books mo)) as [ob|].
  - intros [= _ <-]. simpl. split; [reflexivity|]. split; [reflexivity|].
    intros pid' Hne. rewrite dget_dset. apply Z.eqb_neq in Hne. now rewrite Hne.
  - intros [= _ <-]. auto.
Qed.

Lemma update_book_ok (pid : Z) (f : Book -> Book) (mo mo1 : MO) (u : unit) :
  update_book pid f mo = (Ok u, mo1) ->
  exists ob, dget pid (order_books mo) = Some ob /\ dget pid (order_books mo1) = Some (f ob).
Proof.
  unfold update_book. destruct (dget pid (order_books mo)) as [ob|]; [|discriminate].
  intros [= _ <-]. exists ob. simpl. rewrite dget_dset, Z.eqb_refl. auto.
Qed.

Lemma apply_status_frame (pid : Z) (p : Product.t) (s : ProductStatus) (mo mo1 : MO)
      (r : result unit) :
  apply_status pid p s mo = (r, mo1) ->
  next_order_id mo1 = next_order_id mo /\
  forall pid', pid' <> pid ->
    dget pid' (products mo1) = dget pid' (products mo) /\
    dget pid' (order_books mo1) = dget pid' (order_books mo).
Proof.
  unfold apply_status. intros H. apply update_book_frame in H as (Hp & Hn & Hb).
  simpl in Hp, Hn. split; [exact Hn|].
  intros pid' Hne. rewrite Hp, Hb by exact Hne. simpl. rewrite dget_dset.
  apply Z.eqb_neq in Hne. now rewrite Hne.
Qed.

Lemma apply_status_ok (pid : Z) (p : Product.t) (s : ProductStatus) (mo mo1 : MO) (u : unit) :
  apply_status pid p s mo = (Ok u, mo1) ->
  dget pid (products mo1) = Some (Product.update_status p s) /\
  exists ob, dget pid (order_books mo) = Some ob /\
    dget pid (order_books mo1) = Some (set_product ob (Product.update_status p s)).
Proof.
  unfold apply_status. intros H.
  pose proof (update_book_frame _ _ _ _ _ H) as (Hp & _ & _).
  apply update_book_ok in H as (ob & G & G'). simpl in Hp, G.
  rewrite Hp, dget_dset, Z.eqb_refl. split; [reflexivity|]. exists ob. auto.
Qed.

Lemma status_step_frame (tm pid : Z) (p : Product.t) (closed : list Z) (mo mo1 : MO) r :
  status_step tm pid p closed mo = (r, mo1) ->
  next_order_id mo1 = next_order_id mo /\
  forall pid', pid' <> pid ->
    dget pid' (products mo1) = dget pid' (products mo) /\
    dget pid' (order_books mo1) = dget pid' (order_books mo).
Proof.
  unfold status_step.
  destruct (Product.status p);
    [destruct (Product.gate_open p <=? tm) | destruct (Product.gate_close p <=? tm)
    | destruct (Product.delivery_end p <=? tm) | ];
    try (intros [= _ <-]; auto; fail).
  - destruct (apply_status pid p OPEN mo) as [[u|e] m] eqn:A; intros [= _ <-];
      exact (apply_status_frame _ _ _ _ _ _ A).
  - destruct (update_book pid _ mo) as [[u|e] m] eqn:U.
    + destruct (apply_status pid p CLOSED m) as [[u'|e'] m'] eqn:A; intros [= _ <-];
        apply update_book_frame in U as (Hp & Hn & Hb);
        apply apply_status_frame in A as (Hn' & Ha);
        (split; [congruence|]);
        intros pid' Hne; rewrite <- Hp, <- (Hb pid' Hne); apply Ha; exact Hne.
    + intros [= _ <-]. apply update_book_frame in U as (Hp & Hn & Hb).
      split; [exact Hn|]. intros pid' Hne. rewrite Hp. auto.
  - destruct (apply_status pid p SETTLED mo) as [[u|e] m] eqn:A; intros [= _ <-];
      exact (apply_status_frame _ _ _ _ _ _ A).
Qed.

Lemma status_step_ok (tm pid : Z) (p : Product.t) (closed c1 : list Z) (mo mo1 : MO) :
  dget pid (products mo) = Some p ->
  status_step tm pid p closed mo = (Ok c1, mo1) ->
  c1 = closed ++ (if closes_at tm p then [pid] else []) /\
  dget pid (products mo1) = Some (product_after tm p) /\
  (closes_at tm p = true ->
     exists ob, dget pid (order_books mo1) = Some ob /\ book_len ob = 0%nat /\
                product ob = product_after tm p).
Proof.
  intros G. unfold status_step, closes_at, product_after, status_next.
  destruct (Product.status p) eqn:Hs; simpl.
  - destruct (Product.gate_open p <=? tm).
    + destruct (apply_status pid p OPEN mo) as [[u|e] m] eqn:A; [|discriminate].
      intros [= <- <-]. apply apply_status_ok in A as [Hp _].
      rewrite app_nil_r. split; [reflexivity|]. split; [exact Hp|discriminate].
    + intros [= <- <-]. rewrite app_nil_r. split; [reflexivity|]. split; [exact G|discriminate].
  - destruct (Product.gate_close p <=? tm).
    + destruct (update_book pid _ mo) as [[u|e] m] eqn:U; [|discriminate].
      destruct (apply_status pid p CLOSED m) as [[u'|e'] m'] eqn:A; [|discriminate].
      intros [= <- <-]. split; [reflexivity|].
      apply update_book_ok in U as (ob & _ & G1).
      apply apply_status_ok in A as (Hp & ob' & G2 & G3).
      split; [exact Hp|]. intros _.
      rewrite G1 in G2. injection G2 as <-.
      eexists. split; [exact G3|]. split; reflexivity.
    + intros [= <- <-]. rewrite app_nil_r. split; [reflexivity|]. split; [exact G|discriminate].
  - destruct (Product.delivery_end p <=? tm).
    + destruct (apply_status pid p SETTLED mo) as [[u|e] m] eqn:A; [|discriminate].
      intros [= <- <-]. apply apply_status_ok in A as [Hp _].
      rewrite app_nil_r. split; [reflexivity|]. split; [exact Hp|discriminate].
    + intros [= <- <-]. rewrite app_nil_r. split; [reflexivity|]. split; [exact G|discriminate].
  - intros [= <- <-]. rewrite app_nil_r. split; [reflexivity|]. split; [exact G|discriminate].
Qed.

Lemma ups_loop_ok (tm : Z) (items : dict Product.t) (closed c : list Z) (mo mo' : MO) :
  NoDup (map fst items) ->
  (forall pid p, In (pid, p) items -> dget pid (products mo) = Some p) ->
  ups_loop tm items closed mo = (Ok c, mo') ->
  c = closed ++ map fst (filter (fun kv => closes_at tm (snd kv)) items) /\
  next_order_id mo' = next_order_id mo /\
  (forall pid, ~ In pid (map fst items) ->
     dget pid (products mo') = dget pid (products mo) /\
     dget pid (order_books mo') = dget pid (order_books mo)) /\
  (forall pid p, In (pid, p) items ->
     dget pid (products mo') = Some (product_after tm p) /\
     (closes_at tm p = true ->
        exists ob, dget pid (order_books mo') = Some ob /\ book_len ob = 0%nat /\
                   product ob = product_after tm p)).
Proof.
  revert closed mo. induction items as [|[pid0 p0] rest IH]; intros closed mo Hnd Hin Hl.
  - simpl in Hl. injection Hl as <- <-. rewrite app_nil_r.
    split; [reflexivity|]. split; [reflexivity|]. split; [auto|]. intros ? ? [].
  - simpl in Hl. inversion Hnd as [|? ? Hnot Hnd']; subst.
    destruct (status_step tm pid0 p0 closed mo) as [[c1|e] mo1] eqn:S; [|discriminate].
    assert (G0 : dget pid0 (products mo) = Some p0) by (apply Hin; now left).
    destruct (status_step_ok _ _ _ _ _ _ _ G0 S) as (Hc1 & Hp1 & Hb1).
    destruct (status_step_frame _ _ _ _ _ _ _ S) as (Hn1 & Hf1).
    assert (Hin1 : forall pid p, In (pid, p) rest -> dget pid (products mo1) = Some p).
    { intros pid p Hr. assert (pid <> pid0).
      { intros ->. apply Hnot. apply in_map_iff. exists (pid0, p). auto. }
      rewrite (proj1 (Hf1 pid H)). apply Hin. now right. }
    destruct (IH c1 mo1 Hnd' Hin1 Hl) as (Hc & Hn & Hfr & Hit).
    split.
    { rewrite Hc, Hc1. simpl. destruct (closes_at tm p0); simpl; now rewrite <- app_assoc. }
    split; [congruence|].
    split.
    { intros pid Hni. simpl in Hni.
      destruct (Hfr pid (fun H => Hni (or_intror H))) as [E1 E2].
      destruct (Hf1 pid (fun H => Hni (or_introl (eq_sym H)))) as [E3 E4].
      split; congruence. }
    intros pid p [E|Hr].
    + injection E as <- <-. destruct (Hfr pid0 Hnot) as [E1 E2].
      rewrite E1, E2. auto.
    + apply Hit. exact Hr.
Qed.

Lemma apply_status_keys (pid : Z) (p : Product.t) (s : ProductStatus) (mo mo1 : MO) r :
  In pid (map fst (products mo)) -> apply_status pid p s mo = (r, mo1) ->
  map fst (products mo1) = map fst (products mo).
Proof.
  intros Hin H. unfold apply_status in H. apply update_book_frame in H as (Hp & _ & _).
  rewrite Hp. simpl. now apply keys_dset_in.
Qed.

Lemma status_step_keys (tm pid : Z) (p : Product.t) (closed : list Z) (mo mo1 : MO) r :
  In pid (map fst (products mo)) -> status_step tm pid p closed mo = (r, mo1) ->
  map fst (products mo1) = map fst (products mo).
Proof.
  intros Hin. unfold status_step.
  destruct (Product.status p);
    [destruct (Product.gate_open p <=? tm) | destruct (Product.gate_close p <=? tm)
    | destruct (Product.delivery_end p <=? tm) | ];
    try (intros [= _ <-]; reflexivity).
  - destruct (apply_status pid p OPEN mo) as [[u|e] m] eqn:A; intros [= _ <-];
      exact (apply_status_keys _ _ _ _ _ _ Hin A).
  - destruct (update_book pid _ mo) as [[u|e] m] eqn:U;
      apply update_book_frame in U as (Hp & _ & _).
    + rewrite <- Hp in Hin.
      destruct (apply_status pid p CLOSED m) as [[u'|e'] m'] eqn:A; intros [= _ <-];
        rewrite <- Hp; exact (apply_status_keys _ _ _ _ _ _ Hin A).
    + intros [= _ <-]. now rewrite Hp.
  - destruct (apply_status pid p SETTLED mo) as [[u|e] m] eqn:A; intros [= _ <-];
      exact (apply_status_keys _ _ _ _ _ _ Hin A).
Qed.

Lemma ups_loop_keys (tm : Z) (items : dict Product.t) (closed : list Z) (mo mo' : MO) r :
  (forall pid, In pid (map fst items) -> In pid (map fst (products mo))) ->
  ups_loop tm items closed mo = (r, mo') ->
  map fst (products mo') = map fst (products mo).
Proof.
  revert closed mo. induction items as [|[pid0 p0] rest IH]; intros closed mo Hin Hl.
  - simpl in Hl. now injection Hl as _ <-.
  - simpl in Hl.
    destruct (status_step tm pid0 p0 closed mo) as [[c1|e] mo1] eqn:S.
    + assert (K : map fst (products mo1) = map fst (products mo))
        by (apply (status_step_keys tm pid0 p0 closed mo mo1 (Ok c1)); [apply Hin; now left|exact S]).
      rewrite <- K. apply (IH c1 mo1); [|exact Hl].
      intros pid Hp. rewrite K. apply Hin. now right.
    + injection Hl as _ <-. apply (status_step_keys tm pid0 p0 closed mo mo1 (Err e));
        [apply Hin; now left|exact S].
Qed.

Lemma ups_call (tm : Z) (mo mo' : MO) (closed : list Z) :
  NoDup (map fst (products mo)) ->
  update_product_status tm mo = (Ok closed, mo') ->
  closed = map fst (filter (fun kv => closes_at tm (snd kv)) (products mo)) /\
  map fst (products mo') = map fst (products mo) /\
  next_order_id mo' = next_order_id mo /\
  forall pid p, dget pid (products mo) = Some p ->
    dget pid (products mo') = Some (product_after tm p) /\
    (closes_at tm p = true ->
       exists ob, dget pid (order_books mo') = Some ob /\ book_len ob = 0%nat /\
                  product ob = product_after tm p).
Proof.
  intros Hnd H. unfold update_product_status in H.
  pose proof (ups_loop_keys tm (products mo) [] mo mo' (Ok closed) (fun _ h => h) H) as K.
  apply ups_loop_ok in H as (Hc & Hn & _ & Hit); [|exact Hnd|].
  - split; [exact Hc|]. split; [exact K|]. split; [exact Hn|].
    intros pid p G. apply Hit. now apply dget_In.
  - intros pid p Hin. now apply In_dget.
Qed.

Lemma closes_at_iff (tm : Z) (p : Product.t) :
  closes_at tm p = true <->
  Product.status p = OPEN /\ Product.status (product_after tm p) = CLOSED.
Proof.
  unfold closes_at, product_after, status_next.
  destruct (Product.status p) eqn:Hs; simpl.
  - split; [discriminate|intros [H _]; discriminate].
  - destruct (Product.gate_close p <=? tm); simpl.
    + split; auto.
    + split; [discriminate|intros [_ H]; congruence].
  - split; [discriminate|intros [H _]; discriminate].
  - split; [discriminate|intros [H _]; discriminate].
Qed.

Lemma rank_after (tm : Z) (p : Product.t) :
  status_rank (Product.status p) <= status_rank (Product.status (product_after tm p)) <=
  status_rank (Product.status p) + 1.
Proof.
  unfold product_after, status_next.
  destruct (Product.status p) eqn:Hs; simpl; try (destruct (_ <=? tm)); simpl; rewrite ?Hs; simpl; lia.
Qed.

Lemma in_closed_iff (tm : Z) (items : dict Product.t) (pid : Z) (p : Product.t) :
  NoDup (map fst items) -> dget pid items = Some p ->
  (In pid (map fst (filter (fun kv => closes_at tm (snd kv)) items)) <-> closes_at tm p = true).
Proof.
  intros Hnd G. rewrite in_map_iff. split.
  - intros [[k v] [Ek Hin]]. simpl in Ek. subst k. apply filter_In in Hin as [Hin Hcl].
    rewrite (In_dget pid items v Hnd Hin) in G. injection G as ->. exact Hcl.
  - intros Hcl. exists (pid, p). split; [reflexivity|].
    apply filter_In. split; [now apply dget_In|exact Hcl].
Qed.

(** ** The simulation loop *)

Lemma process_order_products (o : Order.t) (tm : Z) (vt : bool) (mo : MO) :
  products (snd (process_order o tm vt mo)) = products mo.
Proof.
  unfold process_order.
  destruct (dget (Order.product_id o) (order_books mo)) as [ob|]; [|reflexivity].
  destruct (if vt then validate_order_time ob tm else Ok tt); [|reflexivity].
  destruct (match_order ob _ tm) as [[ts o2] ob1].
  destruct (_ && _); [|reflexivity].
  destruct (add_order o2 false None ob1) as [[u|e] ob2]; reflexivity.
Qed.

Lemma agent_phase_products (decide : Z -> MO -> list Order.t) (tm : Z) (mo : MO) :
  products (agent_phase decide tm mo) = products mo.
Proof.
  unfold agent_phase. generalize (get_open_products tm mo) as ids.
  generalize (decide tm mo) as os. intros os ids. revert mo.
  induction os as [|o os IH]; intros mo; simpl; [reflexivity|].
  rewrite IH. destruct (existsb _ ids); [apply process_order_products|reflexivity].
Qed.

Lemma filter_keys_absent (f : Z * Product.t -> bool) (items : dict Product.t) (pid : Z) :
  ~ In pid (map fst items) ->
  filter (fun x => Z.eqb x pid) (map fst (filter f items)) = [].
Proof.
  induction items as [|[k v] rest IH]; simpl; [reflexivity|].
  intros Hn. destruct (f (k, v)); simpl; [|apply IH; tauto].
  destruct (Z.eqb_spec k pid); [subst; tauto|]. apply IH; tauto.
Qed.

Lemma filter_keys_one (f : Z * Product.t -> bool) (items : dict Product.t) (pid : Z) (q : Product.t) :
  NoDup (map fst items) -> dget pid items = Some q ->
  filter (fun x => Z.eqb x pid) (map fst (filter f items)) = if f (pid, q) then [pid] else [].
Proof.
  induction items as [|[k v] rest IH]; simpl; [discriminate|].
  intros Hnd G. inversion Hnd as [|? ? Hn Hnd']; subst.
  destruct (Z.eqb_spec pid k) as [->|Hne].
  - injection G as Hv. subst v.
    destruct (f (k, q)); simpl; rewrite filter_keys_absent by exact Hn;
      [now rewrite Z.eqb_refl|reflexivity].
  - rewrite <- (IH Hnd' G). destruct (f (k, v)); simpl; [|reflexivity].
    apply Z.eqb_neq in Hne. rewrite Z.eqb_sym, Hne. reflexivity.
Qed.

Lemma filter_tick_pairs (tm pid : Z) (l : list Z) :
  filter (fun e => Z.eqb (snd e) pid) (map (fun x => (tm, x)) l) =
  map (fun x => (tm, x)) (filter (fun x => Z.eqb x pid) l).
Proof.
  induction l as [|x l IH]; simpl; [reflexivity|].
  destruct (Z.eqb x pid); simpl; now rewrite IH.
Qed.

Lemma run_loop_settled (decide : Z -> MO -> list Order.t) (ticks : list Z) (mo mo' : MO)
      (log log' : list (Z * Z)) (pid : Z) (q : Product.t) :
  NoDup (map fst (products mo)) -> dget pid (products mo) = Some q ->
  run_loop decide true ticks mo log = (Ok log', mo') ->
  filter (fun e => Z.eqb (snd e) pid) log' =
  filter (fun e => Z.eqb (snd e) pid) log ++ map (fun x => (x, pid)) (close_ticks ticks q).
Proof.
  revert mo log q. induction ticks as [|tm rest IH]; intros mo log q Hnd G Hr.
  - simpl in Hr. injection Hr as <- _. simpl. now rewrite app_nil_r.
  - simpl in Hr.
    destruct (update_product_status tm mo) as [[closed|e] mo1] eqn:U; [|discriminate].
    destruct (ups_call tm mo mo1 closed Hnd U) as (Hc & Hk & _ & Hit).
    destruct (Hit pid q G) as (G1 & _).
    assert (Hnd2 : NoDup (map fst (products (agent_phase decide tm mo1))))
      by (rewrite agent_phase_products, Hk; exact Hnd).
    assert (G2 : dget pid (products (agent_phase decide tm mo1)) = Some (product_after tm q))
      by (rewrite agent_phase_products; exact G1).
    rewrite (IH _ _ _ Hnd2 G2 Hr). simpl.
    assert (Hf : filter (fun x => Z.eqb x pid) closed = if closes_at tm q then [pid] else []).
    { rewrite Hc. apply (filter_keys_one (fun kv => closes_at tm (snd kv))); assumption. }
    destruct closed as [|c cs].
    + simpl in Hf. destruct (closes_at tm q); [discriminate|]. reflexivity.
    + rewrite filter_app, filter_tick_pairs, Hf, <- app_assoc.
      destruct (closes_at tm q); reflexivity.
Qed.

Lemma product_after_fields (tm : Z) (q : Product.t) :
  Product.product_id (product_after tm q) = Product.product_id q /\
  Product.gate_open (product_after tm q) = Product.gate_open q /\
  Product.gate_close (product_after tm q) = Product.gate_close q /\
  Product.delivery_end (product_after tm q) = Product.delivery_end q.
Proof. unfold product_after. destruct (status_next tm q); repeat split. Qed.

Lemma close_ticks_done (ticks : list Z) (q : Product.t) :
  Product.status q = CLOSED \/ Product.status q = SETTLED -> close_ticks ticks q = [].
Proof.
  revert q. induction ticks as [|tm rest IH]; intros q Hs; simpl; [reflexivity|].
  assert (Hc : closes_at tm q = false)
    by (unfold closes_at; destruct Hs as [-> | ->]; reflexivity).
  rewrite Hc. simpl. apply IH.
  unfold product_after, status_next. destruct Hs as [Hs|Hs]; rewrite Hs.
  - destruct (Product.delivery_end q <=? tm); simpl; auto.
  - auto.
Qed.

Lemma close_ticks_open (t : Z) (m : nat) (q : Product.t) :
  Product.status q = OPEN ->
  close_ticks (ticks_from t m) q =
  if Z.max t (Product.gate_close q) <? t + Z.of_nat m
  then [Z.max t (Product.gate_close q)] else [].
Proof.
  revert t. induction m as [|m IH]; intros t Hs; simpl.
  - destruct (Z.ltb_spec (Z.max t (Product.gate_close q)) (t + 0)); [lia|reflexivity].
  - unfold closes_at at 1. rewrite Hs. simpl.
    destruct (Z.leb_spec (Product.gate_close q) t) as [Hle|Hgt]; simpl.
    + rewrite close_ticks_done by (unfold product_after, status_next; rewrite Hs;
        rewrite (proj2 (Z.leb_le _ _) Hle); now left).
      destruct (Z.ltb_spec (Z.max t (Product.gate_close q)) (t + Z.pos (Pos.of_succ_nat m))); [|lia].
      f_equal. f_equal. lia.
    + assert (E : product_after t q = q).
      { unfold product_after, status_next. rewrite Hs.
        destruct (Z.leb_spec (Product.gate_close q) t); [lia|reflexivity]. }
      rewrite E, IH by exact Hs.
      replace (Z.max (t + 1) (Product.gate_close q)) with (Z.max t (Product.gate_close q)) by lia.
      replace (t + 1 + Z.of_nat m) with (t + Z.pos (Pos.of_succ_nat m)) by lia.
      reflexivity.
Qed.

Lemma close_ticks_pending (t : Z) (m : nat) (q : Product.t) :
  Product.status q = PENDING ->
  close_ticks (ticks_from t m) q =
  if Z.max (Z.max t (Product.gate_open q) + 1) (Product.gate_close q) <? t + Z.of_nat m
  then [Z.max (Z.max t (Product.gate_open q) + 1) (Product.gate_close q)] else [].
Proof.
  revert t. induction m as [|m IH]; intros t Hs; simpl.
  - destruct (Z.ltb_spec (Z.max (Z.max t (Product.gate_open q) + 1) (Product.gate_close q)) (t + 0));
      [lia|reflexivity].
  - unfold closes_at at 1. rewrite Hs. simpl.
    destruct (Z.leb_spec (Product.gate_open q) t) as [Hle|Hgt].
    + assert (E : product_after t q = Product.update_status q OPEN).
      { unfold product_after, status_next. rewrite Hs.
        destruct (Z.leb_spec (Product.gate_open q) t); [reflexivity|lia]. }
      rewrite E, close_ticks_open by reflexivity. simpl.
      replace (Z.max (Z.max t (Product.gate_open q) + 1) (Product.gate_close q))
        with (Z.max (t + 1) (Product.gate_close q)) by lia.
      replace (t + 1 + Z.of_nat m) with (t + Z.pos (Pos.of_succ_nat m)) by lia.
      reflexivity.
    + assert (E : product_after t q = q).
      { unfold product_after, status_next. rewrite Hs.
        destruct (Z.leb_spec (Product.gate_open q) t); [lia|reflexivity]. }
      rewrite E, IH by exact Hs.
      replace (Z.max (t + 1) (Product.gate_open q)) with (Z.max t (Product.gate_open q)) by lia.
      replace (t + 1 + Z.of_nat m) with (t + Z.pos (Pos.of_succ_nat m)) by lia.
      reflexivity.
Qed.

Lemma from_products_keys (ps : list Product.t) :
  map fst (products (from_products ps)) = map Product.product_id ps.
Proof. unfold from_products. simpl. rewrite map_map. reflexivity. Qed.

Lemma from_products_get (ps : list Product.t) (p : Product.t) :
  NoDup (map Product.product_id ps) -> In p ps ->
  dget (Product.product_id p) (products (from_products ps)) = Some p.
Proof.
  intros Hnd Hin. apply In_dget; [now rewrite from_products_keys|].
  unfold from_products. simpl. apply in_map_iff. exists p. auto.
Qed.

(** ** Concrete books *)

Lemma nodup_b_sound (l : list Z) : nodup_b l = true -> NoDup l.
Proof.
  induction l as [|x l IH]; simpl; [constructor|].
  intros H. apply andb_true_iff in H as [H1 H2]. constructor; [|auto].
  intros Hin. apply negb_true_iff in H1.
  assert (existsb (Z.eqb x) l = true) by (apply existsb_exists; exists x; split; [exact Hin|apply Z.eqb_refl]).
  congruence.
Qed.

Lemma side_eqb_eq (a b : Side) : side_eqb a b = true -> a = b.
Proof. destruct a, b; simpl; congruence. Qed.

Lemma wf_side_b_sound (sd : Side) (s : BookSide) : wf_side_b sd s = true -> wf_side sd s.
Proof.
  unfold wf_side_b. intros H. apply andb_true_iff in H as [H1 H2].
  split; [now apply nodup_b_sound|].
  intros k lvl G. apply dget_In in G. rewrite forallb_forall in H2. specialize (H2 _ G). simpl in H2.
  apply andb_true_iff in H2 as [Hne Hall]. split; [destruct lvl; [discriminate|congruence]|].
  apply Forall_forall. intros o Ho. rewrite forallb_forall in Hall. specialize (Hall o Ho).
  apply andb_true_iff in Hall as [Hall Hv]. apply andb_true_iff in Hall as [Hp Hs].
  split; [now apply Z.eqb_eq|]. split; [now apply side_eqb_eq|now apply Z.ltb_lt].
Qed.

Lemma wf_book_b_sound (b : Book) : wf_book_b b = true -> wf_book b.
Proof.
  unfold wf_book_b. intros H. apply andb_true_iff in H as [H1 H2].
  split; now apply wf_side_b_sound.
Qed.

(** ** What matching leaves alone *)

Lemma dset_same {V} (k : Z) (v : V) (d : dict V) : dget k d = Some v -> dset k v d = d.
Proof.
  induction d as [|[k' v'] d IH]; simpl; [discriminate|].
  destruct (Z.eqb k k'); [intros [= ->]; reflexivity|intros H; now rewrite IH].
Qed.

Lemma match_loop_frame sl bl mk gs ps (Hps : forall b s, product (ps b s) = product b) (f : nat) :
  forall tm inc b, let '(_, inc', b') := match_loop sl bl mk gs ps f tm inc b in
  product b' = product b /\ Order.product_id inc' = Order.product_id inc.
Proof.
  induction f as [|f IH]; intros tm inc b; simpl; [auto|].
  destruct (0 <? Order.volume inc); [|auto].
  destruct (best_entry sl (gs b)) as [[k r]|]; [|auto].
  destruct (bl _ _); [auto|].
  match goal with |- context [match_loop _ _ _ _ _ f tm ?i ?bb] =>
    specialize (IH tm i bb); destruct (match_loop _ _ _ _ _ f tm i bb) as [[ts i2] b3]
  end.
  destruct IH as [IH1 IH2]. split; [|exact IH2]. rewrite IH1.
  destruct (_ <=? 0); [unfold remove_order; destruct (Order.side _)|]; simpl; apply Hps.
Qed.

Lemma match_order_frame (b : Book) (inc : Order.t) (tm : Z) :
  let '(_, inc', b') := match_order b inc tm in
  product b' = product b /\ Order.product_id inc' = Order.product_id inc.
Proof.
  unfold match_order, match_buy, match_sell.
  destruct (Order.side inc); apply match_loop_frame; reflexivity.
Qed.

(** An incoming order that crosses no resting order of the opposite side
    leaves matching without a trade. *)
Lemma match_order_no_cross (b : Book) (inc : Order.t) (tm : Z) :
  (forall r, In r (flat (opposite_side b (Order.side inc))) ->
     break_of (Order.side inc) (Order.price inc) (Order.price r) = true) ->
  match_order b inc tm = ([], inc, b).
Proof.
  intros H. unfold match_order, match_buy, match_sell.
  destruct (Order.side inc) eqn:Hs; rewrite match_loop_S;
    (destruct (0 <? Order.volume inc); [|reflexivity]).
  - destruct (best_entry Z.min (asks b)) as [[k r]|] eqn:E; [|reflexivity].
    apply best_entry_flat in E. specialize (H r E). simpl in H. now rewrite H.
  - destruct (best_entry Z.max (bids b)) as [[k r]|] eqn:E; [|reflexivity].
    apply best_entry_flat in E. specialize (H r E). simpl in H. now rewrite H.
Qed.

(** ** Settlement cost *)

Lemma cost_cases (x up down : Z) :
  0 <= down ->
  let cost := calculate_imbalance_cost x up down in
  (0 < x -> cost = x * up) /\ (x < 0 -> cost = Z.abs x * down) /\ (x = 0 -> cost = 0) /\
  0 <= down /\ (x <= 0 \/ 0 <= up -> 0 <= cost) /\
  (cost = 0 <-> x = 0 \/ (x < 0 /\ down = 0) \/ (0 < x /\ up = 0)).
Proof.
  intros Hd. unfold calculate_imbalance_cost. cbv zeta.
  destruct (Z.ltb_spec 0 x) as [Hx|Hx]; [|destruct (Z.ltb_spec x 0) as [Hx'|Hx']].
  - split; [reflexivity|]. split; [lia|]. split; [lia|]. split; [exact Hd|].
    split; [intros [H|H]; nia|].
    rewrite Z.mul_eq_0. lia.
  - split; [lia|]. split; [reflexivity|]. split; [lia|]. split; [exact Hd|].
    split; [intros _; nia|].
    rewrite Z.mul_eq_0. lia.
  - split; [lia|]. split; [lia|]. split; [reflexivity|]. split; [exact Hd|].
    split; [lia|]. lia.
Qed.

(** ** Successive lifecycle updates *)

Lemma run_status_updates_rank (ticks : list Z) (mo mo' : MO) :
  NoDup (map fst (products mo)) ->
  run_status_updates ticks mo = (Ok tt, mo') ->
  forall pid p, dget pid (products mo) = Some p ->
    exists p', dget pid (products mo') = Some p' /\
      status_rank (Product.status p) <= status_rank (Product.status p').
Proof.
  revert mo. induction ticks as [|tm rest IH]; intros mo Hnd H pid p G; simpl in H.
  - injection H as <-. exists p. split; [exact G|lia].
  - destruct (update_product_status tm mo) as [[closed|e] mo1] eqn:U; [|discriminate].
    destruct (ups_call tm mo mo1 closed Hnd U) as (_ & Hk & _ & Hit).
    destruct (Hit pid p G) as [G1 _].
    rewrite <- Hk in Hnd.
    destruct (IH mo1 Hnd H pid _ G1) as (p' & G' & Hr).
    exists p'. split; [exact G'|]. pose proof (rank_after tm p). lia.
Qed.

(** * Properties of the matching and lifecycle core *)

(** ** C1: pay-as-bid pricing *)

(** C1. On any book and for any incoming order, every trade of the
    matching pass is priced at a resting order of the opposite side: the
    trade's price is that order's price, and the trade names that order
    and its agent as the resting party. *)
Theorem match_order_pay_as_bid (b : Book) (inc : Order.t) (tm : Z) (tr : Trade.t) :
  In tr (fst (fst (match_order b inc tm))) ->
  exists r, In r (flat (opposite_side b (Order.side inc))) /\
    Trade.price tr = Order.price r /\
    resting_order_id (Order.side inc) tr = Order.id r /\
    resting_agent_id (Order.side inc) tr = Order.agent_id r.
Proof.
  unfold match_order, match_buy, match_sell, opposite_side, resting_order_id, resting_agent_id.
  destruct (Order.side inc).
  - apply (match_loop_pay_as_bid Z.min (fun pi pr => pi <? pr) buy_trade asks set_asks
             Trade.sell_order_id Trade.sell_agent_id);
      [intros; reflexivity| |intros; reflexivity|intros; reflexivity|intros; reflexivity|].
    + intros o b0. unfold remove_order. destruct (Order.side o); [left|right]; reflexivity.
    + intros o Ho. exists o. split; [exact Ho|]. repeat split.
  - apply (match_loop_pay_as_bid Z.max (fun pi pr => pr <? pi) sell_trade bids set_bids
             Trade.buy_order_id Trade.buy_agent_id);
      [intros; reflexivity| |intros; reflexivity|intros; reflexivity|intros; reflexivity|].
    + intros o b0. unfold remove_order. destruct (Order.side o); [right|left]; reflexivity.
    + intros o Ho. exists o. split; [exact Ho|]. repeat split.
Qed.

Lemma match_order_pay_as_bid_witness :
  In (Trade.mk 0 50 5 1 0 1 3 2) (fst (fst (match_order scen_B_ob scen_B_sell 2))) /\
  exists r, In r (flat (opposite_side scen_B_ob (Order.side scen_B_sell))) /\
    Trade.price (Trade.mk 0 50 5 1 0 1 3 2) = Order.price r /\
    resting_order_id (Order.side scen_B_sell) (Trade.mk 0 50 5 1 0 1 3 2) = Order.id r /\
    resting_agent_id (Order.side scen_B_sell) (Trade.mk 0 50 5 1 0 1 3 2) = Order.agent_id r.
Proof.
  assert (H : In (Trade.mk 0 50 5 1 0 1 3 2) (fst (fst (match_order scen_B_ob scen_B_sell 2))))
    by (vm_compute; left; reflexivity).
  exact (conj H (match_order_pay_as_bid scen_B_ob scen_B_sell 2 _ H)).
Defined.

(** ** C2: price-time priority, FIFO within a level *)

(** C2. On a well-formed book, let [L] be the priority list of the side
    the incoming order is matched against: its orders run from the best
    price to the worst, and each price level is one contiguous block of
    [L] in its FIFO order. The i-th trade of the matching pass is made
    against the i-th order of [L], at that order's price, and every trade
    but the last one takes the whole volume of its resting order; the side
    left by matching is [L] without the traded orders, the last one staying
    in front when it was only partly filled. A new order joins the end of
    its price level. Scenario B: bids 5@50 of agent 1 (t = 0) then 7@50 of
    agent 2 (t = 1); the sell 10@49 of agent 3 at t = 2 trades 5@50 with
    agent 1, then 5@50 with agent 2, and leaves agent 2's bid, now 2@50,
    alone in the book. *)
Theorem match_order_price_time_priority (b : Book) (inc : Order.t) (tm : Z) :
  wf_book b ->
  (let sd := Order.side inc in
   let mx := opp_mx sd in
   let L := prio mx (opposite_side b sd) in
   let '(ts, _, b') := match_order b inc tm in
   StronglySorted (fun a c => better mx (Order.price a) (Order.price c)) L /\
   (forall k lvl, dget k (opposite_side b sd) = Some lvl -> exists l1 l2, L = l1 ++ lvl ++ l2) /\
   (forall i tr, nth_error ts i = Some tr ->
      exists r, nth_error L i = Some r /\ Trade.price tr = Order.price r /\
        resting_order_id sd tr = Order.id r /\ resting_agent_id sd tr = Order.agent_id r /\
        ((S i < List.length ts)%nat -> Trade.volume tr = Order.volume r)) /\
   exists head, prio mx (opposite_side b' sd) = head ++ skipn (List.length ts) L /\
     (head = [] \/
      exists r, ts <> [] /\ nth_error L (pred (List.length ts)) = Some r /\
        0 < Order.volume r - Trade.volume (last ts dummy_trade) /\
        head = [Order.set_volume r (Order.volume r - Trade.volume (last ts dummy_trade))])) /\
  (forall o s, dget (Order.price o) (append_level o s) =
     Some (match dget (Order.price o) s with Some lvl => lvl | None => [] end ++ [o])) /\
  fst scen_B = Ok [Trade.mk 0 50 5 1 3 1 3 2; Trade.mk 0 50 5 2 3 2 3 2] /\
  option_map (fun ob => (bids ob, asks ob)) (dget 0 (order_books (snd scen_B))) =
    Some ([(50, [Order.mk 2 2 BUY 0 2 50 1 (Some GTC)])], []).
Proof.
  intros Hwf. split; [exact (match_order_priority b inc tm Hwf)|].
  split; [exact dget_append_level|]. split; vm_compute; reflexivity.
Qed.

Lemma match_order_price_time_priority_witness :
  wf_book scen_B_ob /\
  (let sd := Order.side scen_B_sell in
   let mx := opp_mx sd in
   let L := prio mx (opposite_side scen_B_ob sd) in
   let '(ts, _, b') := match_order scen_B_ob scen_B_sell 2 in
   StronglySorted (fun a c => better mx (Order.price a) (Order.price c)) L /\
   (forall k lvl, dget k (opposite_side scen_B_ob sd) = Some lvl -> exists l1 l2, L = l1 ++ lvl ++ l2) /\
   (forall i tr, nth_error ts i = Some tr ->
      exists r, nth_error L i = Some r /\ Trade.price tr = Order.price r /\
        resting_order_id sd tr = Order.id r /\ resting_agent_id sd tr = Order.agent_id r /\
        ((S i < List.length ts)%nat -> Trade.volume tr = Order.volume r)) /\
   exists head, prio mx (opposite_side b' sd) = head ++ skipn (List.length ts) L /\
     (head = [] \/
      exists r, ts <> [] /\ nth_error L (pred (List.length ts)) = Some r /\
        0 < Order.volume r - Trade.volume (last ts dummy_trade) /\
        head = [Order.set_volume r (Order.volume r - Trade.volume (last ts dummy_trade))])).
Proof.
  assert (Hwf : wf_book scen_B_ob) by (apply wf_book_b_sound; vm_compute; reflexivity).
  split; [exact Hwf|].
  exact (proj1 (match_order_price_time_priority scen_B_ob scen_B_sell 2 Hwf)).
Defined.

(** ** C3: the book is never left crossed *)



(** ** C4: volume conservation *)

(** C4, counterexample. [process_order] does not check the volume: a buy
    of volume -5 on the open product at t = 10 returns no trade, and the
    traded total 0 is above the order's volume -5. *)
Lemma process_order_volume_counterexample :
  fst (process_order (scen_order 1 BUY (-5) 50) 10 true scen_mo) = Ok [] /\
  Order.volume (scen_order 1 BUY (-5) 50) < sum_volumes [].
Proof. split; vm_compute; reflexivity. Qed.

(** C4, amended. On an existing, well-formed book, a [process_order] call
    that returns trades [ts] trades at most [max 0 v] in total, where [v]
    is the incoming order's volume, and nothing when [v <= 0]; the traded
    total is exactly the volume the opposite side of the book lost; and the
    i-th trade's volume is the minimum of the incoming order's remaining
    volume and the volume of the i-th resting order in priority. *)
Theorem process_order_volume (o : Order.t) (tm : Z) (vt : bool) (mo mo' : MO) (ob : Book)
      (ts : list Trade.t) :
  dget (Order.product_id o) (order_books mo) = Some ob -> wf_book ob ->
  process_order o tm vt mo = (Ok ts, mo') ->
  let sd := Order.side o in
  sum_volumes ts <= Z.max 0 (Order.volume o) /\
  (Order.volume o <= 0 -> ts = []) /\
  exists ob', dget (Order.product_id o) (order_books mo') = Some ob' /\
    sum_volumes ts = side_volume (opposite_side ob sd) - side_volume (opposite_side ob' sd) /\
    forall i tr, nth_error ts i = Some tr ->
      exists r, nth_error (prio (opp_mx sd) (opposite_side ob sd)) i = Some r /\
        Trade.volume tr = Z.min (Order.volume o - sum_volumes (firstn i ts)) (Order.volume r).
Proof.
  intros G Hwf Hp. pose proof (process_order_ok o tm vt mo mo' ob ts G Hwf Hp) as K. simpl in K |- *.
  set (o1 := Order.assign_id o (next_order_id mo) tm) in K.
  set (L := prio (opp_mx (Order.side o)) (opposite_side ob (Order.side o))) in K.
  pose proof (spec_match_incoming (break_of (Order.side o)) (trade_of (Order.side o))
                (trade_of_volume (Order.side o)) (Product.product_id (product ob)) tm o1 L) as I.
  pose proof (spec_match_resting (break_of (Order.side o)) (trade_of (Order.side o))
                (trade_of_volume (Order.side o)) (Product.product_id (product ob)) tm o1 L) as Rs.
  pose proof (spec_match_trades (break_of (Order.side o)) (trade_of (Order.side o))
                (trade_of_volume (Order.side o)) (Product.product_id (product ob)) tm o1 L) as T.
  pose proof (spec_match_nonpos (break_of (Order.side o)) (trade_of (Order.side o))
                (Product.product_id (product ob)) tm o1 L) as N.
  destruct (spec_match_list _ _ _ _ o1 L) as [[ts0 inc'] L'].
  destruct K as (-> & ob' & G' & Hwf' & HL').
  destruct I as (_ & Hsum & Hpos). destruct Rs as (Hres & _). destruct T as (_ & T).
  simpl in N. change (Order.volume o1) with (Order.volume o) in Hsum, Hpos, N, T.
  split; [destruct (Z.le_gt_cases 0 (Order.volume o)); [specialize (Hpos H)|rewrite N by lia; simpl]; lia|].
  split; [exact N|].
  exists ob'. split; [exact G'|]. split.
  - destruct (wf_opposite ob (Order.side o) Hwf) as [s1 H1].
    destruct (wf_opposite ob' (Order.side o) Hwf') as [s2 H2].
    rewrite (side_volume_prio (opp_mx (Order.side o)) s1 _ H1).
    rewrite (side_volume_prio (opp_mx (Order.side o)) s2 _ H2).
    fold L. rewrite HL'. lia.
  - intros i tr Hn. destruct (T i tr Hn) as (r & inc_i & Hr & _ & _ & _ & _ & _ & Hv & _).
    exists r. split; [exact Hr|exact Hv].
Qed.

Lemma process_order_volume_witness :
  dget (Order.product_id scen_B_sell) (order_books scen_B_book) = Some scen_B_ob /\
  wf_book scen_B_ob /\
  process_order scen_B_sell 2 true scen_B_book =
    (Ok [Trade.mk 0 50 5 1 3 1 3 2; Trade.mk 0 50 5 2 3 2 3 2], snd scen_B) /\
  (let ts := [Trade.mk 0 50 5 1 3 1 3 2; Trade.mk 0 50 5 2 3 2 3 2] in
   let sd := Order.side scen_B_sell in
   sum_volumes ts <= Z.max 0 (Order.volume scen_B_sell) /\
   (Order.volume scen_B_sell <= 0 -> ts = []) /\
   exists ob', dget (Order.product_id scen_B_sell) (order_books (snd scen_B)) = Some ob' /\
     sum_volumes ts = side_volume (opposite_side scen_B_ob sd) - side_volume (opposite_side ob' sd) /\
     forall i tr, nth_error ts i = Some tr ->
       exists r, nth_error (prio (opp_mx sd) (opposite_side scen_B_ob sd)) i = Some r /\
         Trade.volume tr = Z.min (Order.volume scen_B_sell - sum_volumes (firstn i ts)) (Order.volume r)).
Proof.
  assert (G : dget (Order.product_id scen_B_sell) (order_books scen_B_book) = Some scen_B_ob)
    by (vm_compute; reflexivity).
  assert (Hwf : wf_book scen_B_ob) by (apply wf_book_b_sound; vm_compute; reflexivity).
  assert (Hp : process_order scen_B_sell 2 true scen_B_book =
                 (Ok [Trade.mk 0 50 5 1 3 1 3 2; Trade.mk 0 50 5 2 3 2 3 2], snd scen_B))
    by (vm_compute; reflexivity).
  split; [exact G|]. split; [exact Hwf|]. split; [exact Hp|].
  exact (process_order_volume scen_B_sell 2 true scen_B_book (snd scen_B) scen_B_ob _ G Hwf Hp).
Defined.

(** ** C5: lifecycle monotonicity and the purge at gate close *)

(** C5. For an operator whose product ids are distinct, an
    [update_product_status] call that returns the list [closed] keeps the
    product ids (so calls chain), and moves every product at most one
    stage forward along Pending -> Open -> Closed -> Settled, never back; a
    product is in [closed] exactly when this call moves it from Open to
    Closed, and then its book holds no order after the call. Along any
    later sequence of calls the stage of a product never goes back. *)
Theorem update_product_status_lifecycle (tm : Z) (mo mo' : MO) (closed : list Z) :
  NoDup (map fst (products mo)) ->
  update_product_status tm mo = (Ok closed, mo') ->
  NoDup (map fst (products mo')) /\
  map fst (products mo') = map fst (products mo) /\
  (forall pid p, dget pid (products mo) = Some p ->
     exists p', dget pid (products mo') = Some p' /\
       status_rank (Product.status p) <= status_rank (Product.status p') <=
         status_rank (Product.status p) + 1 /\
       (In pid closed <-> Product.status p = OPEN /\ Product.status p' = CLOSED) /\
       (In pid closed ->
          exists ob, dget pid (order_books mo') = Some ob /\ book_len ob = 0%nat /\ product ob = p')) /\
  (forall ticks mo'', run_status_updates ticks mo' = (Ok tt, mo'') ->
     forall pid p', dget pid (products mo') = Some p' ->
       exists p'', dget pid (products mo'') = Some p'' /\
         status_rank (Product.status p') <= status_rank (Product.status p'')).
Proof.
  intros Hnd H.
  destruct (ups_call tm mo mo' closed Hnd H) as (Hc & Hk & _ & Hit).
  split; [rewrite Hk; exact Hnd|]. split; [exact Hk|]. split.
  - intros pid p G. destruct (Hit pid p G) as [G' Hcl]. exists (product_after tm p).
    split; [exact G'|]. split; [apply rank_after|].
    assert (Hiff : In pid closed <-> closes_at tm p = true) by (rewrite Hc; now apply in_closed_iff).
    split; [rewrite Hiff; apply closes_at_iff|].
    intros Hin. apply Hiff in Hin. exact (Hcl Hin).
  - intros ticks mo'' Hr. apply (run_status_updates_rank ticks mo' mo''); [rewrite Hk; exact Hnd|exact Hr].
Qed.

(** Scenario C: the product with the two resting bids of scenario B reaches
    its gate close (t = 40). *)
Lemma update_product_status_lifecycle_witness :
  NoDup (map fst (products scen_B_book)) /\
  update_product_status 40 scen_B_book = (Ok [0], snd (update_product_status 40 scen_B_book)) /\
  book_len scen_B_ob = 2%nat /\
  (forall pid p, dget pid (products scen_B_book) = Some p ->
     exists p', dget pid (products (snd (update_product_status 40 scen_B_book))) = Some p' /\
       status_rank (Product.status p) <= status_rank (Product.status p') <=
         status_rank (Product.status p) + 1 /\
       (In pid [0] <-> Product.status p = OPEN /\ Product.status p' = CLOSED) /\
       (In pid [0] ->
          exists ob, dget pid (order_books (snd (update_product_status 40 scen_B_book))) = Some ob /\
                     book_len ob = 0%nat /\ product ob = p')).
Proof.
  assert (Hnd : NoDup (map fst (products scen_B_book)))
    by (apply nodup_b_sound; vm_compute; reflexivity).
  assert (Hu : update_product_status 40 scen_B_book = (Ok [0], snd (update_product_status 40 scen_B_book)))
    by (vm_compute; reflexivity).
  split; [exact Hnd|]. split; [exact Hu|]. split; [vm_compute; reflexivity|].
  exact (proj1 (proj2 (proj2 (update_product_status_lifecycle 40 scen_B_book _ [0] Hnd Hu)))).
Defined.

(** ** C6: when settlement runs *)

(** C6, counterexample. A product created Pending with gate window [0, 2)
    and delivery window [5, 10): in a run of 4 ticks with no orders, with
    settlement enabled, it is settled at tick 2, when it reaches its gate
    close, before its delivery end 10. *)
Lemma run_settlement_counterexample :
  fst (run_multi_product_simulation (fun _ _ => []) true [scen_run_product] 4) = Ok [(2, 0)] /\
  2 < Product.delivery_end scen_run_product.
Proof. split; vm_compute; reflexivity. Qed.

(** C6, amended. In a run with settlement enabled over products with
    distinct ids, each created Pending, the settlement log holds at most
    one entry per product: one, at its gate-close tick [close_tick p] (the
    first tick at which it is Open and past its gate close), when that tick
    falls inside the run, and none otherwise. Whatever the agents do,
    settlement runs at gate close and never at the Closed -> Settled
    transition. *)
Theorem run_settlement_ticks (decide : Z -> MO -> list Order.t) (ps : list Product.t) (n : nat)
      (log : list (Z * Z)) (mo' : MO) :
  NoDup (map Product.product_id ps) ->
  run_multi_product_simulation decide true ps n = (Ok log, mo') ->
  forall p, In p ps -> Product.status p = PENDING ->
    filter (fun e => Z.eqb (snd e) (Product.product_id p)) log =
    if close_tick p <? Z.of_nat n then [(close_tick p, Product.product_id p)] else [].
Proof.
  intros Hnd Hr p Hin Hs. unfold run_multi_product_simulation in Hr.
  destruct (update_product_status 0 (from_products ps)) as [[c0|e] mo1] eqn:U; [|discriminate].
  assert (Hnd0 : NoDup (map fst (products (from_products ps)))) by (now rewrite from_products_keys).
  destruct (ups_call 0 _ _ _ Hnd0 U) as (_ & Hk & _ & Hit).
  destruct (Hit _ _ (from_products_get ps p Hnd Hin)) as [G1 _].
  rewrite <- Hk in Hnd0.
  rewrite (run_loop_settled decide _ _ _ _ _ _ _ Hnd0 G1 Hr). simpl.
  unfold close_tick. unfold product_after at 1, status_next. rewrite Hs.
  destruct (Z.leb_spec (Product.gate_open p) 0) as [Hle|Hgt].
  - rewrite close_ticks_open by reflexivity. simpl.
    destruct (Z.max 0 (Product.gate_close p) <? Z.of_nat n); reflexivity.
  - rewrite close_ticks_pending by exact Hs. simpl.
    replace (Z.max (Z.max 0 (Product.gate_open p) + 1) (Product.gate_close p))
      with (Z.max (Product.gate_open p + 1) (Product.gate_close p)) by lia.
    destruct (Z.max (Product.gate_open p + 1) (Product.gate_close p) <? Z.of_nat n); reflexivity.
Qed.

Lemma run_settlement_ticks_witness :
  NoDup (map Product.product_id [scen_run_product]) /\
  run_multi_product_simulation (fun _ _ => []) true [scen_run_product] 4 =
    (Ok [(2, 0)], snd (run_multi_product_simulation (fun _ _ => []) true [scen_run_product] 4)) /\
  In scen_run_product [scen_run_product] /\ Product.status scen_run_product = PENDING /\
  filter (fun e => Z.eqb (snd e) (Product.product_id scen_run_product)) [(2, 0)] =
    (if close_tick scen_run_product <? Z.of_nat 4
     then [(close_tick scen_run_product, Product.product_id scen_run_product)] else []).
Proof.
  assert (Hnd : NoDup (map Product.product_id [scen_run_product]))
    by (apply nodup_b_sound; vm_compute; reflexivity).
  assert (Hr : run_multi_product_simulation (fun _ _ => []) true [scen_run_product] 4 =
    (Ok [(2, 0)], snd (run_multi_product_simulation (fun _ _ => []) true [scen_run_product] 4)))
    by (vm_compute; reflexivity).
  assert (Hin : In scen_run_product [scen_run_product]) by (left; reflexivity).
  assert (Hs : Product.status scen_run_product = PENDING) by reflexivity.
  split; [exact Hnd|]. split; [exact Hr|]. split; [exact Hin|]. split; [exact Hs|].
  exact (run_settlement_ticks (fun _ _ => []) [scen_run_product] 4 [(2, 0)] _ Hnd Hr
           scen_run_product Hin Hs).
Defined.

(** ** C7: the imbalance cost *)

(** C7, counterexample. [create_hourly_products] takes the day-ahead
    prices it is given; an hourly product with price -20, settled with the
    default offset 10 and no random draws, gets [lambda_up = -10], and an
    imbalance of 1 costs -10 (the docstring of [calculate_imbalance_cost]
    says the cost is always positive, and [lambda_down], unlike
    [lambda_up], is clamped at 0). With random draws the same happens for a
    price the generator can give: price 10, offset 10, volatility 30 and an
    up draw of -25 give [lambda_up = -5] and a cost of -5 for an imbalance
    of 1. *)
Lemma imbalance_cost_counterexample :
  match create_hourly_products 1 1440 24 60 (Some [-20]) with
  | Ok [p] =>
      let '(lambda_up, lambda_down) := get_imbalance_prices p 10 2 None in
      lambda_up = -10 /\ calculate_imbalance_cost 1 lambda_up lambda_down = -10
  | _ => False
  end /\
  -30 <= -25 <= 30 /\
  let '(lambda_up, lambda_down) := get_imbalance_prices (scen_settle_product 10) 10 30 (Some (-25, 0)) in
  lambda_up = -5 /\ calculate_imbalance_cost 1 lambda_up lambda_down = -5.
Proof. vm_compute. repeat split; discriminate. Qed.

(** C7, what the code computes. For the prices [get_imbalance_prices]
    gives for any product, offsets and draws, the cost of an imbalance [x]
    is [x * lambda_up] when [x > 0], [|x| * lambda_down] when [x < 0] and 0
    when [x = 0]; [lambda_down] is never negative, so the cost is negative
    only when [x > 0] and [lambda_up < 0], the unclamped case; and the cost
    is zero exactly when [x = 0], or [x < 0] and [lambda_down = 0], or
    [x > 0] and [lambda_up = 0]. *)
Theorem imbalance_cost_contract (p : Product.t) (base_offset volatility : Z)
        (draws : option (Z * Z)) (x : Z) :
  let '(lambda_up, lambda_down) := get_imbalance_prices p base_offset volatility draws in
  let cost := calculate_imbalance_cost x lambda_up lambda_down in
  (0 < x -> cost = x * lambda_up) /\
  (x < 0 -> cost = Z.abs x * lambda_down) /\
  (x = 0 -> cost = 0) /\
  0 <= lambda_down /\
  (x <= 0 \/ 0 <= lambda_up -> 0 <= cost) /\
  (cost = 0 <-> x = 0 \/ (x < 0 /\ lambda_down = 0) \/ (0 < x /\ lambda_up = 0)).
Proof.
  unfold get_imbalance_prices.
  destruct draws as [[u d]|]; cbv beta iota zeta; apply cost_cases; lia.
Qed.

(** ** C8: orders to products that cannot be traded *)

(** C8. With time validation on, [process_order] raises a [ValueError]
    when the product has no book, when its status is not Open, or when the
    tick is outside [[gate_open, gate_close)]; it then returns the operator
    state unchanged (no book changes, the order-id counter stays). When
    the book exists (and holds the product of that id, as the books of
    [from_products] do), the product is Open and the tick is inside the
    window, it does not raise. *)
Theorem process_order_validation (o : Order.t) (tm : Z) (mo : MO) :
  (dget (Order.product_id o) (order_books mo) = None ->
     exists msg, process_order o tm true mo = (Err (ValueError msg), mo)) /\
  (forall ob, dget (Order.product_id o) (order_books mo) = Some ob ->
     Product.status (product ob) <> OPEN \/ tm < Product.gate_open (product ob) \/
     Product.gate_close (product ob) <= tm ->
     exists msg, process_order o tm true mo = (Err (ValueError msg), mo)) /\
  (forall ob, dget (Order.product_id o) (order_books mo) = Some ob ->
     Product.status (product ob) = OPEN ->
     Product.gate_open (product ob) <= tm < Product.gate_close (product ob) ->
     Product.product_id (product ob) = Order.product_id o ->
     exists ts mo', process_order o tm true mo = (Ok ts, mo')).
Proof.
  split; [|split].
  - intros G. eexists. unfold process_order. cbv zeta. rewrite G. reflexivity.
  - intros ob G Hbad. unfold process_order. cbv zeta. rewrite G.
    assert (Hf : is_open ob tm = false).
    { unfold is_open, Product.is_open.
      destruct Hbad as [Hs|[Hlt|Hge]].
      - destruct (Product.status (product ob)); simpl; congruence.
      - apply Z.leb_gt in Hlt. rewrite Hlt. now rewrite andb_false_r.
      - apply Z.ltb_ge in Hge. rewrite Hge. now rewrite !andb_false_r. }
    unfold validate_order_time. rewrite Hf. eexists. reflexivity.
  - intros ob G Hs [Hgo Hgc] Hid. unfold process_order. cbv zeta. rewrite G.
    assert (Ht : is_open ob tm = true).
    { unfold is_open, Product.is_open. rewrite Hs. simpl.
      apply andb_true_iff. split; [apply Z.leb_le|apply Z.ltb_lt]; lia. }
    unfold validate_order_time. rewrite Ht.
    pose proof (match_order_frame ob (Order.assign_id o (next_order_id mo) tm) tm) as F.
    destruct (match_order ob _ tm) as [[ts o2] ob1].
    destruct F as [Hp Hpid].
    destruct (_ && _); [|do 2 eexists; reflexivity].
    unfold add_order. rewrite Hp, Hpid. simpl. rewrite Hid, Z.eqb_refl. simpl.
    destruct (Order.side o2); do 2 eexists; reflexivity.
Qed.

(** ** C9: no check of volume or price *)

(** C9, counterexample. On the open product at t = 10, a buy of volume 5
    at price 0 is not rejected: it returns no trade and rests in the book
    at price level 0; a buy of volume -5 returns no trade and no error. *)
Lemma process_order_no_input_check_counterexample :
  fst (process_order (scen_order 1 BUY 5 0) 10 true scen_mo) = Ok [] /\
  option_map bids (dget 0 (order_books (snd (process_order (scen_order 1 BUY 5 0) 10 true scen_mo)))) =
    Some [(0, [Order.mk 1 1 BUY 0 5 0 10 (Some GTC)])] /\
  fst (process_order (scen_order 1 BUY (-5) 50) 10 true scen_mo) = Ok [].
Proof. split; [|split]; vm_compute; reflexivity. Qed.

(** C9, amended. [process_order] checks neither volume nor price. On an
    existing book that is open at the tick, an order of volume [<= 0]
    returns no trade and no error, reaches no book, and only takes an order
    id. A good-till-cancelled order of positive volume that crosses no
    resting order of the opposite side (whatever its price, zero or
    negative included) returns no trade and is added, with its new id and
    timestamp, at the end of its price level on its own side. *)
Theorem process_order_no_input_check (o : Order.t) (tm : Z) (mo : MO) (ob : Book) :
  dget (Order.product_id o) (order_books mo) = Some ob -> is_open ob tm = true ->
  (Order.volume o <= 0 ->
     process_order o tm true mo = (Ok [], mkMO (products mo) (order_books mo) (next_order_id mo + 1))) /\
  (0 < Order.volume o -> Order.time_in_force o = Some GTC ->
   Product.product_id (product ob) = Order.product_id o ->
   (forall r, In r (flat (opposite_side ob (Order.side o))) ->
      break_of (Order.side o) (Order.price o) (Order.price r) = true) ->
   process_order o tm true mo =
     (Ok [], mkMO (products mo)
               (dset (Order.product_id o)
                  (let o1 := Order.assign_id o (next_order_id mo) tm in
                   match Order.side o with
                   | BUY => set_bids ob (append_level o1 (bids ob))
                   | SELL => set_asks ob (append_level o1 (asks ob))
                   end) (order_books mo))
               (next_order_id mo + 1))).
Proof.
  intros G Ho. unfold process_order. cbv zeta. rewrite G. unfold validate_order_time. rewrite Ho.
  split.
  - intros Hv.
    assert (M : match_order ob (Order.assign_id o (next_order_id mo) tm) tm =
                ([], Order.assign_id o (next_order_id mo) tm, ob)).
    { unfold match_order, match_buy, match_sell.
      destruct (Order.side _); apply match_loop_stop; exact Hv. }
    rewrite M. simpl. destruct (Z.ltb_spec 0 (Order.volume o)); [lia|].
    simpl. rewrite (dset_same _ _ _ G). reflexivity.
  - intros Hv Hg Hid Hnc.
    rewrite (match_order_no_cross ob (Order.assign_id o (next_order_id mo) tm) tm Hnc).
    simpl. rewrite Hg. destruct (Z.ltb_spec 0 (Order.volume o)); [|lia].
    simpl. unfold add_order. simpl. rewrite Hid, Z.eqb_refl. simpl.
    destruct (Order.side o); reflexivity.
Qed.

Lemma process_order_no_input_check_witness :
  dget (Order.product_id (scen_order 1 BUY 5 0)) (order_books scen_mo) = Some (mkBook scen_product [] []) /\
  is_open (mkBook scen_product [] []) 10 = true /\
  0 < Order.volume (scen_order 1 BUY 5 0) /\ Order.price (scen_order 1 BUY 5 0) <= 0 /\
  Order.time_in_force (scen_order 1 BUY 5 0) = Some GTC /\
  Product.product_id (product (mkBook scen_product [] [])) = Order.product_id (scen_order 1 BUY 5 0) /\
  process_order (scen_order 1 BUY 5 0) 10 true scen_mo =
    (Ok [], mkMO (products scen_mo)
              (dset 0 (set_bids (mkBook scen_product [] [])
                         (append_level (Order.assign_id (scen_order 1 BUY 5 0) 1 10) []))
                    (order_books scen_mo)) 2).
Proof.
  assert (G : dget (Order.product_id (scen_order 1 BUY 5 0)) (order_books scen_mo) =
                Some (mkBook scen_product [] [])) by reflexivity.
  assert (Ho : is_open (mkBook scen_product [] []) 10 = true) by reflexivity.
  assert (Hv : 0 < Order.volume (scen_order 1 BUY 5 0)) by (simpl; lia).
  assert (Hg : Order.time_in_force (scen_order 1 BUY 5 0) = Some GTC) by reflexivity.
  assert (Hid : Product.product_id (product (mkBook scen_product [] [])) =
                Order.product_id (scen_order 1 BUY 5 0)) by reflexivity.
  split; [exact G|]. split; [exact Ho|]. split; [exact Hv|]. split; [simpl; lia|].
  split; [exact Hg|]. split; [exact Hid|].
  exact (proj2 (process_order_no_input_check (scen_order 1 BUY 5 0) 10 scen_mo _ G Ho) Hv Hg Hid
           (fun r Hr => False_ind _ Hr)).
Defined.

(** ** C10: one lifecycle stage per call *)

(** C10. For an operator whose product ids are distinct, in one
    [update_product_status] call each product moves at most one stage; a
    Pending product becomes Open when the tick has reached its gate open
    (and stays Pending otherwise), never Closed in the same call, and is not
    in the returned closed list; in particular a Pending product whose gate
    close has already passed ([gate_open <= gate_close <= t]) becomes Open,
    and can only be reported closed by a later call. *)
Theorem update_product_status_one_stage (tm : Z) (mo mo' : MO) (closed : list Z) :
  NoDup (map fst (products mo)) ->
  update_product_status tm mo = (Ok closed, mo') ->
  forall pid p, dget pid (products mo) = Some p ->
  exists p', dget pid (products mo') = Some p' /\
    status_rank (Product.status p') <= status_rank (Product.status p) + 1 /\
    (Product.status p = PENDING ->
       Product.status p' = (if Product.gate_open p <=? tm then OPEN else PENDING) /\
       ~ In pid closed) /\
    (Product.status p = PENDING -> Product.gate_open p <= Product.gate_close p <= tm ->
       Product.status p' = OPEN).
Proof.
  intros Hnd H pid p G.
  destruct (ups_call tm mo mo' closed Hnd H) as (Hc & _ & _ & Hit).
  destruct (Hit pid p G) as [G' _]. exists (product_after tm p).
  split; [exact G'|]. split; [pose proof (rank_after tm p); lia|].
  assert (Hiff : In pid closed <-> closes_at tm p = true) by (rewrite Hc; now apply in_closed_iff).
  assert (Hpend : Product.status p = PENDING -> Product.status (product_after tm p) =
                    (if Product.gate_open p <=? tm then OPEN else PENDING)).
  { intros Hs. unfold product_after, status_next. rewrite Hs.
    destruct (Product.gate_open p <=? tm); simpl; [reflexivity|exact Hs]. }
  split.
  - intros Hs. split; [now apply Hpend|]. rewrite Hiff. unfold closes_at. rewrite Hs. simpl. discriminate.
  - intros Hs Hle. rewrite (Hpend Hs). destruct (Z.leb_spec (Product.gate_open p) tm); [reflexivity|lia].
Qed.

(** The Pending product of gate window [0, 2) at tick 5. *)
Lemma update_product_status_one_stage_witness :
  NoDup (map fst (products (from_products [scen_run_product]))) /\
  update_product_status 5 (from_products [scen_run_product]) =
    (Ok [], snd (update_product_status 5 (from_products [scen_run_product]))) /\
  dget 0 (products (from_products [scen_run_product])) = Some scen_run_product /\
  exists p', dget 0 (products (snd (update_product_status 5 (from_products [scen_run_product])))) = Some p' /\
    status_rank (Product.status p') <= status_rank (Product.status scen_run_product) + 1 /\
    (Product.status scen_run_product = PENDING ->
       Product.status p' = (if Product.gate_open scen_run_product <=? 5 then OPEN else PENDING) /\
       ~ In 0 []) /\
    (Product.status scen_run_product = PENDING ->
       Product.gate_open scen_run_product <= Product.gate_close scen_run_product <= 5 ->
       Product.status p' = OPEN).
Proof.
  assert (Hnd : NoDup (map fst (products (from_products [scen_run_product]))))
    by (apply nodup_b_sound; vm_compute; reflexivity).
  assert (Hu : update_product_status 5 (from_products [scen_run_product]) =
                 (Ok [], snd (update_product_status 5 (from_products [scen_run_product]))))
    by (vm_compute; reflexivity).
  assert (G : dget 0 (products (from_products [scen_run_product])) = Some scen_run_product)
    by reflexivity.
  split; [exact Hnd|]. split; [exact Hu|]. split; [exact G|].
  exact (update_product_status_one_stage 5 _ _ [] Hnd Hu 0 scen_run_product G).
Defined.

(** * Further properties of the book, the operator, product creation and settlement *)

Section DictMid.
Context {V : Type}.

Lemma dget_mid (pre post : dict V) (k : Z) (v : V) :
  ~ In k (map fst pre) -> dget k (pre ++ (k, v) :: post) = Some v.
Proof.
  induction pre as [|[k' v'] pre IH]; simpl; intros Hn.
  - now rewrite Z.eqb_refl.
  - destruct (Z.eqb_spec k k'); [subst; tauto|]. apply IH; tauto.
Qed.

Lemma dset_mid (pre post : dict V) (k : Z) (v w : V) :
  ~ In k (map fst pre) -> dset k w (pre ++ (k, v) :: post) = pre ++ (k, w) :: post.
Proof.
  induction pre as [|[k' v'] pre IH]; simpl; intros Hn.
  - now rewrite Z.eqb_refl.
  - destruct (Z.eqb_spec k k'); [subst; tauto|]. rewrite IH; tauto.
Qed.

Lemma ddel_mid (pre post : dict V) (k : Z) (v : V) :
  ~ In k (map fst pre) -> ddel k (pre ++ (k, v) :: post) = pre ++ post.
Proof.
  induction pre as [|[k' v'] pre IH]; simpl; intros Hn.
  - now rewrite Z.eqb_refl.
  - destruct (Z.eqb_spec k k'); [subst; tauto|]. rewrite IH; tauto.
Qed.
End DictMid.

Lemma filter_length_split {A} (f : A -> bool) (l : list A) :
  length l = (length (filter f l) + length (filter (fun x => negb (f x)) l))%nat.
Proof. induction l as [|x l IH]; simpl; [reflexivity|]. destruct (f x); simpl; lia. Qed.

Section DropAgent.
Variable a : Z.
Let keep := fun o : Order.t => negb (Z.eqb (Order.agent_id o) a).
Let mine := fun o : Order.t => Z.eqb (Order.agent_id o) a.

Lemma drop_agent_cons (k : Z) (l : list Order.t) (s : BookSide) :
  drop_agent a ((k, l) :: s) =
  match filter keep l with [] => drop_agent a s | l' => (k, l') :: drop_agent a s end.
Proof. reflexivity. Qed.

Lemma rba_step_mid (pre rest : BookSide) (k : Z) (l : list Order.t) (c : nat) :
  ~ In k (map fst pre) ->
  rba_step a (c, pre ++ (k, l) :: rest) k =
  match filter keep l with
  | [] => ((c + (length l - length (filter keep l)))%nat, pre ++ rest)
  | l' => ((c + (length l - length l'))%nat, pre ++ (k, l') :: rest)
  end.
Proof.
  intros Hk. unfold rba_step. rewrite dget_mid by exact Hk. rewrite dset_mid by exact Hk.
  fold keep. destruct (filter keep l); [|reflexivity]. now rewrite ddel_mid.
Qed.

Lemma rba_fold (rest pre : BookSide) (c : nat) :
  NoDup (map fst (pre ++ rest)) ->
  fold_left (rba_step a) (map fst rest) (c, pre ++ rest) =
  ((c + length (filter mine (flat rest)))%nat, pre ++ drop_agent a rest).
Proof.
  revert pre c. induction rest as [|[k l] rest IH]; intros pre c Hnd.
  - simpl. rewrite Nat.add_0_r. reflexivity.
  - assert (Hk : ~ In k (map fst pre)).
    { rewrite map_app in Hnd. simpl in Hnd. intros Hi.
      apply NoDup_remove_2 in Hnd. apply Hnd. apply in_app_iff. now left. }
    change (fold_left (rba_step a) (map fst ((k, l) :: rest)) (c, pre ++ (k, l) :: rest)) with (fold_left (rba_step a) (map fst rest) (rba_step a (c, pre ++ (k, l) :: rest) k)). rewrite rba_step_mid by exact Hk.
    rewrite flat_cons, filter_app, length_app.
    pose proof (filter_length_split mine l) as Hl.
    rewrite drop_agent_cons. fold keep.
    assert (Hkf : filter (fun x => negb (mine x)) l = filter keep l) by reflexivity.
    rewrite Hkf in Hl.
    destruct (filter keep l) as [|o l'] eqn:Ef.
    + rewrite IH.
      * f_equal. simpl in Hl. change (Datatypes.length (@nil Order.t)) with 0%nat. lia.
      * rewrite map_app in *. simpl in Hnd. now apply NoDup_remove_1 in Hnd.
    + cbv zeta. replace (pre ++ (k, o :: l') :: rest) with ((pre ++ [(k, o :: l')]) ++ rest)
        by now rewrite <- app_assoc.
      cbv zeta. rewrite IH.
      * rewrite <- app_assoc. f_equal. simpl in Hl. simpl. lia.
      * rewrite <- app_assoc. rewrite map_app in *. exact Hnd.
Qed.

Lemma flat_drop_agent (s : BookSide) : flat (drop_agent a s) = filter keep (flat s).
Proof.
  induction s as [|[k l] s IH]; [reflexivity|].
  rewrite drop_agent_cons, flat_cons, filter_app.
  destruct (filter keep l) as [|o l']; [exact IH|]. rewrite flat_cons, IH. reflexivity.
Qed.

Lemma keys_drop_agent (s : BookSide) (x : Z) :
  In x (map fst (drop_agent a s)) -> In x (map fst s).
Proof.
  induction s as [|[k l] s IH]; [simpl; tauto|].
  rewrite drop_agent_cons. destruct (filter keep l); simpl; intuition.
Qed.

Lemma NoDup_drop_agent (s : BookSide) : NoDup (map fst s) -> NoDup (map fst (drop_agent a s)).
Proof.
  induction s as [|[k l] s IH]; intros Hnd; [constructor|].
  simpl in Hnd. inversion Hnd as [|? ? Hn Hnd']; subst.
  rewrite drop_agent_cons. destruct (filter keep l); [auto|].
  simpl. constructor; [|auto]. intros Hi. apply Hn. now apply keys_drop_agent in Hi.
Qed.

Lemma dget_drop_agent (s : BookSide) (k : Z) (l' : list Order.t) :
  NoDup (map fst s) -> dget k (drop_agent a s) = Some l' ->
  exists l, dget k s = Some l /\ l' = filter keep l /\ l' <> [].
Proof.
  induction s as [|[k0 l0] s IH]; intros Hnd; [discriminate|].
  simpl in Hnd. inversion Hnd as [|? ? Hn Hnd']; subst.
  rewrite drop_agent_cons. simpl dget at 2. destruct (filter keep l0) as [|o l1] eqn:Ef.
  - intros G. destruct (Z.eqb_spec k k0) as [->|].
    + exfalso. apply Hn. apply keys_drop_agent with (s := s). now apply dget_some_in in G.
    + now apply IH.
  - simpl. destruct (Z.eqb_spec k k0) as [->|].
    + intros [= <-]. exists l0. split; [reflexivity|]. split; [now rewrite Ef|discriminate].
    + intros G. now apply IH.
Qed.

Lemma wf_drop_agent (sd : Side) (s : BookSide) : wf_side sd s -> wf_side sd (drop_agent a s).
Proof.
  intros [Hnd Hw]. split; [now apply NoDup_drop_agent|].
  intros k l' G. destruct (dget_drop_agent s k l' Hnd G) as (l & G0 & -> & Hne).
  split; [exact Hne|]. destruct (Hw k l G0) as [_ Hf].
  rewrite Forall_forall in *. intros o Ho. apply filter_In in Ho. now apply Hf.
Qed.

Lemma remove_orders_by_agent_eq (b : Book) :
  NoDup (map fst (bids b)) -> NoDup (map fst (asks b)) ->
  remove_orders_by_agent a b =
  ((length (filter mine (flat (bids b))) + length (filter mine (flat (asks b))))%nat,
   mkBook (product b) (drop_agent a (bids b)) (drop_agent a (asks b))).
Proof.
  intros H1 H2. unfold remove_orders_by_agent.
  assert (E1 : fold_left (rba_step a) (map fst (bids b)) (0%nat, bids b) =
               (length (filter mine (flat (bids b))), drop_agent a (bids b)))
    by exact (rba_fold (bids b) [] 0%nat H1).
  rewrite E1.
  assert (E2 : fold_left (rba_step a) (map fst (asks b)) (length (filter mine (flat (bids b))), asks b) =
               ((length (filter mine (flat (bids b))) + length (filter mine (flat (asks b))))%nat,
                drop_agent a (asks b)))
    by exact (rba_fold (asks b) [] _ H2).
  rewrite E2. reflexivity.
Qed.
End DropAgent.

Lemma remove_orders_by_agent_props (agent_id : Z) (b : Book) :
  NoDup (map fst (bids b)) -> NoDup (map fst (asks b)) ->
  let '(n, b') := remove_orders_by_agent agent_id b in
  product b' = product b /\
  flat (bids b') = filter (fun o => negb (Order.agent_id o =? agent_id)) (flat (bids b)) /\
  flat (asks b') = filter (fun o => negb (Order.agent_id o =? agent_id)) (flat (asks b)) /\
  n = length (filter (fun o => Order.agent_id o =? agent_id) (all_orders b)) /\
  (n + book_len b')%nat = book_len b.
Proof.
  intros H1 H2. rewrite (remove_orders_by_agent_eq agent_id b H1 H2).
  simpl. rewrite !flat_drop_agent.
  split; [reflexivity|]. split; [reflexivity|]. split; [reflexivity|].
  unfold all_orders. rewrite filter_app, length_app. split; [reflexivity|].
  unfold book_len. simpl. rewrite !side_count_flat, !flat_drop_agent.
  rewrite (filter_length_split (fun o => Order.agent_id o =? agent_id) (flat (bids b))).
  rewrite (filter_length_split (fun o => Order.agent_id o =? agent_id) (flat (asks b))).
  lia.
Qed.

Lemma all_orders_remove_by_agent (agent_id : Z) (b : Book) :
  NoDup (map fst (bids b)) -> NoDup (map fst (asks b)) ->
  all_orders (snd (remove_orders_by_agent agent_id b)) =
  filter (fun o => negb (Order.agent_id o =? agent_id)) (all_orders b).
Proof.
  intros H1 H2. pose proof (remove_orders_by_agent_props agent_id b H1 H2) as P.
  destruct (remove_orders_by_agent agent_id b) as [n b'].
  destruct P as (_ & E1 & E2 & _). unfold all_orders. simpl. rewrite E1, E2, filter_app. reflexivity.
Qed.

Lemma wf_remove_by_agent (agent_id : Z) (b : Book) :
  wf_book b -> wf_book (snd (remove_orders_by_agent agent_id b)).
Proof.
  intros [W1 W2]. rewrite (remove_orders_by_agent_eq agent_id b (proj1 W1) (proj1 W2)).
  split; simpl; now apply wf_drop_agent.
Qed.

Lemma total_orders_cons (pid : Z) (ob : Book) (obs : dict Book) (p : dict Product.t) (n : Z) :
  total_orders (mkMO p ((pid, ob) :: obs) n) = (book_len ob + total_orders (mkMO p obs n))%nat.
Proof. reflexivity. Qed.

Lemma cancel_all_props (agent_id : Z) (obs : dict Book) :
  (forall pid ob, In (pid, ob) obs -> wf_book ob) ->
  let '(n, obs') := cancel_all agent_id obs in
  map fst obs' = map fst obs /\
  (n + fold_right (fun kv acc => (book_len (snd kv) + acc)%nat) 0%nat obs')%nat =
    fold_right (fun kv acc => (book_len (snd kv) + acc)%nat) 0%nat obs /\
  (forall pid ob', dget pid obs' = Some ob' ->
     exists ob, dget pid obs = Some ob /\ product ob' = product ob /\ wf_book ob' /\
       all_orders ob' = filter (fun o => negb (Order.agent_id o =? agent_id)) (all_orders ob)).
Proof.
  induction obs as [|[pid ob] obs IH]; intros Hw; simpl.
  - split; [reflexivity|]. split; [reflexivity|]. intros _ _ [=].
  - assert (W : wf_book ob) by (apply (Hw pid); now left).
    pose proof (remove_orders_by_agent_props agent_id ob (proj1 (proj1 W)) (proj1 (proj2 W))) as P.
    pose proof (all_orders_remove_by_agent agent_id ob (proj1 (proj1 W)) (proj1 (proj2 W))) as A.
    pose proof (wf_remove_by_agent agent_id ob W) as W'.
    destruct (remove_orders_by_agent agent_id ob) as [c ob1]. simpl in A, W'.
    destruct P as (Pp & _ & _ & _ & Pc).
    specialize (IH (fun pid0 ob0 H => Hw pid0 ob0 (or_intror H))).
    destruct (cancel_all agent_id obs) as [c' obs1]. destruct IH as (K & C & G).
    simpl. split; [now rewrite K|]. split; [lia|].
    intros pid0 ob'. destruct (Z.eqb pid0 pid).
    + intros [= <-]. exists ob. auto.
    + apply G.
Qed.

(** X1. [remove_orders_by_agent], for a book whose sides have distinct price keys: the product is kept, each side keeps exactly the orders of the other agents in their order, the count returned is the number of the agent's orders, and that count plus the new size is the old size. *)
Theorem remove_orders_by_agent_spec (agent_id : Z) (b : Book) :
  NoDup (map fst (bids b)) -> NoDup (map fst (asks b)) ->
  let '(n, b') := remove_orders_by_agent agent_id b in
  product b' = product b /\
  flat (bids b') = filter (fun o => negb (Order.agent_id o =? agent_id)) (flat (bids b)) /\
  flat (asks b') = filter (fun o => negb (Order.agent_id o =? agent_id)) (flat (asks b)) /\
  n = length (filter (fun o => Order.agent_id o =? agent_id) (all_orders b)) /\
  (n + book_len b')%nat = book_len b.
Proof. exact (remove_orders_by_agent_props agent_id b). Qed.

(** X2. [remove_orders_by_agent] keeps a well-formed book well formed, and no order of the agent remains in it. *)
Theorem remove_orders_by_agent_keeps_wf (agent_id : Z) (b : Book) :
  wf_book b ->
  let b' := snd (remove_orders_by_agent agent_id b) in
  wf_book b' /\ forall o, In o (all_orders b') -> Order.agent_id o <> agent_id.
Proof.
  intros W. split; [now apply wf_remove_by_agent|].
  intros o. rewrite (all_orders_remove_by_agent agent_id b (proj1 (proj1 W)) (proj1 (proj2 W))).
  rewrite filter_In. intros [_ H] E. rewrite E, Z.eqb_refl in H. discriminate.
Qed.

(** X3. [cancel_agent_orders] without a product id, over well-formed books: the products, the order-id counter and the book keys are unchanged; the count returned plus the new [total_orders] is the old [total_orders]; each book keeps its product, stays well formed and loses exactly the agent's orders. *)
Theorem cancel_agent_orders_all (agent_id : Z) (mo : MO) :
  (forall pid ob, In (pid, ob) (order_books mo) -> wf_book ob) ->
  let '(n, mo') := cancel_agent_orders agent_id None mo in
  products mo' = products mo /\ next_order_id mo' = next_order_id mo /\
  map fst (order_books mo') = map fst (order_books mo) /\
  (n + total_orders mo')%nat = total_orders mo /\
  forall pid ob', dget pid (order_books mo') = Some ob' ->
    exists ob, dget pid (order_books mo) = Some ob /\ product ob' = product ob /\ wf_book ob' /\
      all_orders ob' = filter (fun o => negb (Order.agent_id o =? agent_id)) (all_orders ob).
Proof.
  intros Hw. unfold cancel_agent_orders.
  pose proof (cancel_all_props agent_id (order_books mo) Hw) as P.
  destruct (cancel_all agent_id (order_books mo)) as [n obs']. destruct P as (K & C & G).
  simpl. auto.
Qed.

(** X4. [cancel_agent_orders] with a product id: the other books, the products and the counter are unchanged; for a missing book it returns 0 and the same state; otherwise the book keeps its product, stays well formed, loses exactly the agent's orders, and the count plus its new size is its old size. *)
Theorem cancel_agent_orders_one (agent_id pid : Z) (mo : MO) :
  (forall ob, dget pid (order_books mo) = Some ob -> wf_book ob) ->
  let '(n, mo') := cancel_agent_orders agent_id (Some pid) mo in
  products mo' = products mo /\ next_order_id mo' = next_order_id mo /\
  (forall pid', pid' <> pid -> dget pid' (order_books mo') = dget pid' (order_books mo)) /\
  match dget pid (order_books mo) with
  | None => n = 0%nat /\ mo' = mo
  | Some ob =>
      exists ob', dget pid (order_books mo') = Some ob' /\ product ob' = product ob /\
        wf_book ob' /\
        all_orders ob' = filter (fun o => negb (Order.agent_id o =? agent_id)) (all_orders ob) /\
        (n + book_len ob')%nat = book_len ob
  end.
Proof.
  intros Hw. unfold cancel_agent_orders.
  destruct (dget pid (order_books mo)) as [ob|] eqn:G; [|auto].
  specialize (Hw ob eq_refl).
  pose proof (remove_orders_by_agent_props agent_id ob (proj1 (proj1 Hw)) (proj1 (proj2 Hw))) as P.
  pose proof (all_orders_remove_by_agent agent_id ob (proj1 (proj1 Hw)) (proj1 (proj2 Hw))) as A.
  pose proof (wf_remove_by_agent agent_id ob Hw) as W'.
  destruct (remove_orders_by_agent agent_id ob) as [c ob1]. simpl in A, W'.
  destruct P as (Pp & _ & _ & _ & Pc). simpl.
  split; [reflexivity|]. split; [reflexivity|]. split.
  - intros pid' Hne. rewrite dget_dset. apply Z.eqb_neq in Hne. now rewrite Hne.
  - exists ob1. rewrite dget_dset, Z.eqb_refl. auto.
Qed.

Lemma ddel_absent {V} (k : Z) (d : dict V) : dget k d = None -> ddel k d = d.
Proof.
  induction d as [|[k' v'] d IH]; simpl; [reflexivity|].
  destruct (Z.eqb k k'); [discriminate|]. intros H. now rewrite IH.
Qed.

Lemma list_remove_absent (o : Order.t) (l : list Order.t) : ~ In o l -> list_remove o l = l.
Proof.
  induction l as [|x l IH]; simpl; [reflexivity|]. intros Hn.
  destruct (order_eq_dec x o); [subst; tauto|]. rewrite IH; tauto.
Qed.

Lemma list_remove_last (o : Order.t) (l : list Order.t) : ~ In o l -> list_remove o (l ++ [o]) = l.
Proof.
  induction l as [|x l IH]; simpl; intros Hn.
  - destruct (order_eq_dec o o); [reflexivity|congruence].
  - destruct (order_eq_dec x o); [subst; tauto|]. rewrite IH; tauto.
Qed.

Lemma dsum_dset {V} (f : V -> nat) (k : Z) (v : V) (d : dict V) :
  (fold_right (fun kv acc => (f (snd kv) + acc)%nat) 0%nat (dset k v d) +
   match dget k d with Some old => f old | None => 0%nat end)%nat =
  (fold_right (fun kv acc => (f (snd kv) + acc)%nat) 0%nat d + f v)%nat.
Proof.
  induction d as [|[k' v'] d IH]; simpl; [lia|].
  destruct (Z.eqb k k'); simpl; lia.
Qed.

Lemma side_count_append_level (o : Order.t) (s : BookSide) :
  side_count (append_level o s) = S (side_count s).
Proof.
  unfold append_level. destruct (dget (Order.price o) s) as [lvl|] eqn:G.
  - pose proof (dsum_dset (@length Order.t) (Order.price o) (lvl ++ [o]) s) as E.
    rewrite G, length_app in E. unfold side_count. simpl in E. lia.
  - pose proof (dsum_dset (@length Order.t) (Order.price o) [o] s) as E.
    rewrite G in E. unfold side_count. simpl in E. lia.
Qed.

Lemma remove_from_side_append (o : Order.t) (sd : Side) (s : BookSide) :
  wf_side sd s -> ~ In o (flat s) -> remove_from_side o (append_level o s) = s.
Proof.
  intros [_ Hw] Hn. unfold remove_from_side. rewrite dget_append_level.
  unfold append_level. destruct (dget (Order.price o) s) as [lvl|] eqn:G.
  - assert (Hl : ~ In o lvl) by (intros Hi; apply Hn; exact (dget_flat o _ _ s G Hi)).
    rewrite list_remove_last by exact Hl.
    destruct (Hw _ _ G) as [Hne _].
    destruct lvl as [|x l]; [congruence|].
    rewrite dset_dset. now apply dset_same.
  - simpl. destruct (order_eq_dec o o); [|congruence].
    rewrite ddel_dset. now apply ddel_absent.
Qed.

Lemma remove_from_side_absent (o : Order.t) (sd : Side) (s : BookSide) :
  wf_side sd s -> ~ In o (flat s) -> remove_from_side o s = s.
Proof.
  intros [_ Hw] Hn. unfold remove_from_side.
  destruct (dget (Order.price o) s) as [lvl|] eqn:G; [|reflexivity].
  assert (Hl : ~ In o lvl) by (intros Hi; apply Hn; exact (dget_flat o _ _ s G Hi)).
  rewrite list_remove_absent by exact Hl.
  destruct (Hw _ _ G) as [Hne _]. destruct lvl as [|x l]; [congruence|].
  now apply dset_same.
Qed.

Lemma add_order_cases (o : Order.t) (vt : bool) (tm : option Z) (b : Book) :
  let '(r, b') := add_order o vt tm b in
  (r = Ok tt <->
     Order.product_id o = Product.product_id (product b) /\
     (vt = true -> exists t0, tm = Some t0 /\ is_open b t0 = true)) /\
  (r = Ok tt -> b' = match Order.side o with
                     | BUY => set_bids b (append_level o (bids b))
                     | SELL => set_asks b (append_level o (asks b))
                     end) /\
  (r <> Ok tt -> b' = b).
Proof.
  unfold add_order.
  destruct (Z.eqb_spec (Order.product_id o) (Product.product_id (product b))) as [Hp|Hp]; simpl.
  - destruct vt.
    + destruct tm as [t0|].
      * unfold validate_order_time. destruct (is_open b t0) eqn:Ho.
        -- destruct (Order.side o); simpl;
             (split; [split; [intros _; split; [exact Hp|intros _; exists t0; auto]|reflexivity]|]);
             (split; [reflexivity|intros H; congruence]).
        -- simpl. split; [split; [discriminate|]|].
           ++ intros [_ H]. destruct (H eq_refl) as (t1 & E & H1). injection E as <-. congruence.
           ++ split; [discriminate|reflexivity].
      * simpl. split; [split; [discriminate|]|].
        -- intros [_ H]. destruct (H eq_refl) as (t1 & E & _). discriminate.
        -- split; [discriminate|reflexivity].
    + destruct (Order.side o); simpl;
        (split; [split; [intros _; split; [exact Hp|discriminate]|reflexivity]|]);
        (split; [reflexivity|intros H; congruence]).
  - split; [split; [discriminate|intros [H _]; contradiction]|]. split; [discriminate|reflexivity].
Qed.

(** X5. Adding to a well-formed book an order that is not on its side yet, then removing it, gives back the book (a level emptied by the removal is deleted). *)
Theorem add_order_then_remove_order (o : Order.t) (vt : bool) (tm : option Z) (b b' : Book) :
  wf_book b -> ~ In o (flat (own_side b (Order.side o))) ->
  add_order o vt tm b = (Ok tt, b') -> remove_order o b' = b.
Proof.
  intros [W1 W2] Hn H. pose proof (add_order_cases o vt tm b) as C. rewrite H in C.
  destruct C as (_ & Hb & _). rewrite (Hb eq_refl). unfold remove_order.
  destruct (Order.side o) eqn:Hs; simpl in Hn; unfold set_bids, set_asks; simpl.
  - rewrite (remove_from_side_append o BUY (bids b) W1 Hn). now destruct b.
  - rewrite (remove_from_side_append o SELL (asks b) W2 Hn). now destruct b.
Qed.

(** X6. [remove_order] of an order that is not on its side of a well-formed book leaves the book unchanged. *)
Theorem remove_order_absent (o : Order.t) (b : Book) :
  wf_book b -> ~ In o (flat (own_side b (Order.side o))) -> remove_order o b = b.
Proof.
  intros [W1 W2] Hn. unfold remove_order.
  destruct (Order.side o); simpl in Hn; unfold set_bids, set_asks.
  - rewrite (remove_from_side_absent o BUY (bids b) W1 Hn). now destruct b.
  - rewrite (remove_from_side_absent o SELL (asks b) W2 Hn). now destruct b.
Qed.

(** X7. [add_order] succeeds exactly when the order's product id is the book's and, with time validation on, a tick is given at which the book is open. Then the order is appended at the end of its price level, the size grows by one, the other levels and the other side are unchanged. On an error the book is unchanged. *)
Theorem add_order_insert_lookup (o : Order.t) (vt : bool) (tm : option Z) (b : Book) :
  let '(r, b') := add_order o vt tm b in
  (r = Ok tt <->
     Order.product_id o = Product.product_id (product b) /\
     (vt = true -> exists t0, tm = Some t0 /\ is_open b t0 = true)) /\
  (r = Ok tt ->
     product b' = product b /\ book_len b' = S (book_len b) /\
     own_side b' (Order.side o) <> [] /\
     dget (Order.price o) (own_side b' (Order.side o)) =
       Some (match dget (Order.price o) (own_side b (Order.side o)) with
             | Some lvl => lvl | None => [] end ++ [o]) /\
     (forall k, k <> Order.price o ->
        dget k (own_side b' (Order.side o)) = dget k (own_side b (Order.side o))) /\
     own_side b' (match Order.side o with BUY => SELL | SELL => BUY end) =
       own_side b (match Order.side o with BUY => SELL | SELL => BUY end)) /\
  (r <> Ok tt -> b' = b).
Proof.
  pose proof (add_order_cases o vt tm b) as C.
  destruct (add_order o vt tm b) as [r b']. destruct C as (C1 & C2 & C3).
  split; [exact C1|]. split; [|exact C3].
  intros Hr. rewrite (C2 Hr). unfold book_len.
  destruct (Order.side o); simpl; rewrite ?side_count_append_level.
  - split; [reflexivity|]. split; [lia|]. split.
    { intros E. pose proof (dget_append_level o (bids b)) as G. rewrite E in G. discriminate. }
    split; [apply dget_append_level|]. split; [|reflexivity].
    intros k Hk. unfold append_level. destruct (dget (Order.price o) (bids b));
      rewrite dget_dset; apply Z.eqb_neq in Hk; now rewrite Hk.
  - split; [reflexivity|]. split; [lia|]. split.
    { intros E. pose proof (dget_append_level o (asks b)) as G. rewrite E in G. discriminate. }
    split; [apply dget_append_level|]. split; [|reflexivity].
    intros k Hk. unfold append_level. destruct (dget (Order.price o) (asks b));
      rewrite dget_dset; apply Z.eqb_neq in Hk; now rewrite Hk.
Qed.

Lemma best_head_wf (mx : bool) (sd : Side) (s : BookSide) :
  wf_side sd s ->
  (option_map snd (best_entry (sel mx) s) = None <-> s = []) /\
  forall r, option_map snd (best_entry (sel mx) s) = Some r ->
    In (Order.price r) (map fst s) /\ (forall k, In k (map fst s) -> better mx (Order.price r) k) /\
    exists rest, dget (Order.price r) s = Some (r :: rest).
Proof.
  intros Hwf. destruct s as [|kv s'].
  - split; [tauto|]. intros r H. discriminate.
  - assert (Hne : kv :: s' <> []) by discriminate. revert Hwf Hne. generalize (kv :: s') as s.
    intros s Hwf Hne.

    destruct (best_entry_wf mx sd s Hwf Hne) as (k & r & rest & Hbe & Hl & _ & Hin & Hbt).
    rewrite Hbe. simpl.
    destruct (wf_level sd s k (r :: rest) r Hwf Hl (or_introl eq_refl)) as [Hp _].
    split; [split; [discriminate|intros E; contradiction]|].
    intros r' [= <-]. rewrite Hp. split; [exact Hin|]. split; [exact Hbt|]. exists rest. exact Hl.
Qed.

Lemma dget_none_notin {V} (k : Z) (d : dict V) : dget k d = None -> ~ In k (map fst d).
Proof. intros G Hi. destruct (in_keys_dget k d Hi) as [v G']. congruence. Qed.

(** X8. [get_tob] raises only when the product has no book. Otherwise, for a well-formed book, a best price is None exactly when its side is empty; the best bid is the highest bid key, the best ask the lowest ask key, and the volume is that of the first order of that level. *)
Theorem get_tob_best (pid : Z) (mo : MO) :
  (forall ob, dget pid (order_books mo) = Some ob -> wf_book ob) ->
  match get_tob pid mo with
  | Err _ => ~ In pid (map fst (order_books mo))
  | Ok tob =>
      exists ob, dget pid (order_books mo) = Some ob /\
      (TopOfBook.best_bid_price tob = None <-> bids ob = []) /\
      (TopOfBook.best_ask_price tob = None <-> asks ob = []) /\
      (forall p, TopOfBook.best_bid_price tob = Some p ->
         In p (map fst (bids ob)) /\ (forall k, In k (map fst (bids ob)) -> k <= p) /\
         exists r rest, dget p (bids ob) = Some (r :: rest) /\
           TopOfBook.best_bid_volume tob = Some (Order.volume r)) /\
      (forall p, TopOfBook.best_ask_price tob = Some p ->
         In p (map fst (asks ob)) /\ (forall k, In k (map fst (asks ob)) -> p <= k) /\
         exists r rest, dget p (asks ob) = Some (r :: rest) /\
           TopOfBook.best_ask_volume tob = Some (Order.volume r))
  end.
Proof.
  intros Hw. unfold get_tob.
  destruct (dget pid (order_books mo)) as [ob|] eqn:G; [|now apply dget_none_notin].
  destruct (Hw ob eq_refl) as [W1 W2]. exists ob. split; [reflexivity|]. simpl.
  unfold best_bid, best_ask.
  change Z.max with (sel true). change Z.min with (sel false).
  destruct (best_head_wf true BUY (bids ob) W1) as [B1 B2].
  destruct (best_head_wf false SELL (asks ob) W2) as [A1 A2].
  destruct (option_map snd (best_entry (sel true) (bids ob))) as [rb|] eqn:Eb;
  destruct (option_map snd (best_entry (sel false) (asks ob))) as [ra|] eqn:Ea; simpl;
  (split; [rewrite <- B1; split; congruence|]);
  (split; [rewrite <- A1; split; congruence|]);
  split; intros p [= <-];
  try (destruct (B2 _ eq_refl) as (Hi & Hb & rest & Hl); split; [exact Hi|]; split; [exact Hb|];
       exists rb, rest; split; [exact Hl|reflexivity]);
  try (destruct (A2 _ eq_refl) as (Hi & Hb & rest & Hl); split; [exact Hi|]; split; [exact Hb|];
       exists ra, rest; split; [exact Hl|reflexivity]).
Qed.

Lemma NoDup_keys_filter {V} (f : Z * V -> bool) (d : dict V) :
  NoDup (map fst d) -> NoDup (map fst (filter f d)).
Proof.
  induction d as [|[k v] d IH]; simpl; intros Hnd; [constructor|].
  inversion Hnd as [|? ? Hn Hnd']; subst.
  destruct (f (k, v)); simpl; [|auto]. constructor; [|auto].
  intros Hi. apply Hn. apply in_map_iff in Hi as ([k' v'] & E & Hi). simpl in E. subst k'.
  apply filter_In in Hi as [Hi _]. apply (in_map fst) in Hi. exact Hi.
Qed.

Lemma keys_filter_in {V} (f : Z * V -> bool) (d : dict V) (k : Z) :
  In k (map fst (filter f d)) -> In k (map fst d).
Proof.
  intros Hi. apply in_map_iff in Hi as ([k' v'] & E & Hi). simpl in E. subst k'.
  apply filter_In in Hi as [Hi _]. apply (in_map fst) in Hi. exact Hi.
Qed.

Lemma public_info_loop_ok (mo : MO) (ids : list Z) (acc : dict PublicInfo.t) :
  NoDup ids ->
  (forall pid, In pid ids -> In pid (map fst (order_books mo)) /\ In pid (map fst (products mo))) ->
  (forall pid, In pid ids -> ~ In pid (map fst acc)) ->
  (forall pid info, dget pid acc = Some info ->
     get_tob pid mo = Ok (PublicInfo.tob info) /\
     dget pid (products mo) = Some (PublicInfo.product info) /\
     PublicInfo.da_price info = Product.da_price (PublicInfo.product info)) ->
  exists d, public_info_loop ids mo acc = Ok d /\ map fst d = map fst acc ++ ids /\
    forall pid info, dget pid d = Some info ->
      get_tob pid mo = Ok (PublicInfo.tob info) /\
      dget pid (products mo) = Some (PublicInfo.product info) /\
      PublicInfo.da_price info = Product.da_price (PublicInfo.product info).
Proof.
  revert acc. induction ids as [|pid ids IH]; intros acc Hnd Hin Hfresh Hacc.
  - exists acc. simpl. rewrite app_nil_r. auto.
  - inversion Hnd as [|? ? Hn Hnd']; subst.
    destruct (Hin pid (or_introl eq_refl)) as [Hb Hp].
    destruct (in_keys_dget pid _ Hp) as [p Gp].
    destruct (in_keys_dget pid _ Hb) as [ob Gb].
    simpl. rewrite Gp. unfold get_tob at 1. rewrite Gb.
    set (tob := TopOfBook.mk _ _ _ _).
    assert (Htob : get_tob pid mo = Ok tob) by (unfold get_tob; now rewrite Gb).
    destruct (IH (dset pid (PublicInfo.mk tob (Product.da_price p) p) acc)) as (d & E & K & P).
    + exact Hnd'.
    + intros x Hx. apply Hin. now right.
    + intros x Hx. rewrite keys_dset_notin by (apply Hfresh; now left).
      rewrite in_app_iff. intros [H|[H|[]]]; [exact (Hfresh x (or_intror Hx) H)|subst; contradiction].
    + intros x info. rewrite dget_dset. destruct (Z.eqb x pid) eqn:Ex.
      * apply Z.eqb_eq in Ex. subst x. intros [= <-]. simpl. auto.
      * apply Hacc.
    + exists d. split; [exact E|]. split; [|exact P].
      rewrite K, keys_dset_notin by (apply Hfresh; now left). rewrite <- app_assoc. reflexivity.
Qed.

(** X9. [get_public_info] without product ids, when the book keys are distinct and all are product keys: it does not raise, its keys are [get_open_products], and each entry holds the [get_tob] of its product, the product itself and its day-ahead price. *)
Theorem get_public_info_open (tm : Z) (mo : MO) :
  NoDup (map fst (order_books mo)) ->
  (forall pid, In pid (map fst (order_books mo)) -> In pid (map fst (products mo))) ->
  exists d, get_public_info tm None mo = Ok d /\ map fst d = get_open_products tm mo /\
    forall pid info, dget pid d = Some info ->
      get_tob pid mo = Ok (PublicInfo.tob info) /\
      dget pid (products mo) = Some (PublicInfo.product info) /\
      PublicInfo.da_price info = Product.da_price (PublicInfo.product info).
Proof.
  intros Hnd Hsub. unfold get_public_info, get_open_products.
  destruct (public_info_loop_ok mo (map fst (filter (fun kv => is_open (snd kv) tm) (order_books mo))) [])
    as (d & E & K & P).
  - now apply NoDup_keys_filter.
  - intros pid Hi. apply keys_filter_in in Hi. auto.
  - intros pid _ [].
  - intros pid info [=].
  - exists d. split; [exact E|]. split; [exact K|exact P].
Qed.

Lemma apply_status_some (pid : Z) (p : Product.t) (s : ProductStatus) (mo : MO) (ob : Book) :
  dget pid (order_books mo) = Some ob ->
  apply_status pid p s mo =
    (Ok tt, mkMO (dset pid (Product.update_status p s) (products mo))
                 (dset pid (set_product ob (Product.update_status p s)) (order_books mo))
                 (next_order_id mo)).
Proof. intros G. unfold apply_status, update_book. simpl. now rewrite G. Qed.

Section OpenLoop.
Variable tm : Z.
Let due := fun p : Product.t => status_eqb (Product.status p) PENDING && (Product.gate_open p <=? tm).

Lemma open_loop_ok (items : dict Product.t) (opened : list Z) (mo : MO) :
  NoDup (map fst items) ->
  (forall pid p, In (pid, p) items ->
     dget pid (products mo) = Some p /\ In pid (map fst (products mo)) /\
     In pid (map fst (order_books mo))) ->
  exists mo', open_loop tm items opened mo =
              (Ok (opened ++ map fst (filter (fun kv => due (snd kv)) items)), mo') /\
    next_order_id mo' = next_order_id mo /\
    map fst (products mo') = map fst (products mo) /\
    map fst (order_books mo') = map fst (order_books mo) /\
    (forall pid, ~ In pid (map fst items) ->
       dget pid (products mo') = dget pid (products mo) /\
       dget pid (order_books mo') = dget pid (order_books mo)) /\
    (forall pid p, In (pid, p) items ->
       dget pid (products mo') = Some (if due p then Product.update_status p OPEN else p) /\
       forall ob, dget pid (order_books mo) = Some ob ->
         dget pid (order_books mo') =
           Some (if due p then set_product ob (Product.update_status p OPEN) else ob)).
Proof.
  revert opened mo. induction items as [|[pid0 p0] rest IH]; intros opened mo Hnd Hin.
  - exists mo. simpl. rewrite app_nil_r. split; [reflexivity|]. split; [reflexivity|]. split; [reflexivity|]. split; [reflexivity|]. split; [auto|]. intros ? ? [].
  - simpl in Hnd. inversion Hnd as [|? ? Hnot Hnd']; subst.
    destruct (Hin pid0 p0 (or_introl eq_refl)) as (G0 & Kp & Kb).
    assert (Hne : forall pid p, In (pid, p) rest -> pid <> pid0).
    { intros pid p Hr ->. apply Hnot. apply in_map_iff. exists (pid0, p). auto. }
    destruct (due p0) eqn:Hd.
    + destruct (in_keys_dget pid0 _ Kb) as [ob Gb].
      set (mo1 := mkMO (dset pid0 (Product.update_status p0 OPEN) (products mo))
                       (dset pid0 (set_product ob (Product.update_status p0 OPEN)) (order_books mo))
                       (next_order_id mo)).
      assert (Hstep : open_loop tm ((pid0, p0) :: rest) opened mo = open_loop tm rest (opened ++ [pid0]) mo1).
      { simpl. unfold due in Hd. destruct (Product.status p0); simpl in Hd; try discriminate.
        rewrite Hd. now rewrite (apply_status_some pid0 p0 OPEN mo ob Gb). }
      assert (K1 : map fst (products mo1) = map fst (products mo)) by (simpl; now apply keys_dset_in).
      assert (K2 : map fst (order_books mo1) = map fst (order_books mo)) by (simpl; now apply keys_dset_in).
      destruct (IH (opened ++ [pid0]) mo1 Hnd') as (mo' & E & Hn & Kp' & Kb' & Hfr & Hit).
      { intros pid p Hr. destruct (Hin pid p (or_intror Hr)) as (G & H1 & H2).
        simpl. rewrite (keys_dset_in pid0 _ (products mo) Kp), (keys_dset_in pid0 _ (order_books mo) Kb).
        split; [|auto]. rewrite dget_dset.
        pose proof (Hne pid p Hr) as Hx; apply Z.eqb_neq in Hx. now rewrite Hx. }
      exists mo'. rewrite Hstep, E. simpl. rewrite Hd. simpl.
      split; [now rewrite <- app_assoc|].
      split; [exact Hn|]. split; [congruence|]. split; [congruence|]. split.
      * intros pid Hni. destruct (Hfr pid (fun H => Hni (or_intror H))) as [E1 E2].
        assert (Hx : (pid =? pid0) = false) by (apply Z.eqb_neq; intros ->; apply Hni; now left).
        rewrite E1, E2. simpl. rewrite !dget_dset, Hx. auto.
      * intros pid p [Ep|Hr].
        -- injection Ep as <- <-. destruct (Hfr pid0 Hnot) as [E1 E2]. rewrite Hd.
           rewrite E1, E2. simpl. rewrite !dget_dset, Z.eqb_refl. split; [reflexivity|].
           intros ob0 Gb0. rewrite Gb in Gb0. now injection Gb0 as <-.
        -- destruct (Hit pid p Hr) as [H1 H2]. split; [exact H1|].
           intros ob0 Gb0. apply H2. simpl. rewrite dget_dset.
           pose proof (Hne pid p Hr) as Hx; apply Z.eqb_neq in Hx. now rewrite Hx.
    + assert (Hstep : open_loop tm ((pid0, p0) :: rest) opened mo = open_loop tm rest opened mo).
      { simpl. unfold due in Hd. destruct (Product.status p0); simpl in Hd; try reflexivity.
        now rewrite Hd. }
      destruct (IH opened mo Hnd') as (mo' & E & Hn & Kp' & Kb' & Hfr & Hit).
      { intros pid p Hr. apply Hin. now right. }
      exists mo'. rewrite Hstep, E. simpl. rewrite Hd.
      split; [reflexivity|]. split; [exact Hn|]. split; [exact Kp'|]. split; [exact Kb'|]. split.
      * intros pid Hni. apply Hfr. intros H. apply Hni. now right.
      * intros pid p [Ep|Hr].
        -- injection Ep as <- <-. rewrite Hd. destruct (Hfr pid0 Hnot) as [E1 E2].
           rewrite E1, E2. split; [exact G0|auto].
        -- now apply Hit.
Qed.
End OpenLoop.

Lemma open_products_props (tm : Z) (mo : MO) :
  NoDup (map fst (products mo)) ->
  (forall pid, In pid (map fst (products mo)) -> In pid (map fst (order_books mo))) ->
  let due := fun p : Product.t => status_eqb (Product.status p) PENDING && (Product.gate_open p <=? tm) in
  exists mo', open_products tm mo = (Ok (map fst (filter (fun kv => due (snd kv)) (products mo))), mo') /\
    next_order_id mo' = next_order_id mo /\
    map fst (products mo') = map fst (products mo) /\
    map fst (order_books mo') = map fst (order_books mo) /\
    (forall pid, ~ In pid (map fst (products mo)) ->
       dget pid (order_books mo') = dget pid (order_books mo)) /\
    (forall pid p, dget pid (products mo) = Some p ->
       dget pid (products mo') = Some (if due p then Product.update_status p OPEN else p) /\
       forall ob, dget pid (order_books mo) = Some ob ->
         dget pid (order_books mo') =
           Some (if due p then set_product ob (Product.update_status p OPEN) else ob)).
Proof.
  intros Hnd Hsub due. unfold open_products.
  destruct (open_loop_ok tm (products mo) [] mo Hnd) as (mo' & E & Hn & Kp & Kb & Hfr & Hit).
  { intros pid p Hi. split; [now apply In_dget|].
    assert (Hk : In pid (map fst (products mo))) by (apply (in_map fst) in Hi; exact Hi).
    split; [exact Hk|]. now apply Hsub. }
  exists mo'. split; [exact E|]. split; [exact Hn|]. split; [exact Kp|]. split; [exact Kb|]. split.
  - intros pid Hni. apply (Hfr pid Hni).
  - intros pid p G. apply Hit. now apply dget_In.
Qed.

(** X10. [open_products], with distinct product keys that all have a book: it returns the ids of the Pending products whose gate is open at the tick, in table order; exactly those products (and the product of their books) become Open, the rest is unchanged, keys and counter included. *)
Theorem open_products_spec (tm : Z) (mo : MO) :
  NoDup (map fst (products mo)) ->
  (forall pid, In pid (map fst (products mo)) -> In pid (map fst (order_books mo))) ->
  let due := fun p : Product.t => status_eqb (Product.status p) PENDING && (Product.gate_open p <=? tm) in
  exists mo', open_products tm mo = (Ok (map fst (filter (fun kv => due (snd kv)) (products mo))), mo') /\
    next_order_id mo' = next_order_id mo /\
    map fst (products mo') = map fst (products mo) /\
    map fst (order_books mo') = map fst (order_books mo) /\
    (forall pid, ~ In pid (map fst (products mo)) ->
       dget pid (order_books mo') = dget pid (order_books mo)) /\
    (forall pid p, dget pid (products mo) = Some p ->
       dget pid (products mo') = Some (if due p then Product.update_status p OPEN else p) /\
       forall ob, dget pid (order_books mo) = Some ob ->
         dget pid (order_books mo') =
           Some (if due p then set_product ob (Product.update_status p OPEN) else ob)).
Proof. exact (open_products_props tm mo). Qed.

(** X11. After [open_products] at a tick inside a Pending product's trading window, the product is reported by [get_open_products] at that tick. *)
Theorem open_products_tradable (tm : Z) (mo : MO) (pid : Z) (p : Product.t) :
  NoDup (map fst (products mo)) ->
  (forall k, In k (map fst (products mo)) -> In k (map fst (order_books mo))) ->
  dget pid (products mo) = Some p -> Product.status p = PENDING ->
  Product.gate_open p <= tm < Product.gate_close p ->
  In pid (get_open_products tm (snd (open_products tm mo))).
Proof.
  intros Hnd Hsub G Hs Hw.
  destruct (open_products_props tm mo Hnd Hsub) as (mo' & E & _ & _ & _ & _ & Hit).
  rewrite E. simpl. destruct (Hit pid p G) as [_ Hb].
  assert (Kb : In pid (map fst (order_books mo))).
  { apply Hsub. apply (in_map fst (products mo) (pid, p)). now apply dget_In. }
  destruct (in_keys_dget pid _ Kb) as [ob Gb].
  specialize (Hb ob Gb). rewrite Hs in Hb. simpl in Hb.
  assert (Ho : (Product.gate_open p <=? tm) = true) by (apply Z.leb_le; lia).
  rewrite Ho in Hb. simpl in Hb.
  unfold get_open_products. apply in_map_iff.
  exists (pid, set_product ob (Product.update_status p OPEN)). split; [reflexivity|].
  apply filter_In. split; [now apply dget_In|].
  unfold is_open, Product.is_open. simpl. rewrite Ho. simpl. apply Z.ltb_lt. lia.
Qed.

Lemma side_count_ddel (k : Z) (s : BookSide) : (side_count (ddel k s) <= side_count s)%nat.
Proof.
  unfold side_count. induction s as [|[k' v'] s IH]; simpl; [lia|].
  destruct (Z.eqb k k'); simpl; lia.
Qed.

Lemma list_remove_length (o : Order.t) (l : list Order.t) :
  (length (list_remove o l) <= length l)%nat.
Proof.
  induction l as [|x l IH]; simpl; [lia|]. destruct (order_eq_dec x o); simpl; lia.
Qed.

Lemma side_count_remove_from_side (o : Order.t) (s : BookSide) :
  (side_count (remove_from_side o s) <= side_count s)%nat.
Proof.
  unfold remove_from_side. destruct (dget (Order.price o) s) as [lvl|] eqn:G; [|lia].
  pose proof (list_remove_length o lvl) as Hl.
  destruct (list_remove o lvl) as [|x l'] eqn:R; [apply side_count_ddel|].
  pose proof (dsum_dset (@length Order.t) (Order.price o) (x :: l') s) as E.
  rewrite G in E. unfold side_count. simpl in E, Hl |- *. lia.
Qed.

Lemma book_len_remove_order (o : Order.t) (b : Book) : (book_len (remove_order o b) <= book_len b)%nat.
Proof.
  unfold remove_order, book_len. destruct (Order.side o); simpl;
    pose proof (side_count_remove_from_side o (bids b));
    pose proof (side_count_remove_from_side o (asks b)); lia.
Qed.

Lemma best_entry_dget (sl : Z -> Z -> Z) (s : BookSide) (k : Z) (r : Order.t) :
  best_entry sl s = Some (k, r) -> exists rest, dget k s = Some (r :: rest).
Proof.
  unfold best_entry. destruct s as [|[k0 v0] s']; [discriminate|].
  destruct (dget _ _) as [[|x l]|] eqn:E; try discriminate.
  intros H. injection H as <- <-. eauto.
Qed.

Lemma side_count_set_level_head (sl : Z -> Z -> Z) (s : BookSide) (k : Z) (r r1 : Order.t) :
  best_entry sl s = Some (k, r) -> side_count (set_level_head k r1 s) = side_count s.
Proof.
  intros Hb. destruct (best_entry_dget sl s k r Hb) as [rest G].
  unfold set_level_head. rewrite G.
  pose proof (dsum_dset (@length Order.t) k (r1 :: rest) s) as E. rewrite G in E.
  unfold side_count. simpl in E |- *. lia.
Qed.

Lemma set_volume_set_volume (o : Order.t) (v w : Z) :
  Order.set_volume (Order.set_volume o v) w = Order.set_volume o w.
Proof. reflexivity. Qed.

Lemma set_volume_self (o : Order.t) : Order.set_volume o (Order.volume o) = o.
Proof. now destruct o. Qed.

Lemma match_loop_shrinks sl bl mk gs ps
  (Hps : forall b s, (book_len (ps b s) + side_count (gs b) = book_len b + side_count s)%nat)
  (f : nat) :
  forall tm inc b, let '(_, inc', b') := match_loop sl bl mk gs ps f tm inc b in
  (book_len b' <= book_len b)%nat /\ exists v, inc' = Order.set_volume inc v.
Proof.
  induction f as [|f IH]; intros tm inc b; simpl.
  { split; [lia|]. exists (Order.volume inc). now rewrite set_volume_self. }
  destruct (0 <? Order.volume inc);
    [|split; [lia|]; exists (Order.volume inc); now rewrite set_volume_self].
  destruct (best_entry sl (gs b)) as [[k r]|] eqn:Hb;
    [|split; [lia|]; exists (Order.volume inc); now rewrite set_volume_self].
  destruct (bl _ _); [split; [lia|]; exists (Order.volume inc); now rewrite set_volume_self|].
  match goal with |- context [match_loop _ _ _ _ _ f tm ?i ?bb] =>
    specialize (IH tm i bb); destruct (match_loop _ _ _ _ _ f tm i bb) as [[ts i2] b3]
  end.
  destruct IH as [Hl [v Hv]]. split.
  - pose proof (Hps b (set_level_head k (Order.set_volume r (Order.volume r - Z.min (Order.volume inc) (Order.volume r))) (gs b))) as E.
    rewrite (side_count_set_level_head sl (gs b) k r _ Hb) in E.
    match type of Hl with (book_len b3 <= book_len ?bb)%nat =>
      assert (book_len bb <= book_len (ps b (set_level_head k (Order.set_volume r (Order.volume r - Z.min (Order.volume inc) (Order.volume r))) (gs b))))%nat
        by (destruct (_ <=? 0); [apply book_len_remove_order|lia])
    end. lia.
  - exists v. rewrite Hv. apply set_volume_set_volume.
Qed.

Lemma match_order_shrinks (b : Book) (inc : Order.t) (tm : Z) :
  let '(_, inc', b') := match_order b inc tm in
  (book_len b' <= book_len b)%nat /\ exists v, inc' = Order.set_volume inc v.
Proof.
  unfold match_order, match_buy, match_sell.
  destruct (Order.side inc); apply match_loop_shrinks; intros; unfold book_len; simpl; lia.
Qed.

(** X12. [process_order] never increases the number of resting orders by more than one, and never increases it for an order that is not good-till-cancelled. *)
Theorem process_order_total_orders (o : Order.t) (tm : Z) (vt : bool) (mo : MO) :
  (total_orders (snd (process_order o tm vt mo)) <=
   total_orders mo + if is_gtc (Order.time_in_force o) then 1 else 0)%nat.
Proof.
  unfold process_order.
  destruct (dget (Order.product_id o) (order_books mo)) as [ob|] eqn:G; [|simpl; lia].
  destruct (if vt then validate_order_time ob tm else Ok tt) as [[]|e]; [|simpl; lia].
  pose proof (match_order_shrinks ob (Order.assign_id o (next_order_id mo) tm) tm) as S.
  destruct (match_order ob (Order.assign_id o (next_order_id mo) tm) tm) as [[trades o2] ob1].
  destruct S as [Hl [v Hv]].
  assert (Ht : Order.time_in_force o2 = Order.time_in_force o) by (now rewrite Hv).
  unfold total_orders.
  destruct ((0 <? Order.volume o2) && is_gtc (Order.time_in_force o2)) eqn:Hg.
  - apply andb_prop in Hg. destruct Hg as [_ Hg]. rewrite Ht in Hg. rewrite Hg.
    pose proof (add_order_cases o2 false None ob1) as C.
    destruct (add_order o2 false None ob1) as [r ob2]. destruct C as (_ & C2 & C3).
    assert (Hl2 : (book_len ob2 <= S (book_len ob1))%nat).
    { destruct r as [[]|e].
      - rewrite (C2 eq_refl). unfold book_len.
        destruct (Order.side o2); simpl; rewrite side_count_append_level; lia.
      - rewrite (C3 ltac:(discriminate)). lia. }
    pose proof (dsum_dset book_len (Order.product_id o) ob2 (order_books mo)) as E.
    rewrite G in E. destruct r; simpl; lia.
  - pose proof (dsum_dset book_len (Order.product_id o) ob1 (order_books mo)) as E.
    rewrite G in E. simpl. lia.
Qed.

(** X14. [ProductConfig.to_product] with a gate-close offset between 0 and the gate-open offset (in minutes) and a non-negative duration gives gate open <= gate close <= delivery start <= delivery end, a delivery of the given duration, and status Pending. *)
Theorem to_product_window (c : ProductConfig.t) :
  0 <= ProductConfig.gate_close_offset_minutes c <= ProductConfig.gate_open_offset_hours c * 60 ->
  0 <= ProductConfig.delivery_duration c ->
  let p := ProductConfig.to_product c in
  Product.gate_open p <= Product.gate_close p <= Product.delivery_start p /\
  Product.delivery_start p <= Product.delivery_end p /\
  Product.delivery_end p - Product.delivery_start p = Product.duration p /\
  Product.status p = PENDING.
Proof. intros H1 H2. simpl. repeat split; lia. Qed.

Lemma nth_error_map_seq {A} (f : nat -> A) (n i : nat) :
  (i < n)%nat -> nth_error (map f (seq 0 n)) i = Some (f i).
Proof.
  intros Hi. rewrite nth_error_map, nth_error_seq.
  destruct (Nat.ltb_spec i n); [reflexivity|lia].
Qed.

(** X15. [create_hourly_products] raises exactly when day-ahead prices are given with a length other than n_hours. Otherwise it returns n_hours Pending products with ids 0..n-1, the i-th delivered from start + 60i for 60 minutes, with gates at the given offsets and the i-th price (50 by default). *)
Theorem create_hourly_products_spec (n_hours : nat) (start_time goh gcm : Z)
    (da_prices : option (list Z)) :
  match create_hourly_products n_hours start_time goh gcm da_prices with
  | Err _ => exists l, da_prices = Some l /\ length l <> n_hours
  | Ok ps =>
      match da_prices with Some l => length l = n_hours | None => True end /\
      length ps = n_hours /\ NoDup (map Product.product_id ps) /\
      forall i, (i < n_hours)%nat -> exists p, nth_error ps i = Some p /\
        Product.product_id p = Z.of_nat i /\
        Product.delivery_start p = start_time + Z.of_nat i * 60 /\
        Product.delivery_end p = Product.delivery_start p + 60 /\
        Product.gate_open p = Product.delivery_start p - goh * 60 /\
        Product.gate_close p = Product.delivery_start p - gcm /\
        Product.da_price p = match da_prices with Some l => nth i l 0 | None => 50 end /\
        Product.status p = PENDING
  end.
Proof.
  unfold create_hourly_products.
  assert (Hok : forall das, (forall i, (i < n_hours)%nat ->
      nth i das 0 = match da_prices with Some l => nth i l 0 | None => 50 end) ->
    let ps := map (fun i => ProductConfig.to_product
                   (ProductConfig.mk (Z.of_nat i) (start_time + Z.of_nat i * 60) 60
                      goh gcm (nth i das 0))) (seq 0 n_hours) in
    length ps = n_hours /\ NoDup (map Product.product_id ps) /\
      forall i, (i < n_hours)%nat -> exists p, nth_error ps i = Some p /\
        Product.product_id p = Z.of_nat i /\
        Product.delivery_start p = start_time + Z.of_nat i * 60 /\
        Product.delivery_end p = Product.delivery_start p + 60 /\
        Product.gate_open p = Product.delivery_start p - goh * 60 /\
        Product.gate_close p = Product.delivery_start p - gcm /\
        Product.da_price p = match da_prices with Some l => nth i l 0 | None => 50 end /\
        Product.status p = PENDING).
  { intros das Hd ps. split; [unfold ps; now rewrite length_map, length_seq|]. split.
    - unfold ps. rewrite map_map. simpl.
      apply (NoDup_map_inv Z.to_nat). rewrite map_map.
      erewrite map_ext; [rewrite map_id; apply seq_NoDup|]. intros x. simpl. apply Nat2Z.id.
    - intros i Hi. eexists. split; [unfold ps; apply (nth_error_map_seq _ _ _ Hi)|].
      simpl. rewrite (Hd i Hi). repeat split; lia. }
  destruct da_prices as [l|].
  - destruct (Nat.eqb_spec (length l) n_hours) as [Hl|Hl]; [|eauto].
    destruct (Hok l (fun i _ => eq_refl)) as (A & B & C). auto.
  - destruct (Hok (repeat 50 n_hours)) as (A & B & C).
    { intros i Hi. apply nth_repeat_lt. exact Hi. }
    auto.
Qed.

Lemma generate_realistic_da_price_range (hour quarter : Z) (season : string)
    (base_price volatility draw : Z) :
  10 <= generate_realistic_da_price hour quarter season base_price volatility draw <= 150.
Proof. unfold generate_realistic_da_price. lia. Qed.

Section Quarterly.
Variables (start_time goh gcm : Z) (season : string) (base_da_price volatility : Z)
  (draws : nat -> Z).

Let gen (h q : nat) : Product.t :=
  ProductConfig.to_product
    (ProductConfig.mk (Z.of_nat (4 * h + q)) (start_time + Z.of_nat h * 60 + Z.of_nat q * 15) 15
       goh gcm (generate_realistic_da_price (Z.of_nat h) (Z.of_nat q) season base_da_price
                  volatility (draws (4 * h + q)))).

Let hour_body := fun acc hour =>
  fold_left (quarterly_step start_time goh gcm season base_da_price volatility draws hour)
            (seq 0 4) acc.

Lemma hour_fold (h : nat) (L : list Product.t) :
  hour_body (L, (4 * h)%nat) h = (L ++ [gen h 0; gen h 1; gen h 2; gen h 3], (4 * h + 4)%nat).
Proof.
  unfold hour_body. cbn [fold_left seq quarterly_step].
  rewrite <- !app_assoc. cbn [app]. unfold gen.
  rewrite Nat.add_0_r. f_equal; [|lia]. repeat f_equal; lia.
Qed.

Lemma quarterly_fold (n : nat) :
  let acc := fold_left hour_body (seq 0 n) ([], 0%nat) in
  snd acc = (4 * n)%nat /\ length (fst acc) = (4 * n)%nat /\
  forall h q, (h < n)%nat -> (q < 4)%nat -> nth_error (fst acc) (4 * h + q) = Some (gen h q).
Proof.
  induction n as [|n IH].
  - simpl. split; [reflexivity|]. split; [reflexivity|]. intros; lia.
  - cbv zeta. rewrite seq_S, fold_left_app. cbv zeta in IH.
    destruct (fold_left hour_body (seq 0 n) ([], 0%nat)) as [L c].
    cbn [fst snd] in IH. destruct IH as (Hc & Hl & Hn). subst c.
    cbn [fold_left]. rewrite hour_fold. cbn [fst snd].
    split; [lia|]. rewrite length_app. cbn [length]. split; [lia|].
    intros h q Hh Hq.
    destruct (Nat.ltb_spec h n) as [Hlt|Hge].
    + rewrite nth_error_app1 by lia. now apply Hn.
    + assert (h = n) by lia. subst h. rewrite nth_error_app2 by lia.
      replace (4 * n + q - length L)%nat with q by lia.
      destruct q as [|[|[|[|q]]]]; try reflexivity; lia.
Qed.
End Quarterly.

(** X16. [create_quarterly_products] returns 4 products per hour; the product at index 4h+q has id 4h+q, delivery from start + 15(4h+q) for 15 minutes, gates at the given offsets, status Pending, and the day-ahead price of hour h, quarter q, which lies in [10, 150]. *)
Theorem create_quarterly_products_spec (n_hours : nat) (start_time goh gcm : Z) (season : string)
    (base_da_price price_volatility : Z) (add_stochastic_volatility : bool) (draws : nat -> Z) :
  let ps := create_quarterly_products n_hours start_time goh gcm season base_da_price
              price_volatility add_stochastic_volatility draws in
  let volatility := if add_stochastic_volatility then price_volatility else 0 in
  length ps = (4 * n_hours)%nat /\
  forall h q, (h < n_hours)%nat -> (q < 4)%nat ->
    exists p, nth_error ps (4 * h + q) = Some p /\
      Product.product_id p = Z.of_nat (4 * h + q) /\
      Product.delivery_start p = start_time + Z.of_nat (4 * h + q) * 15 /\
      Product.delivery_end p = Product.delivery_start p + 15 /\
      Product.gate_open p = Product.delivery_start p - goh * 60 /\
      Product.gate_close p = Product.delivery_start p - gcm /\
      Product.da_price p = generate_realistic_da_price (Z.of_nat h) (Z.of_nat q) season
                             base_da_price volatility (draws (4 * h + q)%nat) /\
      10 <= Product.da_price p <= 150 /\
      Product.status p = PENDING.
Proof.
  intros ps volatility.
  destruct (quarterly_fold start_time goh gcm season base_da_price volatility draws n_hours)
    as (_ & Hl & Hn).
  split; [exact Hl|]. intros h q Hh Hq. eexists. split; [exact (Hn h q Hh Hq)|].
  pose proof (generate_realistic_da_price_range (Z.of_nat h) (Z.of_nat q) season
                base_da_price volatility (draws (4 * h + q)%nat)).
  cbn [ProductConfig.to_product ProductConfig.product_id ProductConfig.delivery_start
       ProductConfig.delivery_duration ProductConfig.gate_open_offset_hours
       ProductConfig.gate_close_offset_minutes ProductConfig.da_price Product.product_id
       Product.delivery_start Product.delivery_end Product.gate_open Product.gate_close
       Product.da_price Product.status].
  repeat split; lia.
Qed.

Lemma generate_realistic_da_price_no_draw (hour quarter : Z) (season : string)
    (base_price volatility d1 d2 : Z) :
  volatility <= 0 ->
  generate_realistic_da_price hour quarter season base_price volatility d1 =
  generate_realistic_da_price hour quarter season base_price volatility d2.
Proof.
  intros Hv. unfold generate_realistic_da_price.
  destruct (Z.ltb_spec 0 volatility); [lia|reflexivity].
Qed.

Lemma fold_left_ext_pw {A B} (f g : A -> B -> A) (l : list B) (a : A) :
  (forall x y, f x y = g x y) -> fold_left f l a = fold_left g l a.
Proof. revert a. induction l as [|y l IH]; intros a H; simpl; [reflexivity|]. rewrite H. auto. Qed.

(** X17. Without stochastic volatility (flag off or volatility <= 0), [create_quarterly_products] does not depend on the random draws. *)
Theorem create_quarterly_products_draws_unused (n_hours : nat) (start_time goh gcm : Z)
    (season : string) (base_da_price price_volatility : Z) (add_stochastic_volatility : bool)
    (draws1 draws2 : nat -> Z) :
  add_stochastic_volatility = false \/ price_volatility <= 0 ->
  create_quarterly_products n_hours start_time goh gcm season base_da_price price_volatility
    add_stochastic_volatility draws1 =
  create_quarterly_products n_hours start_time goh gcm season base_da_price price_volatility
    add_stochastic_volatility draws2.
Proof.
  intros H. unfold create_quarterly_products.
  assert (Hv : (if add_stochastic_volatility then price_volatility else 0) <= 0)
    by (destruct H as [->|H]; [lia|destruct add_stochastic_volatility; lia]).
  f_equal. apply fold_left_ext_pw. intros acc hour. apply fold_left_ext_pw.
  intros [ps k] quarter. unfold quarterly_step.
  rewrite (generate_realistic_da_price_no_draw _ _ season base_da_price _ (draws1 k) (draws2 k) Hv).
  reflexivity.
Qed.




Lemma settle_agent_product_ids (a : Agent.t) (p : Product.t) (lu ld : Z) (ap : bool) :
  let '(r, a1) := settle_agent_product a p lu ld ap in
  SettlementResult.agent_id r = Agent.id a /\ SettlementResult.product_id r = Product.product_id p /\
  Agent.id a1 = Agent.id a /\ Agent.is_multi_product a1 = Agent.is_multi_product a.
Proof.
  unfold settle_agent_product.
  destruct (Agent.is_multi_product a) eqn:Hm; cbn -[update_revenue calculate_imbalance_cost];
    rewrite ?Hm; destruct (ap && _); cbn -[update_revenue calculate_imbalance_cost]; rewrite ?Hm; auto.
Qed.

Lemma settle_agents_shape (p : Product.t) (lu ld : Z) (ap : bool) (agents : list Agent.t) :
  let '(rs, agents1) := settle_agents p lu ld ap agents in
  map SettlementResult.agent_id rs = map Agent.id (filter Agent.is_multi_product agents) /\
  Forall (fun r => SettlementResult.product_id r = Product.product_id p) rs /\
  map Agent.id agents1 = map Agent.id agents /\
  map Agent.is_multi_product agents1 = map Agent.is_multi_product agents /\
  (forall i a, nth_error agents i = Some a -> Agent.is_multi_product a = false ->
     nth_error agents1 i = Some a).
Proof.
  induction agents as [|a rest IH]; simpl.
  - repeat split; auto; intros [|i] ? [=].
  - destruct (settle_agents p lu ld ap rest) as [rs rest1].
    destruct IH as (I1 & I2 & I3 & I4 & I5).
    destruct (Agent.is_multi_product a) eqn:Hm; simpl.
    + pose proof (settle_agent_product_ids a p lu ld ap) as S.
      destruct (settle_agent_product a p lu ld ap) as [r a1]. destruct S as (S1 & S2 & S3 & S4).
      simpl. rewrite S1, S3, S4, I1, I3, I4, Hm. repeat split; auto.
      intros [|i] b Hb Hmb; simpl in Hb |- *; [injection Hb as <-; congruence|auto].
    + rewrite I3, I4, Hm. repeat split; auto.
      intros [|i] b Hb Hmb; simpl in Hb |- *; [exact Hb|auto].
Qed.

Lemma settle_products_from_shape (ps : list Product.t) :
  forall k agents bo vol draws ap acc,
  NoDup (map Product.product_id ps) ->
  (forall pid, In pid (map fst acc) -> ~ In pid (map Product.product_id ps)) ->
  let '(res, agents1) := settle_products_from k ps agents bo vol draws ap acc in
  map fst res = map fst acc ++ map Product.product_id ps /\
  map Agent.id agents1 = map Agent.id agents /\
  map Agent.is_multi_product agents1 = map Agent.is_multi_product agents /\
  (forall pid, ~ In pid (map Product.product_id ps) -> dget pid res = dget pid acc) /\
  (forall pid rs, In pid (map Product.product_id ps) -> dget pid res = Some rs ->
     map SettlementResult.agent_id rs = map Agent.id (filter Agent.is_multi_product agents) /\
     Forall (fun r => SettlementResult.product_id r = pid) rs).
Proof.
  induction ps as [|p ps IH]; intros k agents bo vol draws ap acc Hnd Hacc; simpl.
  - rewrite app_nil_r. repeat split; auto; simpl in *; tauto.
  - inversion Hnd as [|? ? Hn Hnd']; subst.
    destruct (get_imbalance_prices p bo vol (draws k)) as [lu ld].
    pose proof (settle_agents_shape p lu ld ap agents) as S.
    destruct (settle_agents p lu ld ap agents) as [rs agents1]. destruct S as (S1 & S2 & S3 & S4 & _).
    assert (Hni : ~ In (Product.product_id p) (map fst acc)) by (intros H; apply (Hacc _ H); now left).
    specialize (IH (S k) agents1 bo vol draws ap (dset (Product.product_id p) rs acc) Hnd').
    destruct (settle_products_from (S k) ps agents1 bo vol draws ap (dset (Product.product_id p) rs acc))
      as [res agents2].
    destruct IH as (R1 & R2 & R3 & R4 & R5).
    { rewrite keys_dset_notin by exact Hni. intros pid Hi. apply in_app_or in Hi.
      destruct Hi as [Hi|[<-|[]]]; [intros H; apply (Hacc pid Hi); now right|exact Hn]. }
    rewrite R1, keys_dset_notin by exact Hni. rewrite <- app_assoc.
    split; [reflexivity|]. split; [congruence|]. split; [congruence|]. split.
    + intros pid Hnp. rewrite R4 by (intros H; apply Hnp; now right).
      rewrite dget_dset. assert (Hx : (pid =? Product.product_id p) = false)
        by (apply Z.eqb_neq; intros ->; apply Hnp; now left). now rewrite Hx.
    + intros pid rs' [<-|Hi] G.
      * rewrite R4 in G by exact Hn. rewrite dget_dset, Z.eqb_refl in G. injection G as <-.
        split; [exact S1|exact S2].
      * destruct (R5 pid rs' Hi G) as [T1 T2]. split; [|exact T2].
        rewrite T1. clear -S3 S4. revert agents S3 S4. induction agents1 as [|b l IHl];
          intros [|c l'] E3 E4; simpl in *; try discriminate; [reflexivity|].
        injection E3 as E3 E3'. injection E4 as E4 E4'. rewrite E4.
        destruct (Agent.is_multi_product c); simpl; [rewrite E3; f_equal|]; apply IHl; auto.
Qed.

(** X19. [settle_products] over products with distinct ids returns one entry per product, in order; each entry has one result per multi-product agent, in order, all for that product; the agents keep their ids and kinds. *)
Theorem settle_products_shape (ps : list Product.t) (agents : list Agent.t) (bo vol : Z)
    (draws : nat -> option (Z * Z)) (apply_to_revenue : bool) :
  NoDup (map Product.product_id ps) ->
  let '(res, agents1) := settle_products ps agents bo vol draws apply_to_revenue in
  map fst res = map Product.product_id ps /\
  map Agent.id agents1 = map Agent.id agents /\
  map Agent.is_multi_product agents1 = map Agent.is_multi_product agents /\
  (forall pid rs, dget pid res = Some rs ->
     map SettlementResult.agent_id rs = map Agent.id (filter Agent.is_multi_product agents) /\
     Forall (fun r => SettlementResult.product_id r = pid) rs).
Proof.
  intros Hnd. unfold settle_products.
  pose proof (settle_products_from_shape ps 0 agents bo vol draws apply_to_revenue [] Hnd
                (fun pid H => match H with end)) as S.
  destruct (settle_products_from 0 ps agents bo vol draws apply_to_revenue []) as [res agents1].
  destruct S as (S1 & S2 & S3 & S4 & S5). simpl in S1.
  split; [exact S1|]. split; [exact S2|]. split; [exact S3|].
  intros pid rs G. apply S5; [|exact G].
  rewrite <- S1. apply (in_map fst res (pid, rs)). now apply dget_In.
Qed.

Lemma sget_sset (k k' : string) (v : list Z) (d : AgentLog) :
  sget k' (sset k v d) = if String.eqb k' k then Some v else sget k' d.
Proof.
  induction d as [|[k0 v0] d IH]; simpl.
  - reflexivity.
  - destruct (String.eqb_spec k k0) as [->|Hne]; simpl.
    + destruct (String.eqb k' k0); reflexivity.
    + rewrite IH. destruct (String.eqb_spec k' k0) as [->|]; [|reflexivity].
      destruct (String.eqb_spec k0 k); [congruence|reflexivity].
Qed.

Lemma sum_app_one (l : list Z) (x : Z) : fold_right Z.add 0 (l ++ [x]) = fold_right Z.add 0 l + x.
Proof. induction l as [|y l IH]; simpl; lia. Qed.

Lemma sappend_ok (k : string) (x : Z) (d : AgentLog) (l : list Z) :
  sget k d = Some l -> sappend k x d = Some (sset k (l ++ [x]) d).
Proof. intros G. unfold sappend. now rewrite G. Qed.

Lemma sget_some_sset (k k' : string) (v : list Z) (d : AgentLog) :
  sget k' d <> None -> sget k' (sset k v d) <> None.
Proof. rewrite sget_sset. destruct (String.eqb k' k); congruence. Qed.

Lemma sget_sset_ne (k k' : string) (v : list Z) (d : AgentLog) :
  String.eqb k' k = false -> sget k' (sset k v d) = sget k' d.
Proof. intros H. rewrite sget_sset. now rewrite H. Qed.

Lemma sget_sset_eq (k : string) (v : list Z) (d : AgentLog) : sget k (sset k v d) = Some v.
Proof. rewrite sget_sset. now rewrite String.eqb_refl. Qed.

Lemma get_total_cost_total (logs : dict AgentLog) (aid : Z) :
  get_total_settlement_cost logs aid =
  match dget aid logs with None => 0 | Some lg => cost_total lg end.
Proof. reflexivity. Qed.

Lemma log_result_step (product_id : Z) (r : SettlementResult.t) (logs : dict AgentLog) :
  (forall aid lg, dget aid logs = Some lg -> log_ready lg) ->
  exists logs', log_result product_id r logs = Some logs' /\
    map fst logs' = map fst logs /\
    (forall aid lg, dget aid logs' = Some lg -> log_ready lg) /\
    forall aid, get_total_settlement_cost logs' aid =
      get_total_settlement_cost logs aid +
      match dget aid logs with
      | Some _ => if aid =? SettlementResult.agent_id r then SettlementResult.imbalance_cost r else 0
      | None => 0
      end.
Proof.
  intros Hr. unfold log_result.
  destruct (dget (SettlementResult.agent_id r) logs) as [lg|] eqn:G.
  2:{ exists logs. split; [reflexivity|]. split; [reflexivity|]. split; [exact Hr|].
      intros aid. destruct (dget aid logs) eqn:Ga; [|lia].
      destruct (Z.eqb_spec aid (SettlementResult.agent_id r)) as [->|]; [congruence|lia]. }
  set (lg0 := match sget "settlement_products" lg with
              | Some _ => lg
              | None => sset "settlement_lambda_down" []
                          (sset "settlement_lambda_up" []
                             (sset "settlement_costs" []
                                (sset "settlement_imbalances" []
                                   (sset "settlement_products" [] lg))))
              end).
  assert (H0 : forall k, In k settlement_keys -> sget k lg0 <> None).
  { unfold lg0. destruct (Hr _ _ G) as [[Hp _]|Hall].
    - rewrite Hp. intros k Hk. simpl in Hk.
      destruct Hk as [<-|[<-|[<-|[<-|[<-|[]]]]]]; rewrite !sget_sset; simpl; discriminate.
    - destruct (sget "settlement_products" lg) eqn:Hp; [exact Hall|].
      exfalso. apply (Hall "settlement_products"%string); [now left|exact Hp]. }
  assert (HC : forall l, sget "settlement_costs" lg0 = Some l -> fold_right Z.add 0 l = cost_total lg).
  { unfold lg0, cost_total. destruct (Hr _ _ G) as [[Hp Hc]|Hall].
    - rewrite Hp, Hc. rewrite !sget_sset. simpl. now intros l [= <-].
    - destruct (sget "settlement_products" lg) eqn:Hp;
        [|exfalso; apply (Hall "settlement_products"%string); [now left|exact Hp]].
      intros l' E. rewrite E. reflexivity. }
  destruct (sget "settlement_products" lg0) as [l1|] eqn:E1;
    [|exfalso; apply (H0 "settlement_products"%string); [simpl; tauto|exact E1]].
  rewrite (sappend_ok _ _ _ _ E1).
  set (g1 := sset "settlement_products" (l1 ++ [product_id]) lg0).
  destruct (sget "settlement_imbalances" g1) as [l2|] eqn:E2;
    [|exfalso; revert E2; unfold g1; apply sget_some_sset; apply H0; simpl; tauto].
  rewrite (sappend_ok _ _ _ _ E2).
  set (g2 := sset "settlement_imbalances" (l2 ++ [SettlementResult.imbalance r]) g1).
  assert (E3' : sget "settlement_costs" g2 = sget "settlement_costs" lg0)
    by (unfold g2, g1; rewrite !sget_sset_ne by reflexivity; reflexivity).
  destruct (sget "settlement_costs" lg0) as [l3|] eqn:E3;
    [|exfalso; apply (H0 "settlement_costs"%string); [simpl; tauto|exact E3]].
  rewrite (sappend_ok _ _ _ _ E3').
  set (g3 := sset "settlement_costs" (l3 ++ [SettlementResult.imbalance_cost r]) g2).
  destruct (sget "settlement_lambda_up" g3) as [l4|] eqn:E4;
    [|exfalso; revert E4; unfold g3, g2, g1; do 3 apply sget_some_sset; apply H0; simpl; tauto].
  rewrite (sappend_ok _ _ _ _ E4).
  set (g4 := sset "settlement_lambda_up" (l4 ++ [SettlementResult.lambda_up r]) g3).
  destruct (sget "settlement_lambda_down" g4) as [l5|] eqn:E5;
    [|exfalso; revert E5; unfold g4, g3, g2, g1; do 4 apply sget_some_sset; apply H0; simpl; tauto].
  rewrite (sappend_ok _ _ _ _ E5).
  set (g5 := sset "settlement_lambda_down" (l5 ++ [SettlementResult.lambda_down r]) g4).
  assert (Kin : In (SettlementResult.agent_id r) (map fst logs)).
  { apply (in_map fst logs (SettlementResult.agent_id r, lg)). now apply dget_In. }
  exists (dset (SettlementResult.agent_id r) g5 logs). split; [reflexivity|].
  split; [now apply keys_dset_in|]. split.
  - intros aid lg' Ga. rewrite dget_dset in Ga.
    destruct (aid =? SettlementResult.agent_id r); [|exact (Hr _ _ Ga)].
    injection Ga as <-. right. intros k Hk.
    unfold g5, g4, g3, g2, g1. do 5 apply sget_some_sset. exact (H0 k Hk).
  - intros aid. rewrite !get_total_cost_total, dget_dset.
    destruct (Z.eqb_spec aid (SettlementResult.agent_id r)) as [->|Hne].
    + rewrite G. unfold cost_total at 1.
      assert (Ec : sget "settlement_costs" g5 = Some (l3 ++ [SettlementResult.imbalance_cost r]))
        by (unfold g5, g4, g3; rewrite !sget_sset_ne by reflexivity; apply sget_sset_eq).
      rewrite Ec, sum_app_one, (HC l3 eq_refl). lia.
    + destruct (dget aid logs); lia.
Qed.

Lemma dget_keys_some {V} (d1 d2 : dict V) (k : Z) (c : Z) :
  map fst d1 = map fst d2 ->
  match dget k d1 with Some _ => c | None => 0 end = match dget k d2 with Some _ => c | None => 0 end.
Proof.
  intros E. destruct (dget k d1) as [v1|] eqn:G1, (dget k d2) as [v2|] eqn:G2; try reflexivity.
  - exfalso. apply (dget_none_notin k d2 G2). rewrite <- E.
    apply (in_map fst d1 (k, v1)). now apply dget_In.
  - exfalso. apply (dget_none_notin k d1 G1). rewrite E.
    apply (in_map fst d2 (k, v2)). now apply dget_In.
Qed.

Lemma log_results_step (product_id : Z) (rs : list SettlementResult.t) :
  forall logs, (forall aid lg, dget aid logs = Some lg -> log_ready lg) ->
  exists logs', log_results product_id rs logs = Some logs' /\
    map fst logs' = map fst logs /\
    (forall aid lg, dget aid logs' = Some lg -> log_ready lg) /\
    forall aid, get_total_settlement_cost logs' aid =
      get_total_settlement_cost logs aid +
      match dget aid logs with Some _ => agent_costs aid rs | None => 0 end.
Proof.
  induction rs as [|r rs IH]; intros logs Hr; simpl.
  - exists logs. split; [reflexivity|]. split; [reflexivity|]. split; [exact Hr|].
    intros aid. unfold agent_costs. simpl. destruct (dget aid logs); lia.
  - destruct (log_result_step product_id r logs Hr) as (l1 & E1 & K1 & R1 & T1).
    rewrite E1. destruct (IH l1 R1) as (l2 & E2 & K2 & R2 & T2).
    exists l2. split; [exact E2|]. split; [congruence|]. split; [exact R2|].
    intros aid. rewrite T2, T1, (dget_keys_some l1 logs aid (agent_costs aid rs) K1).
    unfold agent_costs. simpl.
    destruct (dget aid logs); [|lia].
    destruct (Z.eqb_spec aid (SettlementResult.agent_id r)) as [->|Hne].
    + rewrite Z.eqb_refl. simpl. lia.
    + assert (Hx : (SettlementResult.agent_id r =? aid) = false) by (apply Z.eqb_neq; congruence).
      rewrite Hx. lia.
Qed.

Lemma fold_right_add_init (l : list Z) (a : Z) :
  fold_right Z.add a l = fold_right Z.add 0 l + a.
Proof. induction l as [|x l IH]; simpl; lia. Qed.

(** X20. When each agent log is either fresh or has all five settlement keys, [log_settlement_results] never raises, keeps the agents, and [get_total_settlement_cost] of each logged agent grows by the sum of that agent's costs in the results. *)
Theorem log_settlement_results_total (res : dict (list SettlementResult.t))
    (logs : dict AgentLog) :
  (forall aid lg, dget aid logs = Some lg -> log_ready lg) ->
  exists logs', log_settlement_results res logs = Some logs' /\
    map fst logs' = map fst logs /\
    forall aid, get_total_settlement_cost logs' aid =
      get_total_settlement_cost logs aid +
      match dget aid logs with
      | Some _ => agent_costs aid (concat (map snd res))
      | None => 0
      end.
Proof.
  revert logs. induction res as [|[pid rs] res IH]; intros logs Hr; simpl.
  - exists logs. split; [reflexivity|]. split; [reflexivity|].
    intros aid. unfold agent_costs. simpl. destruct (dget aid logs); lia.
  - destruct (log_results_step pid rs logs Hr) as (l1 & E1 & K1 & R1 & T1).
    rewrite E1. destruct (IH l1 R1) as (l2 & E2 & K2 & T2).
    exists l2. split; [exact E2|]. split; [congruence|].
    intros aid. rewrite T2, T1, (dget_keys_some l1 logs aid _ K1).
    unfold agent_costs. rewrite filter_app, map_app, fold_right_app.
    destruct (dget aid logs); [|lia].
    set (X := fold_right Z.add 0 (map SettlementResult.imbalance_cost
               (filter (fun r => SettlementResult.agent_id r =? aid) (concat (map snd res))))).
    rewrite (fold_right_add_init _ X). lia.
Qed.

Lemma consistent_set_book (mo : MO) (pid : Z) (ob ob' : Book) (n : Z) :
  mo_consistent mo -> dget pid (order_books mo) = Some ob -> product ob' = product ob ->
  mo_consistent (mkMO (products mo) (dset pid ob' (order_books mo)) n).
Proof.
  intros (K & Hnd & Hc) G Hp. split; [|split; [exact Hnd|]]; simpl.
  - rewrite keys_dset_in; [exact K|]. apply (in_map fst _ (pid, ob)). now apply dget_In.
  - intros pid' p G'. destruct (Hc pid' p G') as (ob1 & G1 & P1).
    rewrite dget_dset. destruct (Z.eqb_spec pid' pid) as [->|Hne].
    + exists ob'. split; [reflexivity|]. rewrite G in G1. injection G1 as <-. congruence.
    + exists ob1. auto.
Qed.

Lemma consistent_apply_status (mo : MO) (pid : Z) (p : Product.t) (s : ProductStatus) :
  mo_consistent mo -> In pid (map fst (products mo)) ->
  exists mo1, apply_status pid p s mo = (Ok tt, mo1) /\ mo_consistent mo1 /\
    map fst (products mo1) = map fst (products mo) /\
    next_order_id mo1 = next_order_id mo /\
    forall pid', pid' <> pid -> dget pid' (products mo1) = dget pid' (products mo).
Proof.
  intros (K & Hnd & Hc) Hin.
  assert (Kb : In pid (map fst (order_books mo))) by (rewrite K; exact Hin).
  destruct (in_keys_dget pid _ Kb) as [ob G].
  eexists. split; [exact (apply_status_some pid p s mo ob G)|].
  assert (Kp : map fst (dset pid (Product.update_status p s) (products mo)) = map fst (products mo))
    by (now apply keys_dset_in).
  split; [|split; [exact Kp|split; [reflexivity|]]].
  - split; [|split]; simpl.
    + rewrite Kp. rewrite keys_dset_in by exact Kb. exact K.
    + rewrite Kp. exact Hnd.
    + intros pid' p' G'. simpl in G' |- *. rewrite dget_dset in G'. rewrite dget_dset.
      destruct (Z.eqb_spec pid' pid) as [->|Hne].
      * injection G' as <-. eexists. split; reflexivity.
      * exact (Hc pid' p' G').
  - intros pid' Hne. simpl. rewrite dget_dset. apply Z.eqb_neq in Hne. now rewrite Hne.
Qed.

Lemma status_step_consistent (tm pid : Z) (p : Product.t) (closed : list Z) (mo : MO) :
  mo_consistent mo -> In pid (map fst (products mo)) ->
  exists c mo1, status_step tm pid p closed mo = (Ok c, mo1) /\ mo_consistent mo1 /\
    map fst (products mo1) = map fst (products mo).
Proof.
  intros Hc Hin. unfold status_step.
  destruct (Product.status p).
  - destruct (Product.gate_open p <=? tm); [|eauto].
    destruct (consistent_apply_status mo pid p OPEN Hc Hin) as (mo1 & E & C1 & K1 & _).
    rewrite E. eauto.
  - destruct (Product.gate_close p <=? tm); [|eauto].
    destruct Hc as (K & Hnd & Hcc).
    assert (Kb : In pid (map fst (order_books mo))) by (rewrite K; exact Hin).
    destruct (in_keys_dget pid _ Kb) as [ob G].
    unfold update_book. rewrite G.
    set (mo1 := mkMO (products mo) (dset pid (snd (clear_all_orders ob)) (order_books mo)) (next_order_id mo)).
    assert (C1 : mo_consistent mo1) by (apply (consistent_set_book mo pid ob); [split; auto|exact G|reflexivity]).
    destruct (consistent_apply_status mo1 pid p CLOSED C1 Hin) as (mo2 & E & C2 & K2 & _).
    rewrite E. eauto.
  - destruct (Product.delivery_end p <=? tm); [|eauto].
    destruct (consistent_apply_status mo pid p SETTLED Hc Hin) as (mo1 & E & C1 & K1 & _).
    rewrite E. eauto.
  - eauto.
Qed.

Lemma ups_loop_consistent (tm : Z) (items : dict Product.t) :
  forall closed mo, mo_consistent mo ->
  (forall pid, In pid (map fst items) -> In pid (map fst (products mo))) ->
  exists c mo', ups_loop tm items closed mo = (Ok c, mo') /\ mo_consistent mo' /\
    map fst (products mo') = map fst (products mo).
Proof.
  induction items as [|[pid0 p0] rest IH]; intros closed mo Hc Hin; simpl; [eauto|].
  destruct (status_step_consistent tm pid0 p0 closed mo Hc (Hin pid0 (or_introl eq_refl)))
    as (c1 & mo1 & E & C1 & K1).
  rewrite E. destruct (IH c1 mo1 C1) as (c & mo' & E' & C' & K').
  { intros pid H. rewrite K1. apply Hin. now right. }
  exists c, mo'. split; [exact E'|]. split; [exact C'|congruence].
Qed.

Lemma process_order_consistent (o : Order.t) (tm : Z) (vt : bool) (mo : MO) :
  mo_consistent mo -> mo_consistent (snd (process_order o tm vt mo)).
Proof.
  intros Hc. unfold process_order.
  destruct (dget (Order.product_id o) (order_books mo)) as [ob|] eqn:G; [|exact Hc].
  destruct (if vt then validate_order_time ob tm else Ok tt) as [[]|e]; [|exact Hc].
  pose proof (match_order_frame ob (Order.assign_id o (next_order_id mo) tm) tm) as F.
  destruct (match_order ob (Order.assign_id o (next_order_id mo) tm) tm) as [[trades o2] ob1].
  destruct F as [Fp _].
  destruct ((0 <? Order.volume o2) && is_gtc (Order.time_in_force o2)).
  - pose proof (add_order_cases o2 false None ob1) as C.
    destruct (add_order o2 false None ob1) as [r ob2]. destruct C as (_ & C2 & C3).
    assert (P : product ob2 = product ob).
    { destruct r as [[]|e].
      - rewrite (C2 eq_refl). destruct (Order.side o2); exact Fp.
      - rewrite (C3 ltac:(discriminate)). exact Fp. }
    destruct r; apply (consistent_set_book mo _ ob); auto.
  - apply (consistent_set_book mo _ ob); auto.
Qed.

(** X13. [from_products] over products with distinct ids builds an
    operator whose product table and books both have exactly the ids as
    keys, each book holding the product stored in the table. From such an
    operator, [update_product_status] never raises (its look-up of the
    book of a closing product always succeeds) and keeps the operator so,
    with the same product keys; [process_order], whether it raises or not,
    keeps it so too. *)
Theorem operator_consistency_invariant (ps : list Product.t) :
  NoDup (map Product.product_id ps) ->
  (map fst (products (from_products ps)) = map Product.product_id ps /\
   mo_consistent (from_products ps)) /\
  (forall tm mo, mo_consistent mo ->
     exists closed mo', update_product_status tm mo = (Ok closed, mo') /\
       mo_consistent mo' /\ map fst (products mo') = map fst (products mo)) /\
  (forall o tm vt mo, mo_consistent mo ->
     mo_consistent (snd (process_order o tm vt mo)) /\
     map fst (products (snd (process_order o tm vt mo))) = map fst (products mo)).
Proof.
  intros Hnd. split; [split|split].
  - exact (from_products_keys ps).
  - split; [|split].
    + unfold from_products. simpl. rewrite !map_map. reflexivity.
    + now rewrite from_products_keys.
    + intros pid p G. unfold from_products in *. simpl in *.
      apply dget_In in G. apply in_map_iff in G. destruct G as (q & Eq & Hq). injection Eq as <- <-.
      exists (mkBook q [] []). split; [|reflexivity].
      apply In_dget; [rewrite map_map; exact Hnd|]. apply in_map_iff. eauto.
  - intros tm mo Hc. unfold update_product_status.
    exact (ups_loop_consistent tm (products mo) [] mo Hc (fun _ h => h)).
  - intros o tm vt mo Hc. split; [now apply process_order_consistent|].
    now rewrite process_order_products.
Qed.

(** ** Witnesses of the further properties *)

Lemma scen_B_books : order_books scen_B_book = [(0, scen_B_ob)].
Proof. vm_compute. reflexivity. Qed.

Lemma scen_B_ob_wf : wf_book scen_B_ob.
Proof. apply wf_book_b_sound. vm_compute. reflexivity. Qed.

Lemma remove_orders_by_agent_spec_witness :
  NoDup (map fst (bids scen_B_ob)) /\ NoDup (map fst (asks scen_B_ob)) /\
  (let '(n, b') := remove_orders_by_agent 1 scen_B_ob in
   product b' = product scen_B_ob /\
   flat (bids b') = filter (fun o => negb (Order.agent_id o =? 1)) (flat (bids scen_B_ob)) /\
   flat (asks b') = filter (fun o => negb (Order.agent_id o =? 1)) (flat (asks scen_B_ob)) /\
   n = length (filter (fun o => Order.agent_id o =? 1) (all_orders scen_B_ob)) /\
   (n + book_len b')%nat = book_len scen_B_ob).
Proof.
  assert (H1 : NoDup (map fst (bids scen_B_ob))) by (apply nodup_b_sound; vm_compute; reflexivity).
  assert (H2 : NoDup (map fst (asks scen_B_ob))) by (apply nodup_b_sound; vm_compute; reflexivity).
  split; [exact H1|]. split; [exact H2|]. exact (remove_orders_by_agent_spec 1 scen_B_ob H1 H2).
Defined.

Lemma remove_orders_by_agent_keeps_wf_witness :
  wf_book scen_B_ob /\
  (let b' := snd (remove_orders_by_agent 2 scen_B_ob) in
   wf_book b' /\ forall o, In o (all_orders b') -> Order.agent_id o <> 2).
Proof. split; [exact scen_B_ob_wf|]. exact (remove_orders_by_agent_keeps_wf 2 scen_B_ob scen_B_ob_wf). Defined.

Lemma scen_B_books_wf : forall pid ob, In (pid, ob) (order_books scen_B_book) -> wf_book ob.
Proof. intros pid ob H. rewrite scen_B_books in H. destruct H as [H|[]]. injection H as _ <-. exact scen_B_ob_wf. Qed.

Lemma scen_B_dget_wf : forall ob, dget 0 (order_books scen_B_book) = Some ob -> wf_book ob.
Proof. intros ob G. rewrite scen_B_books in G. injection G as <-. exact scen_B_ob_wf. Qed.

Lemma cancel_agent_orders_all_witness :
  (forall pid ob, In (pid, ob) (order_books scen_B_book) -> wf_book ob) /\
  (let '(n, mo') := cancel_agent_orders 1 None scen_B_book in
   products mo' = products scen_B_book /\ next_order_id mo' = next_order_id scen_B_book /\
   map fst (order_books mo') = map fst (order_books scen_B_book) /\
   (n + total_orders mo')%nat = total_orders scen_B_book /\
   forall pid ob', dget pid (order_books mo') = Some ob' ->
     exists ob, dget pid (order_books scen_B_book) = Some ob /\ product ob' = product ob /\
       wf_book ob' /\
       all_orders ob' = filter (fun o => negb (Order.agent_id o =? 1)) (all_orders ob)).
Proof. split; [exact scen_B_books_wf|]. exact (cancel_agent_orders_all 1 scen_B_book scen_B_books_wf). Defined.

Lemma cancel_agent_orders_one_witness :
  (forall ob, dget 0 (order_books scen_B_book) = Some ob -> wf_book ob) /\
  (let '(n, mo') := cancel_agent_orders 2 (Some 0) scen_B_book in
   products mo' = products scen_B_book /\ next_order_id mo' = next_order_id scen_B_book /\
   (forall pid', pid' <> 0 -> dget pid' (order_books mo') = dget pid' (order_books scen_B_book)) /\
   match dget 0 (order_books scen_B_book) with
   | None => n = 0%nat /\ mo' = scen_B_book
   | Some ob =>
       exists ob', dget 0 (order_books mo') = Some ob' /\ product ob' = product ob /\
         wf_book ob' /\
         all_orders ob' = filter (fun o => negb (Order.agent_id o =? 2)) (all_orders ob) /\
         (n + book_len ob')%nat = book_len ob
   end).
Proof. split; [exact scen_B_dget_wf|]. exact (cancel_agent_orders_one 2 0 scen_B_book scen_B_dget_wf). Defined.

Lemma add_order_then_remove_order_witness :
  wf_book scen_B_ob /\ ~ In scen_ask (flat (own_side scen_B_ob (Order.side scen_ask))) /\
  add_order scen_ask false None scen_B_ob = (Ok tt, scen_ask_book) /\
  remove_order scen_ask scen_ask_book = scen_B_ob.
Proof.
  assert (H2 : ~ In scen_ask (flat (own_side scen_B_ob (Order.side scen_ask)))) by (vm_compute; tauto).
  assert (H3 : add_order scen_ask false None scen_B_ob = (Ok tt, scen_ask_book)) by (vm_compute; reflexivity).
  split; [exact scen_B_ob_wf|]. split; [exact H2|]. split; [exact H3|].
  exact (add_order_then_remove_order scen_ask false None scen_B_ob scen_ask_book scen_B_ob_wf H2 H3).
Defined.

Lemma remove_order_absent_witness :
  wf_book scen_B_ob /\ ~ In (scen_order 3 BUY 4 50) (flat (own_side scen_B_ob BUY)) /\
  remove_order (scen_order 3 BUY 4 50) scen_B_ob = scen_B_ob.
Proof.
  assert (H2 : ~ In (scen_order 3 BUY 4 50) (flat (own_side scen_B_ob (Order.side (scen_order 3 BUY 4 50)))))
    by (vm_compute; intros [H|[H|[]]]; discriminate).
  split; [exact scen_B_ob_wf|]. split; [exact H2|].
  exact (remove_order_absent (scen_order 3 BUY 4 50) scen_B_ob scen_B_ob_wf H2).
Defined.

Lemma get_tob_best_witness :
  (forall ob, dget 0 (order_books scen_B_book) = Some ob -> wf_book ob) /\
  match get_tob 0 scen_B_book with
  | Err _ => ~ In 0 (map fst (order_books scen_B_book))
  | Ok tob =>
      exists ob, dget 0 (order_books scen_B_book) = Some ob /\
      (TopOfBook.best_bid_price tob = None <-> bids ob = []) /\
      (TopOfBook.best_ask_price tob = None <-> asks ob = []) /\
      (forall p, TopOfBook.best_bid_price tob = Some p ->
         In p (map fst (bids ob)) /\ (forall k, In k (map fst (bids ob)) -> k <= p) /\
         exists r rest, dget p (bids ob) = Some (r :: rest) /\
           TopOfBook.best_bid_volume tob = Some (Order.volume r)) /\
      (forall p, TopOfBook.best_ask_price tob = Some p ->
         In p (map fst (asks ob)) /\ (forall k, In k (map fst (asks ob)) -> p <= k) /\
         exists r rest, dget p (asks ob) = Some (r :: rest) /\
           TopOfBook.best_ask_volume tob = Some (Order.volume r))
  end.
Proof. split; [exact scen_B_dget_wf|]. exact (get_tob_best 0 scen_B_book scen_B_dget_wf). Defined.

Lemma get_public_info_open_witness :
  NoDup (map fst (order_books scen_B_book)) /\
  (forall pid, In pid (map fst (order_books scen_B_book)) -> In pid (map fst (products scen_B_book))) /\
  exists d, get_public_info 5 None scen_B_book = Ok d /\ map fst d = get_open_products 5 scen_B_book /\
    forall pid info, dget pid d = Some info ->
      get_tob pid scen_B_book = Ok (PublicInfo.tob info) /\
      dget pid (products scen_B_book) = Some (PublicInfo.product info) /\
      PublicInfo.da_price info = Product.da_price (PublicInfo.product info).
Proof.
  assert (H1 : NoDup (map fst (order_books scen_B_book))) by (apply nodup_b_sound; vm_compute; reflexivity).
  assert (H2 : forall pid, In pid (map fst (order_books scen_B_book)) -> In pid (map fst (products scen_B_book)))
    by (intros pid H; vm_compute in H |- *; exact H).
  split; [exact H1|]. split; [exact H2|]. exact (get_public_info_open 5 scen_B_book H1 H2).
Defined.

Lemma scen_pending_hyps :
  NoDup (map fst (products scen_pending_mo)) /\
  (forall pid, In pid (map fst (products scen_pending_mo)) -> In pid (map fst (order_books scen_pending_mo))).
Proof.
  split; [apply nodup_b_sound; vm_compute; reflexivity|].
  intros pid H. vm_compute in H |- *. exact H.
Qed.

Lemma open_products_spec_witness :
  NoDup (map fst (products scen_pending_mo)) /\
  (forall pid, In pid (map fst (products scen_pending_mo)) -> In pid (map fst (order_books scen_pending_mo))) /\
  (let due := fun p : Product.t => status_eqb (Product.status p) PENDING && (Product.gate_open p <=? 1) in
   exists mo', open_products 1 scen_pending_mo =
                 (Ok (map fst (filter (fun kv => due (snd kv)) (products scen_pending_mo))), mo') /\
    next_order_id mo' = next_order_id scen_pending_mo /\
    map fst (products mo') = map fst (products scen_pending_mo) /\
    map fst (order_books mo') = map fst (order_books scen_pending_mo) /\
    (forall pid, ~ In pid (map fst (products scen_pending_mo)) ->
       dget pid (order_books mo') = dget pid (order_books scen_pending_mo)) /\
    (forall pid p, dget pid (products scen_pending_mo) = Some p ->
       dget pid (products mo') = Some (if due p then Product.update_status p OPEN else p) /\
       forall ob, dget pid (order_books scen_pending_mo) = Some ob ->
         dget pid (order_books mo') =
           Some (if due p then set_product ob (Product.update_status p OPEN) else ob))).
Proof.
  destruct scen_pending_hyps as [H1 H2].
  split; [exact H1|]. split; [exact H2|]. exact (open_products_spec 1 scen_pending_mo H1 H2).
Defined.

Lemma open_products_tradable_witness :
  NoDup (map fst (products scen_pending_mo)) /\
  (forall pid, In pid (map fst (products scen_pending_mo)) -> In pid (map fst (order_books scen_pending_mo))) /\
  dget 0 (products scen_pending_mo) = Some scen_run_product /\
  Product.status scen_run_product = PENDING /\
  Product.gate_open scen_run_product <= 1 < Product.gate_close scen_run_product /\
  In 0 (get_open_products 1 (snd (open_products 1 scen_pending_mo))).
Proof.
  destruct scen_pending_hyps as [H1 H2].
  assert (H3 : dget 0 (products scen_pending_mo) = Some scen_run_product) by reflexivity.
  assert (H4 : Product.status scen_run_product = PENDING) by reflexivity.
  assert (H5 : Product.gate_open scen_run_product <= 1 < Product.gate_close scen_run_product)
    by (simpl; lia).
  split; [exact H1|]. split; [exact H2|]. split; [exact H3|]. split; [exact H4|]. split; [exact H5|].
  exact (open_products_tradable 1 scen_pending_mo 0 scen_run_product H1 H2 H3 H4 H5).
Defined.

Lemma operator_consistency_invariant_witness :
  NoDup (map Product.product_id [scen_run_product]) /\
  (map fst (products (from_products [scen_run_product])) = map Product.product_id [scen_run_product] /\
   mo_consistent (from_products [scen_run_product])) /\
  (forall tm mo, mo_consistent mo ->
     exists closed mo', update_product_status tm mo = (Ok closed, mo') /\
       mo_consistent mo' /\ map fst (products mo') = map fst (products mo)) /\
  (forall o tm vt mo, mo_consistent mo ->
     mo_consistent (snd (process_order o tm vt mo)) /\
     map fst (products (snd (process_order o tm vt mo))) = map fst (products mo)) /\
  exists closed mo', update_product_status 1 (from_products [scen_run_product]) = (Ok closed, mo') /\
    mo_consistent mo' /\ mo_consistent (snd (process_order scen_ask 1 true mo')).
Proof.
  assert (H : NoDup (map Product.product_id [scen_run_product])) by (apply nodup_b_sound; vm_compute; reflexivity).
  pose proof (operator_consistency_invariant [scen_run_product] H) as ((K & C0) & U & P).
  split; [exact H|]. split; [split; assumption|]. split; [exact U|]. split; [exact P|].
  destruct (U 1 _ C0) as (closed & mo' & E & C1 & _).
  exists closed, mo'. split; [exact E|]. split; [exact C1|]. exact (proj1 (P scen_ask 1 true mo' C1)).
Defined.

Lemma to_product_window_witness :
  0 <= ProductConfig.gate_close_offset_minutes (ProductConfig.mk 0 100 60 1 5 50) <=
    ProductConfig.gate_open_offset_hours (ProductConfig.mk 0 100 60 1 5 50) * 60 /\
  0 <= ProductConfig.delivery_duration (ProductConfig.mk 0 100 60 1 5 50) /\
  (let p := ProductConfig.to_product (ProductConfig.mk 0 100 60 1 5 50) in
   Product.gate_open p <= Product.gate_close p <= Product.delivery_start p /\
   Product.delivery_start p <= Product.delivery_end p /\
   Product.delivery_end p - Product.delivery_start p = Product.duration p /\
   Product.status p = PENDING).
Proof.
  assert (H1 : 0 <= ProductConfig.gate_close_offset_minutes (ProductConfig.mk 0 100 60 1 5 50) <=
    ProductConfig.gate_open_offset_hours (ProductConfig.mk 0 100 60 1 5 50) * 60) by (simpl; lia).
  assert (H2 : 0 <= ProductConfig.delivery_duration (ProductConfig.mk 0 100 60 1 5 50)) by (simpl; lia).
  split; [exact H1|]. split; [exact H2|]. exact (to_product_window (ProductConfig.mk 0 100 60 1 5 50) H1 H2).
Defined.

Lemma create_quarterly_products_draws_unused_witness :
  (false = false \/ 5 <= 0) /\
  create_quarterly_products 2 0 1 5 "winter" 50 5 false (fun _ => 3) =
  create_quarterly_products 2 0 1 5 "winter" 50 5 false (fun _ => -3).
Proof.
  assert (H : false = false \/ 5 <= 0) by (left; reflexivity).
  split; [exact H|].
  exact (create_quarterly_products_draws_unused 2 0 1 5 "winter" 50 5 false (fun _ => 3) (fun _ => -3) H).
Defined.

Lemma settle_products_shape_witness :
  NoDup (map Product.product_id [scen_settle_product 10; Product.mk 1 160 220 60 100 60 20 CLOSED]) /\
  (let '(res, agents1) := settle_products [scen_settle_product 10; Product.mk 1 160 220 60 100 60 20 CLOSED]
                            [scen_agent] 5 0 (fun _ => None) true in
   map fst res = map Product.product_id [scen_settle_product 10; Product.mk 1 160 220 60 100 60 20 CLOSED] /\
   map Agent.id agents1 = map Agent.id [scen_agent] /\
   map Agent.is_multi_product agents1 = map Agent.is_multi_product [scen_agent] /\
   (forall pid rs, dget pid res = Some rs ->
      map SettlementResult.agent_id rs = map Agent.id (filter Agent.is_multi_product [scen_agent]) /\
      Forall (fun r => SettlementResult.product_id r = pid) rs)).
Proof.
  assert (H : NoDup (map Product.product_id [scen_settle_product 10; Product.mk 1 160 220 60 100 60 20 CLOSED]))
    by (apply nodup_b_sound; vm_compute; reflexivity).
  split; [exact H|].
  exact (settle_products_shape [scen_settle_product 10; Product.mk 1 160 220 60 100 60 20 CLOSED]
           [scen_agent] 5 0 (fun _ => None) true H).
Defined.

Lemma log_settlement_results_total_witness :
  (forall aid lg, dget aid scen_logs = Some lg -> log_ready lg) /\
  exists logs', log_settlement_results scen_results scen_logs = Some logs' /\
    map fst logs' = map fst scen_logs /\
    forall aid, get_total_settlement_cost logs' aid =
      get_total_settlement_cost scen_logs aid +
      match dget aid scen_logs with
      | Some _ => agent_costs aid (concat (map snd scen_results))
      | None => 0
      end.
Proof.
  assert (H : forall aid lg, dget aid scen_logs = Some lg -> log_ready lg).
  { intros aid lg G. simpl in G. destruct (aid =? 1); [|discriminate]. injection G as <-.
    left. split; reflexivity. }
  split; [exact H|]. exact (log_settlement_results_total scen_results scen_logs H).
Defined.
